(** * pyjimeng: a shallow embedding of the submission / upload / poll core

    The development follows the Python package [pyjimeng]:
    - [poller.py]        the adaptive polling loop ([SmartPoller.poll]);
    - [core.py]          the request gateway with its retry loop ([request]);
    - [aws_signature.py] the SigV4-style signer ([create_signature]);
    - [images.py]        the three-phase upload ([_upload_buffer]) and the
                         image-composition entry point;
    - [service.py]       the session pool ([JimengClient._choose_token]).

    Conventions of the embedding.
    - Python [int] is [Z]; wall-clock readings and sleep intervals (Python
      [float] seconds) are rationals [Q], of which only the order is used.
    - [str] and [bytes] are [string] (a list of 8-bit characters).
    - An exception is a value of the type [Errors.Exception]; a function that
      may raise returns an [Errors.Outcome].
    - The outside world (clock, HTTP peers, random source) is a script that
      the embedded function consumes, and every call sent out is recorded.
    - [constants.py] supplies tables and numbers only; they are parameters.

    The models come first, the properties proved about them after. *)

From Stdlib Require Import ZArith QArith List String Ascii Bool Lia Permutation.
From Stdlib Require Import DecimalString.
Import ListNotations.

#[local] Set Warnings "-register-all".

Local Open Scope string_scope.
Local Open Scope Z_scope.

(* ================================================================== *)
(** * Python truthiness and small helpers                               *)
(* ================================================================== *)

Module Py.

(** [bool(s)] for a [str]: empty is falsy. *)
Definition truthy_str (s : string) : bool :=
  match s with
  | EmptyString => false
  | String _ _ => true
  end.

(** [bool(x)] for an [Optional[str]]: [None] and the empty string are falsy. *)
Definition truthy_opt_str (o : option string) : bool :=
  match o with
  | None => false
  | Some s => truthy_str s
  end.

(** [bool(n)] for an [int]. *)
Definition truthy_int (n : Z) : bool := negb (n =? 0).

(** [x or d] for an optional integer argument. *)
Definition or_int (x : option Z) (d : Z) : Z :=
  match x with
  | Some n => if truthy_int n then n else d
  | None => d
  end.

(** [x or d] for an optional float argument. *)
Definition or_float (x : option Q) (d : Q) : Q :=
  match x with
  | Some q => if Qeq_bool q 0 then d else q
  | None => d
  end.

End Py.

(* ================================================================== *)
(** * poller.py                                                         *)
(* ================================================================== *)

Module Poller.

Record PollingStatus : Type := mkPollingStatus {
  status : Z;
  fail_code : option string;
  item_count : Z;
  finish_time : option Z;
  history_id : option string
}.

Record PollingResult : Type := mkPollingResult {
  res_status : Z;
  res_fail_code : option string;
  res_item_count : Z;
  elapsed_time : Q;
  poll_count : Z;
  exit_reason : string
}.

(** The four entries of [constants.POLLING_CONFIG] read by the constructor.
    The module [constants.py] supplies them; here they are a parameter. *)
Record PollingConfig : Type := mkPollingConfig {
  MAX_POLL_COUNT : Z;
  POLL_INTERVAL : Q;
  STABLE_ROUNDS : Z;
  TIMEOUT_SECONDS : Q
}.

Record SmartPoller : Type := mkSmartPoller {
  max_poll_count : Z;
  poll_interval : Q;
  stable_rounds : Z;
  timeout_seconds : Q;
  expected_item_count : Z;
  item_type : string
}.

(** [SmartPoller.__init__]. *)
Definition SmartPoller_init (POLLING_CONFIG : PollingConfig)
    (max_poll_count : option Z) (poll_interval : option Q)
    (stable_rounds : option Z) (timeout_seconds : option Q)
    (expected_item_count : Z) (item_type : string) : SmartPoller :=
  {| max_poll_count := Py.or_int max_poll_count (MAX_POLL_COUNT POLLING_CONFIG);
     poll_interval := Py.or_float poll_interval (POLL_INTERVAL POLLING_CONFIG);
     stable_rounds := Py.or_int stable_rounds (STABLE_ROUNDS POLLING_CONFIG);
     timeout_seconds := Py.or_float timeout_seconds (TIMEOUT_SECONDS POLLING_CONFIG);
     expected_item_count := expected_item_count;
     item_type := item_type |}.

(** [status in (10, 30, 50)]. *)
Definition is_terminal (s : Z) : bool :=
  (s =? 10) || (s =? 30) || (s =? 50).

(** [SmartPoller._next_interval]. *)
Definition _next_interval (self : SmartPoller) (s : Z) : Q :=
  if s =? 42 then poll_interval self * (12 # 10)
  else if s =? 45 then poll_interval self * (15 # 10)
  else if (s =? 10) || (s =? 50) || (s =? 30) then 0
  else poll_interval self.

(** The exit reasons, as the literals of the source. *)
Definition REASON_COMPLETED : string := "完成".
Definition REASON_FAILED : string := "失败".
Definition REASON_EXPECTED : string := "已获得完整结果".
Definition REASON_STABLE : string := "结果数量稳定".
Definition REASON_ROUND_LIMIT : string := "轮询次数超限".
Definition REASON_TIMEOUT_PARTIAL : string := "时间超限但有结果".

Section Poll.

(** The payload type [T] that [poll_fn] returns next to the status. *)
Variable T : Type.

(** One round of the loop as seen from outside: what [poll_fn()] returned and
    what [time.time() - start] read right after it. *)
Record Round : Type := mkRound {
  fetched : PollingStatus;
  payload : T;
  elapsed : Q
}.

(** The local variables that survive from one iteration to the next, and the
    sleeps issued so far (most recent first). *)
Record LoopState : Type := mkLoopState {
  st_poll_count : Z;
  st_last_item_count : Z;
  st_stable_rounds : Z;
  st_slept : list Q
}.

Definition initial_state : LoopState :=
  {| st_poll_count := 0; st_last_item_count := 0; st_stable_rounds := 0;
     st_slept := [] |}.

Inductive PollOutcome : Type :=
| Returned (result : PollingResult) (data : T)
| RaisedPollingTimeout (elapsed : Q) (status : Z) (items : Z)
| StillPolling (st : LoopState).

(** Lines 88-92: the stability counter. *)
Definition update_stability (st : LoopState) (s : PollingStatus) : Z * Z :=
  if item_count s =? st_last_item_count st
  then (st_stable_rounds st + 1, st_last_item_count st)
  else (0, item_count s).

(** Lines 104-114: the [if]/[elif] chain that chooses the exit reason. *)
Definition choose_exit_reason (self : SmartPoller) (s : PollingStatus)
    (poll_count stable : Z) (elapsed : Q) : option string :=
  if is_terminal (status s) then
    Some (if negb (status s =? 30) then REASON_COMPLETED else REASON_FAILED)
  else if expected_item_count self <=? item_count s then
    Some REASON_EXPECTED
  else if (stable_rounds self <=? stable) && (0 <? item_count s) then
    Some REASON_STABLE
  else if max_poll_count self <=? poll_count then
    Some REASON_ROUND_LIMIT
  else if Qle_bool (timeout_seconds self) elapsed && (0 <? item_count s) then
    Some REASON_TIMEOUT_PARTIAL
  else None.

(** Lines 132-134 and the loop variables carried into the next iteration:
    the state reached when an iteration falls through to the sleep. *)
Definition next_state (self : SmartPoller) (st : LoopState) (rd : Round)
    : LoopState :=
  let s := fetched rd in
  let '(stable, last) := update_stability st s in
  let interval := _next_interval self (status s) in
  {| st_poll_count := st_poll_count st + 1;
     st_last_item_count := last;
     st_stable_rounds := stable;
     st_slept := if Qle_bool interval 0 then st_slept st
                 else interval :: st_slept st |}.

(** The body of [while True], run over the rounds the world supplies.  The
    loop is still running when the script is used up. *)
Fixpoint poll_loop (self : SmartPoller) (st : LoopState) (rounds : list Round)
    : PollOutcome :=
  match rounds with
  | [] => StillPolling st
  | rd :: rest =>
      let poll_count := st_poll_count st + 1 in
      let s := fetched rd in
      let data := payload rd in
      let el := elapsed rd in
      let stable := fst (update_stability st s) in
      let exit_reason := choose_exit_reason self s poll_count stable el in
      let next_iteration :=
        if Qle_bool (timeout_seconds self) el then
          RaisedPollingTimeout el (status s) (item_count s)
        else
          poll_loop self (next_state self st rd) rest in
      match exit_reason with
      | Some reason =>
          if Py.truthy_str reason then
            Returned {| res_status := status s;
                        res_fail_code := fail_code s;
                        res_item_count := item_count s;
                        elapsed_time := el;
                        poll_count := poll_count;
                        exit_reason := reason |} data
          else next_iteration
      | None => next_iteration
      end
  end.

(** [SmartPoller.poll]. *)
Definition poll (self : SmartPoller) (rounds : list Round) : PollOutcome :=
  poll_loop self initial_state rounds.

(** ** Vocabulary for statements about status sequences *)

(** A round without items, without a terminal status and before the
    deadline. *)
Definition idle_round (self : SmartPoller) (rd : Round) : Prop :=
  is_terminal (status (fetched rd)) = false /\
  item_count (fetched rd) = 0 /\
  (elapsed rd < timeout_seconds self)%Q.

(** A round that reports [c] items and no terminal status. *)
Definition steady_round (c : Z) (rd : Round) : Prop :=
  is_terminal (status (fetched rd)) = false /\
  item_count (fetched rd) = c.

(** A round read before the deadline. *)
Definition before_deadline (self : SmartPoller) (rd : Round) : Prop :=
  (elapsed rd < timeout_seconds self)%Q.

End Poll.

Arguments mkRound {T}.
Arguments fetched {T}.
Arguments payload {T}.
Arguments elapsed {T}.
Arguments Returned {T}.
Arguments RaisedPollingTimeout {T}.
Arguments StillPolling {T}.
Arguments poll_loop {T}.
Arguments next_state {T}.
Arguments idle_round {T}.
Arguments steady_round {T}.
Arguments before_deadline {T}.
Arguments poll {T}.

(** ** Sample pollers and status sequences

    Used to run the loop on concrete inputs.  The numbers of
    [sample_config] stand for a [POLLING_CONFIG]; status 20 is an in-progress
    value, 10 the success value. *)

Definition sample_config : PollingConfig :=
  {| MAX_POLL_COUNT := 900; POLL_INTERVAL := 5; STABLE_ROUNDS := 5;
     TIMEOUT_SECONDS := 900 |}.

(** [SmartPoller(expected_item_count=1, item_type="image")], as the image
    paths build it. *)
Definition image_poller : SmartPoller :=
  SmartPoller_init sample_config None None None None 1 "image".

(** [SmartPoller(max_poll_count=3, timeout_seconds=5)]. *)
Definition short_poller : SmartPoller :=
  SmartPoller_init sample_config (Some 3) None None (Some 5%Q) 4 "image".

(** [SmartPoller(stable_rounds=2)]. *)
Definition two_stable_poller : SmartPoller :=
  SmartPoller_init sample_config None None (Some 2) None 4 "image".

(** A round with the given status, item count and clock reading; the
    payload is the round's label. *)
Definition round_of (label : string) (s items : Z) (t : Q) : Round string :=
  {| fetched := {| status := s; fail_code := None; item_count := items;
                   finish_time := None; history_id := Some "h1" |};
     payload := label;
     elapsed := t |}.

End Poller.

(* ================================================================== *)
(** * Decoded JSON and exceptions                                       *)
(* ================================================================== *)

Module Json.

(** What [response.json()] yields.  A [dict] is the list of its items in
    order; numbers are the integers the backend sends. *)
Inductive value : Type :=
| Null
| Bool (b : bool)
| Int (n : Z)
| Str (s : string)
| Arr (items : list value)
| Obj (fields : list (string * value)).

(** [d[key]] where the key is present. *)
Fixpoint lookup (key : string) (fields : list (string * value)) : option value :=
  match fields with
  | [] => None
  | (k, v) :: rest => if String.eqb k key then Some v else lookup key rest
  end.

(** [d.get(key)]: [None] (here [Null]) when the key is absent. *)
Definition get (fields : list (string * value)) (key : string) : value :=
  match lookup key fields with
  | Some v => v
  | None => Null
  end.

(** [bool(v)]. *)
Definition truthy (v : value) : bool :=
  match v with
  | Null => false
  | Bool b => b
  | Int n => negb (n =? 0)
  | Str s => Py.truthy_str s
  | Arr items => match items with [] => false | _ => true end
  | Obj fields => match fields with [] => false | _ => true end
  end.

(** [v is None]. *)
Definition is_none (v : value) : bool :=
  match v with
  | Null => true
  | _ => false
  end.

End Json.

Module Errors.

(** The argument of an exception: a literal, an f-string that ends in a
    formatted value, or a decoded value passed as it is. *)
Inductive Message : Type :=
| Text (s : string)
| TextWith (prefix : string) (shown : Json.value)
| Shown (v : Json.value).

(** The exceptions that cross the functions modelled here.  [errors.py]
    declares [JimengAPIError] (with its optional [status_code]) and
    [JimengPollingTimeout]; [HTTPError] is what [Response.raise_for_status]
    raises and [RequestException] what a failed transfer raises in the
    [requests] library; [PythonError] stands for the built-in errors
    ([KeyError], [AttributeError], ...). *)
Inductive Exception : Type :=
| JimengAPIError (message : Message) (status_code : option Z)
| JimengPollingTimeout (elapsed : Q) (status : Z) (items : Z)
| HTTPError (status_code : Z)
| RequestException (text : string)
| PythonError (kind : string).


Definition is_JimengAPIError (e : Exception) : bool :=
  match e with
  | JimengAPIError _ _ => true
  | _ => false
  end.

(** How a call ends: with a value, with an exception, or not within the
    replies the world was scripted to give. *)
Inductive Outcome (A : Type) : Type :=
| Return (a : A)
| Raise (e : Exception)
| Starved.

Arguments Return {A}.
Arguments Raise {A}.
Arguments Starved {A}.

(** Sequencing: the first exception ends the computation. *)
Definition and_then {A B : Type} (o : Outcome A) (k : A -> Outcome B)
    : Outcome B :=
  match o with
  | Return a => k a
  | Raise e => Raise e
  | Starved => Starved
  end.

End Errors.

Declare Scope outcome_scope.
Delimit Scope outcome_scope with outcome.
Notation "x <~ o ;; k" := (Errors.and_then o (fun x => k))
  (at level 61, o at next level, right associativity) : outcome_scope.

(* ================================================================== *)
(** * core.py                                                           *)
(* ================================================================== *)

Module Core.
Import Errors.

(** The part of a [requests.Response] that the package reads. *)
Record Response : Type := mkResponse {
  status_code : Z;
  text : string;
  json : option Json.value   (* [None]: the body does not decode *)
}.

(** What one call of [SESSION.request] (or [requests.get]/[post]) does. *)
Inductive Attempt : Type :=
| Fails (exc : string)       (* [requests.RequestException], with [str(exc)] *)
| Replies (resp : Response).

(** [constants.RETRY_CONFIG]; [constants.py] supplies the numbers. *)
Record RetryConfig : Type := mkRetryConfig {
  MAX_RETRY_COUNT : Z;
  RETRY_DELAY : Q
}.

(** [Response.raise_for_status] of [requests]: an [HTTPError] for the 4xx
    and 5xx codes. *)
Definition raise_for_status (resp : Response) : option Exception :=
  if (400 <=? status_code resp) && (status_code resp <? 600)
  then Some (HTTPError (status_code resp))
  else None.

(** [text[:n]]. *)
Definition take_chars (n : nat) (s : string) : string := substring 0 n s.

(** [str(ret) == "0"] for a decoded value. *)
Definition str_is_zero (v : Json.value) : bool :=
  match v with
  | Json.Int n => n =? 0
  | Json.Str s => String.eqb s "0"
  | _ => false
  end.

(** [check_result]. *)
Definition check_result (response : Response) : Outcome Json.value :=
  match json response with
  | None =>
      Raise (JimengAPIError
               (TextWith "非JSON响应: " (Json.Str (take_chars 200 (text response))))
               None)
  | Some (Json.Obj payload) =>
      let ret := Json.get payload "ret" in
      if Json.is_none ret then Return (Json.Obj payload)
      else if str_is_zero ret then Return (Json.get payload "data")
      else
        (m <~ (if Json.truthy (Json.get payload "errmsg")
               then Return (Json.get payload "errmsg")
               else
                 match Json.lookup "data" payload with
                 | None => Return Json.Null            (* [{}.get("msg")] *)
                 | Some (Json.Obj data) => Return (Json.get data "msg")
                 | Some _ => Raise (PythonError "AttributeError")
                 end) ;;
         let errmsg := if Json.truthy m then m else Json.Str "请求失败" in
         Raise (JimengAPIError (Shown errmsg) (Some (status_code response))))%outcome
  | Some _ => Raise (PythonError "AttributeError")
  end.

(** What [request] hands back: the raw response of a streaming call, or the
    unwrapped payload. *)
Inductive Reply : Type :=
| Raw (resp : Response)
| Payload (v : Json.value).

(** A finished run of the retry loop: how it ended, the final value of the
    local [retries], the sleeps issued, and the replies of the world it left
    unread. *)
Record Run : Type := mkRun {
  outcome : Outcome Reply;
  retries_used : Z;
  slept : list Q;
  unread : list Attempt
}.

(** Lines 184-224: the [while True] of [request], over the replies the world
    gives to the successive calls of [SESSION.request]. *)
Fixpoint request_loop (max_retries : Z) (delay : Q) (stream : bool)
    (retries : Z) (sleeps : list Q) (world : list Attempt) : Run :=
  match world with
  | [] => mkRun Starved retries sleeps []
  | Fails exc :: rest =>
      if retries <? max_retries then
        request_loop max_retries delay stream (retries + 1) (delay :: sleeps) rest
      else
        mkRun (Raise (JimengAPIError (Text exc) None)) retries sleeps rest
  | Replies resp :: rest =>
      if stream then
        match raise_for_status resp with
        | Some e => mkRun (Raise e) retries sleeps rest
        | None => mkRun (Return (Raw resp)) retries sleeps rest
        end
      else if (400 <=? status_code resp) && (retries <? max_retries) then
        request_loop max_retries delay stream (retries + 1) (delay :: sleeps) rest
      else
        match raise_for_status resp with
        | Some e => mkRun (Raise e) retries sleeps rest
        | None =>
            match check_result resp with
            | Return v => mkRun (Return (Payload v)) retries sleeps rest
            | Raise e => mkRun (Raise e) retries sleeps rest
            | Starved => mkRun Starved retries sleeps rest
            end
        end
  end.

(** [request], as far as its control flow goes: lines 153-179 prepare the
    URL, the headers and the query parameters, which are the same for every
    attempt and do not enter the loop. *)
Definition request (RETRY_CONFIG : RetryConfig) (stream : bool)
    (world : list Attempt) : Run :=
  let retries := 0 in
  let max_retries := MAX_RETRY_COUNT RETRY_CONFIG in
  let delay := RETRY_DELAY RETRY_CONFIG in
  request_loop max_retries delay stream retries [] world.

(** The number of calls of [SESSION.request] a run made. *)
Definition attempts_made (world : list Attempt) (r : Run) : nat :=
  (List.length world - List.length (unread r))%nat.

(** ** Vocabulary for statements about the retries *)


(** A failure that still counts when the budget is used up: an exception,
    or a status for which [raise_for_status] raises. *)
Definition hard_failure (a : Attempt) : Prop :=
  match a with
  | Fails _ => True
  | Replies resp => 400 <= status_code resp < 600
  end.

(** ** Sample replies *)

Definition reply_with (code : Z) (body : Json.value) : Attempt :=
  Replies {| status_code := code; text := ""; json := Some body |}.

Definition ok_envelope : Json.value :=
  Json.Obj [("ret", Json.Str "0"); ("data", Json.Obj [("user_id", Json.Int 7)])].

Definition sample_retry_config : RetryConfig :=
  {| MAX_RETRY_COUNT := 3; RETRY_DELAY := 5 |}.

Definition no_retry_config : RetryConfig :=
  {| MAX_RETRY_COUNT := 0; RETRY_DELAY := 5 |}.

End Core.

(* ================================================================== *)
(** * Text helpers                                                      *)
(* ================================================================== *)

Module Str.

(** Texts are byte strings; case mapping and whitespace are those of the
    ASCII range, which is where header names, methods and digests live. *)

Definition newline : string := String (ascii_of_nat 10) EmptyString.

(** The double quote, for the JSON texts built below. *)
Definition dquote : string := String (ascii_of_nat 34) EmptyString.

Definition backslash : string := String (ascii_of_nat 92) EmptyString.

Definition upper_char (c : ascii) : ascii :=
  let n := nat_of_ascii c in
  if (97 <=? n)%nat && (n <=? 122)%nat then ascii_of_nat (n - 32) else c.

Definition lower_char (c : ascii) : ascii :=
  let n := nat_of_ascii c in
  if (65 <=? n)%nat && (n <=? 90)%nat then ascii_of_nat (n + 32) else c.

(** [s.upper()] and [s.lower()]. *)
Fixpoint upper (s : string) : string :=
  match s with
  | EmptyString => EmptyString
  | String c rest => String (upper_char c) (upper rest)
  end.

Fixpoint lower (s : string) : string :=
  match s with
  | EmptyString => EmptyString
  | String c rest => String (lower_char c) (lower rest)
  end.

(** [c.isspace()]. *)
Definition is_space (c : ascii) : bool :=
  let n := nat_of_ascii c in
  ((9 <=? n)%nat && (n <=? 13)%nat) || ((28 <=? n)%nat && (n <=? 32)%nat).

Fixpoint lstrip (s : string) : string :=
  match s with
  | EmptyString => EmptyString
  | String c rest => if is_space c then lstrip rest else s
  end.

Fixpoint rstrip (s : string) : string :=
  match s with
  | EmptyString => EmptyString
  | String c rest =>
      match rstrip rest with
      | EmptyString => if is_space c then EmptyString else String c EmptyString
      | kept => String c kept
      end
  end.

(** [s.strip()]. *)
Definition strip (s : string) : string := rstrip (lstrip s).

(** [s.startswith(p)]. *)
Definition startswith (s p : string) : bool := prefix p s.

(** [s[:n]]. *)
Definition take (n : nat) (s : string) : string := substring 0 n s.

(** [sep.join(parts)]. *)
Definition join (sep : string) (parts : list string) : string :=
  String.concat sep parts.

(** Lowercase hexadecimal. *)
Definition hex_digit (n : nat) : ascii :=
  if (n <? 10)%nat then ascii_of_nat (48 + n) else ascii_of_nat (87 + n).

Definition is_hex_digit (c : ascii) : bool :=
  let n := nat_of_ascii c in
  ((48 <=? n)%nat && (n <=? 57)%nat) || ((97 <=? n)%nat && (n <=? 102)%nat).

(** [bytes.hex()]: two digits for every byte. *)
Fixpoint hexlify (s : string) : string :=
  match s with
  | EmptyString => EmptyString
  | String c rest =>
      let n := nat_of_ascii c in
      String (hex_digit (n / 16)) (String (hex_digit (n mod 16)) (hexlify rest))
  end.

(** Every character of [s] satisfies [p]. *)
Fixpoint all_chars (p : ascii -> bool) (s : string) : bool :=
  match s with
  | EmptyString => true
  | String c rest => p c && all_chars p rest
  end.

(** [sorted(l)] for a comparison [le]: the insertion sort is stable, as
    Python's [sorted] is. *)
Fixpoint insert_sorted {A : Type} (le : A -> A -> bool) (x : A) (l : list A)
    : list A :=
  match l with
  | [] => [x]
  | y :: rest => if le x y then x :: l else y :: insert_sorted le x rest
  end.

Fixpoint sorted {A : Type} (le : A -> A -> bool) (l : list A) : list A :=
  match l with
  | [] => []
  | x :: rest => insert_sorted le x (sorted le rest)
  end.

(** The order of tuples [(k, v)] of strings. *)
Definition pair_leb (p q : string * string) : bool :=
  match String.compare (fst p) (fst q) with
  | Lt => true
  | Eq => String.leb (snd p) (snd q)
  | Gt => false
  end.

End Str.

(** A [dict[str, str]]: its items in insertion order, keys distinct. *)
Module Dict.

Definition t : Type := list (string * string).

(** [d.get(key)]. *)
Fixpoint get (d : t) (key : string) : option string :=
  match d with
  | [] => None
  | (k, v) :: rest => if String.eqb k key then Some v else get rest key
  end.

(** [d[key] = value]. *)
Fixpoint set (d : t) (key value : string) : t :=
  match d with
  | [] => [(key, value)]
  | (k, v) :: rest =>
      if String.eqb k key then (k, value) :: rest else (k, v) :: set rest key value
  end.

Definition keys (d : t) : list string := map fst d.

End Dict.

(* ================================================================== *)
(** * hashlib, hmac and binascii                                        *)
(* ================================================================== *)

Module Sha256.

(** SHA-256 (FIPS 180-4) on 32-bit words kept in [Z], and HMAC (RFC 2104)
    over it: what [hashlib.sha256] and [hmac.new(..., hashlib.sha256)]
    compute.  They give the signer a concrete library to run on. *)

Definition mask32 : Z := 0xFFFFFFFF.
Definition add32 (a b : Z) : Z := Z.land (a + b) mask32.
Definition rotr (n x : Z) : Z :=
  Z.lor (Z.shiftr x n) (Z.land (Z.shiftl x (32 - n)) mask32).
Definition xor3 (a b c : Z) : Z := Z.lxor a (Z.lxor b c).

Definition ch (x y z : Z) : Z :=
  Z.lxor (Z.land x y) (Z.land (Z.lxor x mask32) z).
Definition maj (x y z : Z) : Z :=
  xor3 (Z.land x y) (Z.land x z) (Z.land y z).
Definition big_sigma0 (x : Z) : Z := xor3 (rotr 2 x) (rotr 13 x) (rotr 22 x).
Definition big_sigma1 (x : Z) : Z := xor3 (rotr 6 x) (rotr 11 x) (rotr 25 x).
Definition small_sigma0 (x : Z) : Z := xor3 (rotr 7 x) (rotr 18 x) (Z.shiftr x 3).
Definition small_sigma1 (x : Z) : Z := xor3 (rotr 17 x) (rotr 19 x) (Z.shiftr x 10).

(** The first 64 primes, by trial division. *)
Definition is_prime (n : nat) : bool :=
  (1 <? n)%nat &&
  forallb (fun d => negb (n mod d =? 0)%nat) (seq 2 (n - 2)).

Definition primes : list Z :=
  map Z.of_nat (filter is_prime (seq 2 310)).

(** The integer cube root of a number below [2 ^ 108], bit by bit. *)
Definition icbrt (n : Z) : Z :=
  fold_left (fun r bit => let r' := r + 2 ^ Z.of_nat bit in
                          if r' * r' * r' <=? n then r' else r)
    (rev (seq 0 36)) 0.

(** The round constants: the first 32 bits of the fractional parts of the
    cube roots of the primes. *)
Definition K : list Z :=
  Eval vm_compute in map (fun p => Z.land (icbrt (p * 2 ^ 96)) mask32) primes.

(** The initial hash value: the same of the square roots of the first 8
    primes. *)
Definition H0 : list Z :=
  Eval vm_compute in
    map (fun p => Z.land (Z.sqrt (p * 2 ^ 64)) mask32) (firstn 8 primes).

(** The message schedule, most recent word first. *)
Fixpoint expand (n : nat) (w : list Z) : list Z :=
  match n with
  | O => w
  | S n' =>
      let x := add32 (add32 (small_sigma1 (nth 1 w 0)) (nth 6 w 0))
                     (add32 (small_sigma0 (nth 14 w 0)) (nth 15 w 0)) in
      expand n' (x :: w)
  end.

Definition round (s : list Z) (kw : Z * Z) : list Z :=
  match s with
  | [a; b; c; d; e; f; g; h] =>
      let t1 := add32 (add32 (add32 h (big_sigma1 e)) (add32 (ch e f g) (fst kw))) (snd kw) in
      let t2 := add32 (big_sigma0 a) (maj a b c) in
      [add32 t1 t2; a; b; c; add32 d t1; e; f; g]
  | _ => s
  end.

Definition compress (h : list Z) (block : list Z) : list Z :=
  let w := rev (expand 48 (rev block)) in
  let s := fold_left round (combine K w) h in
  map (fun p => add32 (fst p) (snd p)) (combine h s).

Fixpoint words (fuel : nat) (bytes : list Z) : list Z :=
  match fuel, bytes with
  | S fuel', b0 :: b1 :: b2 :: b3 :: rest =>
      (b0 * 16777216 + b1 * 65536 + b2 * 256 + b3) :: words fuel' rest
  | _, _ => []
  end.

Fixpoint blocks (fuel : nat) (ws : list Z) : list (list Z) :=
  match fuel, ws with
  | S fuel', _ :: _ => firstn 16 ws :: blocks fuel' (skipn 16 ws)
  | _, _ => []
  end.

Definition be_bytes (n : nat) (x : Z) : list Z :=
  map (fun i => Z.land (Z.shiftr x (8 * Z.of_nat i)) 255) (rev (seq 0 n)).

Definition pad (bytes : list Z) : list Z :=
  let len := Z.of_nat (List.length bytes) in
  let zeros := Z.to_nat ((55 - len) mod 64) in
  (bytes ++ [128] ++ repeat 0 zeros ++ be_bytes 8 (8 * len))%list.

Definition bytes_of_string (s : string) : list Z :=
  map (fun c => Z.of_nat (nat_of_ascii c)) (list_ascii_of_string s).

Definition string_of_bytes (l : list Z) : string :=
  string_of_list_ascii (map (fun b => ascii_of_nat (Z.to_nat b)) l).

Definition digest_bytes (bytes : list Z) : list Z :=
  let padded := pad bytes in
  let ws := words (List.length padded) padded in
  let h := fold_left compress (blocks (List.length ws) ws) H0 in
  flat_map (be_bytes 4) h.

Definition digest (s : string) : string :=
  string_of_bytes (digest_bytes (bytes_of_string s)).

Definition hmac (key msg : string) : string :=
  let k0 := bytes_of_string key in
  let k1 := if (64 <? List.length k0)%nat then digest_bytes k0 else k0 in
  let k := (k1 ++ repeat 0 (64 - List.length k1))%list in
  let ipad := map (Z.lxor 54) k in
  let opad := map (Z.lxor 92) k in
  string_of_bytes
    (digest_bytes (opad ++ digest_bytes (ipad ++ bytes_of_string msg)))%list.

End Sha256.

Module Binascii.

(** One bit of the reflected CRC-32 division (polynomial [0xEDB88320]). *)
Definition crc_bit (crc : Z) : Z :=
  if Z.testbit crc 0 then Z.lxor (Z.shiftr crc 1) 0xEDB88320
  else Z.shiftr crc 1.

Definition crc_byte (crc : Z) (c : ascii) : Z :=
  let x := Z.lxor crc (Z.of_nat (nat_of_ascii c)) in
  crc_bit (crc_bit (crc_bit (crc_bit (crc_bit (crc_bit (crc_bit (crc_bit x))))))).

Fixpoint crc_update (crc : Z) (data : string) : Z :=
  match data with
  | EmptyString => crc
  | String c rest => crc_update (crc_byte crc c) rest
  end.

(** [binascii.crc32(data)]. *)
Definition crc32 (data : string) : Z :=
  Z.lxor (crc_update 0xFFFFFFFF data) 0xFFFFFFFF.

End Binascii.

(* ================================================================== *)
(** * aws_signature.py                                                  *)
(* ================================================================== *)

Module AwsSignature.
Import Errors.

(** What the module takes from the standard library: the two digests of
    [hashlib]/[hmac] (on bytes, giving the raw digest) and the URL parsing
    of [urllib.parse]. *)
Record Stdlib : Type := mkStdlib {
  sha256 : string -> string;                    (* [hashlib.sha256(b).digest()] *)
  hmac_sha256 : string -> string -> string;     (* [hmac.new(key, msg, sha256).digest()] *)
  urlsplit_path : string -> string;             (* [urlsplit(url).path] *)
  urlsplit_query : string -> string;            (* [urlsplit(url).query] *)
  parse_qsl : string -> list (string * string)  (* with [keep_blank_values=True] *)
}.

Section Signer.

Variable lib : Stdlib.

(** [hashlib.sha256(b).hexdigest()]. *)
Definition sha256_hex (b : string) : string := Str.hexlify (sha256 lib b).

(** [_sign]. *)
Definition _sign (key msg : string) : string := hmac_sha256 lib key msg.

Definition region : string := "cn-north-1".
Definition service : string := "imagex".

(** [method.upper() != "POST" or not payload], negated: the branch that
    signs the content hash. *)
Definition signs_content (method payload : string) : bool :=
  String.eqb (Str.upper method) "POST" && Py.truthy_str payload.

(** Line 26-27. *)
Definition canonical_query (url : string) : string :=
  let query_pairs := Str.sorted Str.pair_leb (parse_qsl lib (urlsplit_query lib url)) in
  Str.join "&" (map (fun kv => fst kv ++ "=" ++ snd kv)%string query_pairs).

(** Line 25. *)
Definition pathname (url : string) : string :=
  let path := urlsplit_path lib url in
  if Py.truthy_str path then path else "/".

(** Lines 34-42: the headers that get signed. *)
Definition headers_to_sign (method timestamp : string)
    (session_token : option string) (payload : string) : Dict.t :=
  let h0 : Dict.t := [("x-amz-date", timestamp)] in
  let h1 := match session_token with
            | Some tok => if Py.truthy_str tok
                          then Dict.set h0 "x-amz-security-token" tok else h0
            | None => h0
            end in
  if signs_content method payload
  then Dict.set h1 "x-amz-content-sha256" (sha256_hex payload)
  else h1.

(** Lines 38-40: the payload hash of the canonical request. *)
Definition payload_hash (method payload : string) : string :=
  if signs_content method payload then sha256_hex payload else sha256_hex "".

(** Line 44, before the join. *)
Definition signed_header_names (h : Dict.t) : list string :=
  Str.sorted String.leb (map Str.lower (Dict.keys h)).

Definition signed_headers (h : Dict.t) : string :=
  Str.join ";" (signed_header_names h).

(** Lines 45-48. *)
Definition canonical_headers (h : Dict.t) : string :=
  Str.join ""
    (map (fun kv => Str.lower (fst kv) ++ ":" ++ Str.strip (snd kv) ++ Str.newline)%string
       (Str.sorted (fun a b => String.leb (Str.lower (fst a)) (Str.lower (fst b))) h)).

(** Lines 50-59. *)
Definition canonical_request (method url timestamp : string)
    (session_token : option string) (payload : string) : string :=
  let h := headers_to_sign method timestamp session_token payload in
  Str.join Str.newline
    [Str.upper method; pathname url; canonical_query url;
     canonical_headers h; signed_headers h; payload_hash method payload].

(** Line 61. *)
Definition scope (timestamp : string) : string :=
  (Str.take 8 timestamp ++ "/" ++ region ++ "/" ++ service ++ "/aws4_request")%string.

(** Lines 62-69. *)
Definition string_to_sign (method url timestamp : string)
    (session_token : option string) (payload : string) : string :=
  Str.join Str.newline
    ["AWS4-HMAC-SHA256"; timestamp; scope timestamp;
     sha256_hex (canonical_request method url timestamp session_token payload)].

(** Lines 71-75. *)
Definition signature (method url timestamp secret_access_key : string)
    (session_token : option string) (payload : string) : string :=
  let date := Str.take 8 timestamp in
  let k_date := _sign ("AWS4" ++ secret_access_key)%string date in
  let k_region := _sign k_date region in
  let k_service := _sign k_region service in
  let k_signing := _sign k_service "aws4_request" in
  Str.hexlify
    (hmac_sha256 lib k_signing
       (string_to_sign method url timestamp session_token payload)).

(** [create_signature].  [headers["x-amz-date"]] raises [KeyError] when the
    header is absent. *)
Definition create_signature (method url : string) (headers : Dict.t)
    (access_key_id secret_access_key : string)
    (session_token : option string) (payload : string) : Outcome string :=
  match Dict.get headers "x-amz-date" with
  | None => Raise (PythonError "KeyError")
  | Some timestamp =>
      let h := headers_to_sign method timestamp session_token payload in
      Return ("AWS4-HMAC-SHA256 Credential=" ++ access_key_id ++ "/" ++
              scope timestamp ++ ", SignedHeaders=" ++ signed_headers h ++
              ", Signature=" ++
              signature method url timestamp secret_access_key session_token
                payload)%string
  end.

End Signer.

(** ** A concrete library and sample inputs *)

(** The text before the first [c], and the text after it (empty when [c]
    does not occur). *)
Fixpoint before_char (c : ascii) (s : string) : string :=
  match s with
  | EmptyString => EmptyString
  | String x rest => if Ascii.eqb x c then EmptyString else String x (before_char c rest)
  end.

Fixpoint after_char (c : ascii) (s : string) : string :=
  match s with
  | EmptyString => EmptyString
  | String x rest => if Ascii.eqb x c then rest else after_char c rest
  end.

(** [s.split(c)], for a non-empty [s]. *)
Fixpoint split_char (c : ascii) (s : string) : list string :=
  match s with
  | EmptyString => [EmptyString]
  | String x rest =>
      if Ascii.eqb x c then EmptyString :: split_char c rest
      else match split_char c rest with
           | [] => [String x EmptyString]
           | first :: more => String x first :: more
           end
  end.

(** A reading of [urlsplit] and [parse_qsl] for URLs of the shape
    [scheme://host/path?k=v&k=v], without fragment and escapes. *)
Definition simple_path (url : string) : string :=
  let after_scheme := after_char "/" (after_char "/" url) in
  let tail := before_char "?" after_scheme in
  match after_char "/" (tail ++ "/") with
  | EmptyString => EmptyString
  | _ => ("/" ++ after_char "/" tail)%string
  end.

Definition simple_query (url : string) : string := after_char "?" url.

Definition simple_parse_qsl (query : string) : list (string * string) :=
  match query with
  | EmptyString => []
  | _ => map (fun kv => (before_char "=" kv, after_char "=" kv))
           (split_char "&" query)
  end.

Definition python_stdlib : Stdlib :=
  {| sha256 := Sha256.digest;
     hmac_sha256 := Sha256.hmac;
     urlsplit_path := simple_path;
     urlsplit_query := simple_query;
     parse_qsl := simple_parse_qsl |}.

Definition sample_apply_url : string :=
  "https://imagex.bytedanceapi.com/?Action=ApplyImageUpload&Version=2018-08-01&ServiceId=svc1&FileSize=5&s=abcdefghij".

Definition sample_commit_url : string :=
  "https://imagex.bytedanceapi.com/?Action=CommitImageUpload&Version=2018-08-01&ServiceId=svc1".

Definition sample_headers : Dict.t :=
  [("x-amz-date", "20240102T030405Z"); ("x-amz-security-token", "STS2token")].

End AwsSignature.

(* ================================================================== *)
(** * Texts of decoded values                                           *)
(* ================================================================== *)

Module JsonText.
Import Errors.

(** [str(n)] for an integer. *)
Definition decimal (n : Z) : string := NilZero.string_of_int (Z.to_int n).

(** [repr(v)]; a text is quoted as it stands (texts with quotes,
    backslashes or control characters do not occur in the tickets). *)
Fixpoint repr (v : Json.value) : string :=
  match v with
  | Json.Null => "None"
  | Json.Bool b => if b then "True" else "False"
  | Json.Int n => decimal n
  | Json.Str s => "'" ++ s ++ "'"
  | Json.Arr items => "[" ++ Str.join ", " (map repr items) ++ "]"
  | Json.Obj fields =>
      "{" ++ Str.join ", "
               (map (fun '(k, x) => "'" ++ k ++ "': " ++ repr x) fields) ++ "}"
  end%string.

(** [str(v)], as an f-string formats a value. *)
Definition str (v : Json.value) : string :=
  match v with
  | Json.Str s => s
  | _ => repr v
  end.

(** The escapes of [json.dumps] for the characters of a text. *)
Definition escape_char (c : ascii) : string :=
  let n := nat_of_ascii c in
  if (n =? 34)%nat then Str.backslash ++ Str.dquote
  else if (n =? 92)%nat then Str.backslash ++ Str.backslash
  else if (n =? 10)%nat then Str.backslash ++ "n"
  else if (n =? 13)%nat then Str.backslash ++ "r"
  else if (n =? 9)%nat then Str.backslash ++ "t"
  else if (n =? 8)%nat then Str.backslash ++ "b"
  else if (n =? 12)%nat then Str.backslash ++ "f"
  else if (n <? 32)%nat then
    Str.backslash ++ "u00" ++
    String (Str.hex_digit (n / 16)) (String (Str.hex_digit (n mod 16)) "")
  else String c "".

Fixpoint escape (s : string) : string :=
  match s with
  | EmptyString => EmptyString
  | String c rest => (escape_char c ++ escape rest)%string
  end.

(** [json.dumps(v)] with the default separators. *)
Fixpoint dumps (v : Json.value) : string :=
  match v with
  | Json.Null => "null"
  | Json.Bool b => if b then "true" else "false"
  | Json.Int n => decimal n
  | Json.Str s => Str.dquote ++ escape s ++ Str.dquote
  | Json.Arr items => "[" ++ Str.join ", " (map dumps items) ++ "]"
  | Json.Obj fields =>
      "{" ++ Str.join ", "
               (map (fun '(k, x) =>
                       Str.dquote ++ escape k ++ Str.dquote ++ ": " ++ dumps x)
                  fields) ++ "}"
  end%string.

(** [v.get(key)] on whatever was decoded: only a [dict] has [get]. *)
Definition get (v : Json.value) (key : string) : Outcome Json.value :=
  match v with
  | Json.Obj fields => Return (Json.get fields key)
  | _ => Raise (PythonError "AttributeError")
  end.

(** [v.get(key, default)]. *)
Definition get_default (v : Json.value) (key : string) (default : Json.value)
    : Outcome Json.value :=
  match v with
  | Json.Obj fields =>
      Return match Json.lookup key fields with
             | Some x => x
             | None => default
             end
  | _ => Raise (PythonError "AttributeError")
  end.

(** [v[key]] for a text key. *)
Definition item (v : Json.value) (key : string) : Outcome Json.value :=
  match v with
  | Json.Obj fields =>
      match Json.lookup key fields with
      | Some x => Return x
      | None => Raise (PythonError "KeyError")
      end
  | _ => Raise (PythonError "TypeError")
  end.

(** [v[0]]. *)
Definition first (v : Json.value) : Outcome Json.value :=
  match v with
  | Json.Arr (x :: _) => Return x
  | Json.Arr [] => Raise (PythonError "IndexError")
  | Json.Str (String c _) => Return (Json.Str (String c ""))
  | Json.Str EmptyString => Raise (PythonError "IndexError")
  | Json.Obj _ => Raise (PythonError "KeyError")
  | _ => Raise (PythonError "TypeError")
  end.

(** [a != b] between decoded values, for the scalars compared here. *)
Definition is_int (v : Json.value) (n : Z) : bool :=
  match v with
  | Json.Int m => m =? n
  | _ => false
  end.

End JsonText.

(* ================================================================== *)
(** * The network as a script                                           *)
(* ================================================================== *)

Module Net.
Import Errors Core.

Inductive Body : Type :=
| NoBody
| Data (bytes : string)          (* [data=...] *)
| JsonBody (v : Json.value).     (* [json=...] *)

(** Who sends: [core.request] (with its retries), or [requests.get]/[post]
    called directly. *)
Inductive Via : Type := Gateway | Direct.

(** One HTTP call as it leaves the process. *)
Record Call : Type := mkCall {
  via : Via;
  call_method : string;
  call_url : string;
  call_headers : Dict.t;
  call_body : Body
}.

(** What the world will answer: the replies to the successive HTTP calls,
    the successive readings of [_aws_timestamp()], the successive results of
    [_random_string()], and the successive readings of
    [time.time() - start] in the polling loop. *)
Record World : Type := mkWorld {
  replies : list Attempt;
  clock : list string;
  nonces : list string;
  ticks : list Q
}.

(** A computation that talks to the world: its outcome, the world it
    leaves, and the calls it sent, oldest first. *)
Definition M (A : Type) : Type := World -> Outcome A * World * list Call.

Definition ret {A : Type} (a : A) : M A := fun w => (Return a, w, []).

Definition raise {A : Type} (e : Exception) : M A := fun w => (Raise e, w, []).

Definition lift {A : Type} (o : Outcome A) : M A := fun w => (o, w, []).

Definition bind {A B : Type} (m : M A) (k : A -> M B) : M B :=
  fun w =>
    match m w with
    | (Return a, w1, sent1) =>
        match k a w1 with
        | (o, w2, sent2) => (o, w2, (sent1 ++ sent2)%list)
        end
    | (Raise e, w1, sent1) => (Raise e, w1, sent1)
    | (Starved, w1, sent1) => (Starved, w1, sent1)
    end.

Definition with_replies (w : World) (rest : list Attempt) : World :=
  {| replies := rest; clock := clock w; nonces := nonces w; ticks := ticks w |}.

(** [requests.get] / [requests.post]: one call, no retry. *)
Definition send (c : Call) : M Response :=
  fun w =>
    match replies w with
    | [] => (Starved, w, [])
    | Fails exc :: rest => (Raise (RequestException exc), with_replies w rest, [c])
    | Replies resp :: rest => (Return resp, with_replies w rest, [c])
    end.

(** [core.request(...)] of a call that is not streaming: the retry loop runs
    on the replies and every attempt sends the same call. *)
Definition gateway (RETRY_CONFIG : RetryConfig) (c : Call) : M Json.value :=
  fun w =>
    let r := request RETRY_CONFIG false (replies w) in
    let sent := repeat c (attempts_made (replies w) r) in
    let o := match outcome r with
             | Return (Payload v) => Return v
             | Return (Raw _) => Starved     (* not for [stream=False] *)
             | Raise e => Raise e
             | Starved => Starved
             end in
    (o, with_replies w (unread r), sent).

(** [_aws_timestamp()]. *)
Definition aws_timestamp : M string :=
  fun w =>
    match clock w with
    | [] => (Starved, w, [])
    | t :: rest =>
        (Return t, {| replies := replies w; clock := rest; nonces := nonces w;
                      ticks := ticks w |}, [])
    end.

(** [_random_string()]. *)
Definition random_string : M string :=
  fun w =>
    match nonces w with
    | [] => (Starved, w, [])
    | s :: rest =>
        (Return s, {| replies := replies w; clock := clock w; nonces := rest;
                      ticks := ticks w |}, [])
    end.

(** [resp.raise_for_status()]. *)
Definition check_status (resp : Response) : M unit :=
  match raise_for_status resp with
  | Some e => raise e
  | None => ret tt
  end.

(** [resp.json()]. *)
Definition decoded (resp : Response) : M Json.value :=
  match json resp with
  | Some v => ret v
  | None => raise (PythonError "JSONDecodeError")
  end.

(** The parts of a finished computation. *)
Definition outcome_of {A : Type} (r : Outcome A * World * list Call) : Outcome A :=
  fst (fst r).
Definition sent_of {A : Type} (r : Outcome A * World * list Call) : list Call :=
  snd r.

End Net.

Declare Scope net_scope.
Delimit Scope net_scope with net.
Notation "x <- m ;; k" := (Net.bind m (fun x => k))
  (at level 61, m at next level, right associativity) : net_scope.
Notation "m ;;; k" := (Net.bind m (fun _ => k))
  (at level 61, right associativity) : net_scope.

(* ================================================================== *)
(** * images.py: the upload                                             *)
(* ================================================================== *)

Module Images.
Import Errors Core Net.
Local Open Scope net_scope.

(** What [images.py] reads from [constants.py], which supplies the values. *)
Record Constants : Type := mkConstants {
  RETRY_CONFIG : RetryConfig;
  BASE_URL_CN : string;
  BASE_URL_DREAMINA_US : string;
  BASE_URL_IMAGEX_US : string;
  DEFAULT_ASSISTANT_ID_CN : Z;
  DEFAULT_ASSISTANT_ID_US : Z;
  DEFAULT_IMAGE_MODEL : string;
  IMAGE_MODEL_MAP : Dict.t;
  IMAGE_MODEL_MAP_US : Dict.t;
  (* resolution -> ratio -> config *)
  RESOLUTION_OPTIONS : list (string * list (string * Json.value));
  DRAFT_VERSION : string;
  DRAFT_MIN_VERSION : string
}.

Definition FAKE_UA : string :=
  "Mozilla/5.0 (Windows NT 10.0; Win64; x64) AppleWebKit/537.36 (KHTML, like Gecko) Chrome/132.0.0.0 Safari/537.36".

(** The digits of [n] in lowercase hexadecimal, least significant first. *)
Fixpoint hex_digits_rev (fuel : nat) (n : Z) : list ascii :=
  match fuel with
  | O => []
  | S fuel' =>
      if n <? 16 then [Str.hex_digit (Z.to_nat n)]
      else Str.hex_digit (Z.to_nat (n mod 16)) :: hex_digits_rev fuel' (n / 16)
  end.

(** [f"{n:08x}"] for [n >= 0]: the hexadecimal digits, padded with zeros on
    the left to a width of 8. *)
Definition format_08x (n : Z) : string :=
  let digits := rev (hex_digits_rev (S (Z.to_nat (Z.log2 n))) n) in
  string_of_list_ascii
    (repeat "0"%char (8 - List.length digits) ++ digits)%list.

(** [_crc32]. *)
Definition _crc32 (data : string) : string :=
  format_08x (Z.land (Binascii.crc32 data) 0xFFFFFFFF).

(** [f"{len(buffer)}"]. *)
Definition len_text (buffer : string) : string :=
  JsonText.decimal (Z.of_nat (String.length buffer)).

(** A credential that must be a text where the signer uses it: another kind
    of value fails there with the given error. *)
Definition text_or (kind : string) (v : Json.value) : M string :=
  match v with
  | Json.Str s => ret s
  | _ => raise (PythonError kind)
  end.

(** A header value handed to [requests]: a text is sent, [None] drops the
    header, anything else is refused before the call leaves. *)
Definition header_value (v : Json.value) : M (option string) :=
  match v with
  | Json.Str s => ret (Some s)
  | Json.Null => ret None
  | _ => raise (RequestException "InvalidHeader")
  end.

(** The header, unless it was dropped. *)
Definition header_item (name : string) (value : option string) : Dict.t :=
  match value with
  | Some v => [(name, v)]
  | None => []
  end.

Section Upload.

Variable constants : Constants.
Variable lib : AwsSignature.Stdlib.

(** The request to the main API for an upload ticket (lines 88-93). *)
Definition token_call : Call :=
  {| via := Gateway; call_method := "POST";
     call_url := "/mweb/v1/get_upload_token";
     call_headers := [];
     call_body := JsonBody (Json.Obj [("scene", Json.Int 2)]) |}.

(** The locals of [_upload_buffer] that one phase hands to the next. *)
Record Ticket : Type := mkTicket {
  access_key_id : Json.value;
  secret_access_key : Json.value;
  session_token : Json.value;
  service_id : Json.value
}.

Record Applied : Type := mkApplied {
  token_text : string;        (* [session_token], a text *)
  secret_text : string;       (* [secret_access_key], a text *)
  apply_host : string;
  upload_address : Json.value;
  store_info : Json.value;
  upload_url : string
}.

(** Lines 88-101: the ticket, with its three credentials present. *)
Definition fetch_ticket : M Ticket :=
  token_info <- gateway (RETRY_CONFIG constants) token_call ;;
  access_key_id <- lift (JsonText.get token_info "access_key_id") ;;
  secret_access_key <- lift (JsonText.get token_info "secret_access_key") ;;
  session_token <- lift (JsonText.get token_info "session_token") ;;
  service_id1 <- lift (JsonText.get token_info "service_id") ;;
  service_id <- (if Json.truthy service_id1 then ret service_id1
                 else lift (JsonText.get token_info "space_name")) ;;
  if negb (Json.truthy access_key_id) || negb (Json.truthy secret_access_key)
     || negb (Json.truthy session_token)
  then raise (JimengAPIError (Text "获取上传令牌失败") None)
  else ret {| access_key_id := access_key_id;
              secret_access_key := secret_access_key;
              session_token := session_token;
              service_id := service_id |}.

(** The signed GET of the apply phase. *)
Definition apply_call (apply_url authorization origin timestamp token : string)
    : Call :=
  {| via := Direct; call_method := "GET"; call_url := apply_url;
     call_headers :=
       [("accept", "*/*"); ("authorization", authorization);
        ("origin", origin);
        ("referer", (origin ++ "/ai-tool/generate")%string);
        ("user-agent", FAKE_UA); ("x-amz-date", timestamp);
        ("x-amz-security-token", token)];
     call_body := NoBody |}.

(** Lines 103-144: apply for an upload address. *)
Definition apply_upload (buffer : string) (is_us : bool) (t : Ticket)
    : M Applied :=
  let apply_host := if is_us then BASE_URL_IMAGEX_US constants
                    else "https://imagex.bytedanceapi.com" in
  timestamp <- aws_timestamp ;;
  nonce <- random_string ;;
  let params :=
    ("?Action=ApplyImageUpload&Version=2018-08-01" ++
     "&ServiceId=" ++ JsonText.str (service_id t) ++
     "&FileSize=" ++ len_text buffer ++ "&s=" ++ nonce ++
     (if is_us then "&device_platform=web" else ""))%string in
  let apply_url := (apply_host ++ "/" ++ params)%string in
  (* the signer strips the token and prefixes the secret: both must be texts *)
  token_text <- text_or "AttributeError" (session_token t) ;;
  secret_text <- text_or "TypeError" (secret_access_key t) ;;
  let headers_for_sig : Dict.t :=
    [("x-amz-date", timestamp); ("x-amz-security-token", token_text)] in
  authorization <-
    lift (AwsSignature.create_signature lib "GET" apply_url headers_for_sig
            (JsonText.str (access_key_id t)) secret_text (Some token_text) "") ;;
  let origin := if is_us then BASE_URL_DREAMINA_US constants
                else BASE_URL_CN constants in
  apply_resp <- send (apply_call apply_url authorization origin timestamp token_text) ;;
  check_status apply_resp ;;;
  apply_data <- decoded apply_resp ;;
  result0 <- lift (JsonText.get_default apply_data "Result" (Json.Obj [])) ;;
  upload_address <- lift (JsonText.get result0 "UploadAddress") ;;
  if negb (Json.truthy upload_address)
  then raise (JimengAPIError (TextWith "申请上传失败: " apply_data) None)
  else
  store_infos <- lift (JsonText.item upload_address "StoreInfos") ;;
  store_info <- lift (JsonText.first store_infos) ;;
  upload_hosts <- lift (JsonText.item upload_address "UploadHosts") ;;
  upload_host <- lift (JsonText.first upload_hosts) ;;
  store_uri <- lift (JsonText.item store_info "StoreUri") ;;
  ret {| token_text := token_text; secret_text := secret_text;
         apply_host := apply_host;
         upload_address := upload_address; store_info := store_info;
         upload_url := ("https://" ++ JsonText.str upload_host ++ "/upload/v1/" ++
                        JsonText.str store_uri)%string |}.

(** The binary PUT (sent with [requests.post]). *)
Definition put_call (buffer upload_url : string) (auth : option string)
    (crc : string) : Call :=
  {| via := Direct; call_method := "POST"; call_url := upload_url;
     call_headers :=
       (header_item "Authorization" auth ++
        [("Content-CRC32", crc);
         ("Content-Disposition",
          ("attachment; filename=" ++ Str.dquote ++ "upload.bin" ++ Str.dquote)%string);
         ("Content-Type", "application/octet-stream");
         ("User-Agent", FAKE_UA)])%list;
     call_body := Data buffer |}.

(** Lines 146-160: transfer the bytes with their checksum. *)
Definition put_bytes (buffer : string) (a : Applied) : M unit :=
  let crc := _crc32 buffer in
  auth <- lift (JsonText.item (store_info a) "Auth") ;;
  auth_text <- header_value auth ;;
  upload_resp <- send (put_call buffer (upload_url a) auth_text crc) ;;
  check_status upload_resp.

(** Line 163. *)
Definition commit_payload_of (session_key : Json.value) : string :=
  JsonText.dumps (Json.Obj [("SessionKey", session_key)]).

(** The signed POST of the commit phase. *)
Definition commit_call
    (commit_url commit_authorization commit_timestamp token payload_hash
       commit_payload : string) : Call :=
  {| via := Direct; call_method := "POST"; call_url := commit_url;
     call_headers :=
       [("authorization", commit_authorization);
        ("content-type", "application/json"); ("user-agent", FAKE_UA);
        ("x-amz-date", commit_timestamp); ("x-amz-security-token", token);
        ("x-amz-content-sha256", payload_hash)];
     call_body := Data commit_payload |}.

(** Lines 162-205: commit the session and read the status of the file. *)
Definition commit_upload (t : Ticket) (a : Applied) : M Json.value :=
  let commit_url :=
    (apply_host a ++ "/?Action=CommitImageUpload&Version=2018-08-01&ServiceId=" ++
     JsonText.str (service_id t))%string in
  session_key <- lift (JsonText.item (upload_address a) "SessionKey") ;;
  let commit_payload := commit_payload_of session_key in
  commit_timestamp <- aws_timestamp ;;
  let payload_hash := AwsSignature.sha256_hex lib commit_payload in
  let commit_headers_for_sig : Dict.t :=
    [("x-amz-date", commit_timestamp); ("x-amz-security-token", token_text a);
     ("x-amz-content-sha256", payload_hash)] in
  commit_authorization <-
    lift (AwsSignature.create_signature lib "POST" commit_url
            commit_headers_for_sig (JsonText.str (access_key_id t))
            (secret_text a) (Some (token_text a)) commit_payload) ;;
  commit_resp <-
    send (commit_call commit_url commit_authorization commit_timestamp
            (token_text a) payload_hash commit_payload) ;;
  check_status commit_resp ;;;
  commit_data <- decoded commit_resp ;;
  result1 <- lift (JsonText.get_default commit_data "Result" (Json.Obj [])) ;;
  results <- lift (JsonText.get_default result1 "Results" (Json.Arr [])) ;;
  if negb (Json.truthy results)
  then raise (JimengAPIError (TextWith "提交上传失败: " commit_data) None)
  else
  result <- lift (JsonText.first results) ;;
  uri_status <- lift (JsonText.get result "UriStatus") ;;
  if negb (JsonText.is_int uri_status 2000)
  then raise (JimengAPIError (TextWith "上传状态异常: " result) None)
  else lift (JsonText.item result "Uri").

(** [_upload_buffer]: the three phases in order, each required. *)
Definition _upload_buffer (buffer : string) (refresh_token : string)
    (is_us : bool) : M Json.value :=
  t <- fetch_ticket ;;
  a <- apply_upload buffer is_us t ;;
  put_bytes buffer a ;;;
  commit_upload t a.

End Upload.

(** ** A sample run *)

Definition sample_constants : Constants :=
  {| RETRY_CONFIG := sample_retry_config;
     BASE_URL_CN := "https://jimeng.jianying.com";
     BASE_URL_DREAMINA_US := "https://dreamina-api.us.capcut.com";
     BASE_URL_IMAGEX_US := "https://imagex16-normal-us-ttp.capcutapi.us";
     DEFAULT_ASSISTANT_ID_CN := 513695;
     DEFAULT_ASSISTANT_ID_US := 513641;
     DEFAULT_IMAGE_MODEL := "jimeng-4.0";
     IMAGE_MODEL_MAP := [("jimeng-4.0", "high_aes_general_v40")];
     IMAGE_MODEL_MAP_US := [("jimeng-4.0", "high_aes_general_v40")];
     RESOLUTION_OPTIONS :=
       [("2k", [("1:1", Json.Obj [("width", Json.Int 2048);
                                  ("height", Json.Int 2048);
                                  ("ratio", Json.Int 1)])])];
     DRAFT_VERSION := "3.3.2";
     DRAFT_MIN_VERSION := "3.0.2" |}.

Definition sample_ticket_reply : Attempt :=
  reply_with 200
    (Json.Obj [("ret", Json.Str "0");
               ("data", Json.Obj [("access_key_id", Json.Str "AKTEST");
                                  ("secret_access_key", Json.Str "secretKEY");
                                  ("session_token", Json.Str "STS2token");
                                  ("service_id", Json.Str "svc1")])]).


Definition sample_apply_reply : Attempt :=
  reply_with 200
    (Json.Obj
       [("Result",
         Json.Obj
           [("UploadAddress",
             Json.Obj
               [("StoreInfos",
                 Json.Arr [Json.Obj [("StoreUri", Json.Str "tos-cn-i-x/abc");
                                     ("Auth", Json.Str "SpaceKey/x/1/:v:sig")]]);
                ("UploadHosts", Json.Arr [Json.Str "tos-up.example.com"]);
                ("SessionKey", Json.Str "sk-1")])])]).

Definition commit_reply (uri_status : Z) : Attempt :=
  reply_with 200
    (Json.Obj
       [("Result",
         Json.Obj
           [("Results",
             Json.Arr [Json.Obj [("Uri", Json.Str "tos-cn-i-x/abc");
                                 ("UriStatus", Json.Int uri_status)]])])]).

(** The world of one upload: the replies to the ticket request, to the
    apply call, to the PUT (with the given status) and to the commit. *)
Definition upload_world (ticket : Attempt) (put_status commit_status : Z) : World :=
  {| replies := [ticket; sample_apply_reply; reply_with put_status Json.Null;
                 commit_reply commit_status];
     clock := ["20240102T030405Z"; "20240102T030406Z"];
     nonces := ["abcdefghij"];
     ticks := [] |}.


(** ** Vocabulary for statements about the calls of an upload *)

Section Calls.

Variable lib : AwsSignature.Stdlib.

(** A call that carries [Content-CRC32] carries the checksum of [buffer],
    and [buffer] is its body. *)
Definition crc_header_ok (buffer : string) (c : Call) : Prop :=
  forall v, Dict.get (call_headers c) "Content-CRC32" = Some v ->
    v = _crc32 buffer /\ call_body c = Data buffer.

(** A call that carries [x-amz-content-sha256] carries the SHA-256 hex
    digest of its own body, and its [authorization] header is the signature
    made for that body, with the header among the signed ones. *)
Definition content_hash_header_ok (c : Call) : Prop :=
  forall h, Dict.get (call_headers c) "x-amz-content-sha256" = Some h ->
    exists payload,
      call_body c = Data payload /\
      h = AwsSignature.sha256_hex lib payload /\
      exists ak sk tok ts auth,
        Dict.get (call_headers c) "x-amz-date" = Some ts /\
        Dict.get (call_headers c) "authorization" = Some auth /\
        AwsSignature.create_signature lib (call_method c) (call_url c)
          (call_headers c) ak sk (Some tok) payload = Return auth /\
        In "x-amz-content-sha256"
          (AwsSignature.signed_header_names
             (AwsSignature.headers_to_sign lib (call_method c) ts (Some tok)
                payload)).

End Calls.

(** The value of a lowercase hexadecimal numeral. *)
Definition hex_value (c : ascii) : Z :=
  let n := nat_of_ascii c in
  if (n <? 58)%nat then Z.of_nat (n - 48) else Z.of_nat (n - 87).

(** The value of numerals given least significant first. *)
Fixpoint digits_value (l : list ascii) : Z :=
  match l with
  | [] => 0
  | c :: rest => hex_value c + 16 * digits_value rest
  end.

Fixpoint parse_hex (acc : Z) (s : string) : Z :=
  match s with
  | EmptyString => acc
  | String c rest => parse_hex (16 * acc + hex_value c) rest
  end.

End Images.

(* ================================================================== *)
(** * images.py: image composition                                      *)
(* ================================================================== *)

Module Composition.
Import Errors Core Net Images.
Local Open Scope net_scope.

(** An element of [images]: [bytes], or a [str] that names a URL, a file or
    base64 data. *)
Inductive ImageSource : Type :=
| Raw (bytes : string)
| Ref (source : string).

(** What the function takes from its host: the file system
    ([Path.exists]/[read_bytes]), [base64.b64decode], and the draft that
    lines 413-519 assemble around fresh ids (from the mapped model, the
    prompt, the sample strength, the resolution, the uploaded URIs and the
    region). *)
Record Host : Type := mkHost {
  path_read : string -> option string;
  b64decode : string -> Outcome string;
  blend_draft :
    string -> string -> Q -> Json.value -> list Json.value -> bool -> Json.value
}.

(** [_is_us]. *)
Definition _is_us (refresh_token : string) : bool :=
  Str.startswith (Str.lower refresh_token) "us-".

(** [key in d] for a text key. *)
Definition has_key (d : Dict.t) (key : string) : bool :=
  match Dict.get d key with
  | Some _ => true
  | None => false
  end.

(** [{**config, key: value}]. *)
Fixpoint with_field (fields : list (string * Json.value)) (key : string)
    (v : Json.value) : list (string * Json.value) :=
  match fields with
  | [] => [(key, v)]
  | (k, x) :: rest =>
      if String.eqb k key then (k, v) :: rest else (k, x) :: with_field rest key v
  end.

(** [d.get(key)] for a table of [constants.py]. *)
Fixpoint lookup_in {V : Type} (key : string) (table : list (string * V))
    : option V :=
  match table with
  | [] => None
  | (k, v) :: rest => if String.eqb k key then Some v else lookup_in key rest
  end.

(** [x or []]. *)
Definition or_empty_list (v : Json.value) : Json.value :=
  if Json.truthy v then v else Json.Arr [].

(** [x or {}]. *)
Definition or_empty (v : Json.value) : Json.value :=
  if Json.truthy v then v else Json.Obj [].

(** [len(v)]. *)
Definition len (v : Json.value) : Outcome Z :=
  match v with
  | Json.Arr items => Return (Z.of_nat (List.length items))
  | Json.Obj fields => Return (Z.of_nat (List.length fields))
  | Json.Str s => Return (Z.of_nat (String.length s))
  | _ => Raise (PythonError "TypeError")
  end.

(** [payload.split(",", 1)[1]]. *)
Fixpoint after_comma (s : string) : Outcome string :=
  match s with
  | EmptyString => Raise (PythonError "IndexError")
  | String c rest => if Ascii.eqb c ","%char then Return rest else after_comma rest
  end.

(** [util.normalize_base64]. *)
Definition normalize_base64 (payload : string) : Outcome string :=
  if Str.startswith payload "data:" then after_comma payload else Return payload.

Section Compose.

Variable constants : Constants.
Variable lib : AwsSignature.Stdlib.
Variable POLLING_CONFIG : Poller.PollingConfig.
Variable host : Host.

(** [_map_model]. *)
Definition _map_model (model refresh_token : string) : Outcome string :=
  let mapping := if _is_us refresh_token then IMAGE_MODEL_MAP_US constants
                 else IMAGE_MODEL_MAP constants in
  if _is_us refresh_token && negb (has_key mapping model) then
    Raise (JimengAPIError
             (Text ("国际站不支持模型 " ++ model ++ "，可选: " ++
                    Str.join ", " (Dict.keys mapping))%string) None)
  else
    match Dict.get mapping (DEFAULT_IMAGE_MODEL constants) with
    | None => Raise (PythonError "KeyError")
    | Some default =>
        Return match Dict.get mapping model with
               | Some m => m
               | None => default
               end
    end.

(** [_get_resolution]. *)
Definition _get_resolution (resolution ratio : string) : Outcome Json.value :=
  let unsupported_resolution :=
    JimengAPIError (Text ("不支持的分辨率 " ++ resolution)%string) None in
  let unsupported_ratio :=
    JimengAPIError
      (Text ("在分辨率 " ++ resolution ++ " 下不支持比例 " ++ ratio)%string) None in
  match lookup_in resolution (RESOLUTION_OPTIONS constants) with
  | None | Some [] => Raise unsupported_resolution
  | Some group =>
      let config := match lookup_in ratio group with
                    | Some c => c
                    | None => Json.Null
                    end in
      if negb (Json.truthy config) then Raise unsupported_ratio
      else
        match config with
        | Json.Obj fields =>
            Return (Json.Obj (with_field fields "resolution_type"
                                (Json.Str resolution)))
        | _ => Raise (PythonError "TypeError")
        end
  end.

(** [_upload_image]: exactly one way of reading the source is taken. *)
Definition _upload_image (source : ImageSource) (refresh_token : string)
    (is_us : bool) : M Json.value :=
  buffer <-
    match source with
    | Raw bytes => ret bytes
    | Ref s =>
        if Str.startswith s "http://" || Str.startswith s "https://" then
          resp <- send {| via := Direct; call_method := "GET"; call_url := s;
                          call_headers := []; call_body := NoBody |} ;;
          check_status resp ;;;
          ret (text resp)                       (* [resp.content] *)
        else
          match path_read host s with
          | Some bytes => ret bytes
          | None =>
              payload <- lift (normalize_base64 s) ;;
              lift (b64decode host payload)
          end
    end ;;
  _upload_buffer constants lib buffer refresh_token is_us.

(** Lines 408-411: the uploads, one after the other. *)
Fixpoint upload_all (images : list ImageSource) (refresh_token : string)
    (is_us : bool) : M (list Json.value) :=
  match images with
  | [] => ret []
  | image :: rest =>
      uri <- _upload_image image refresh_token is_us ;;
      uris <- upload_all rest refresh_token is_us ;;
      ret (uri :: uris)
  end.

(** The URL of one item, lines 232-238. *)
Definition item_url (item : Json.value) : Outcome Json.value :=
  (image <~ JsonText.get item "image" ;;
   large <~ JsonText.get_default (or_empty image) "large_images"
              (Json.Arr [Json.Obj []]) ;;
   head <~ JsonText.first large ;;
   url1 <~ JsonText.get head "image_url" ;;
   if Json.truthy url1 then Return url1 else
   attr <~ JsonText.get item "common_attr" ;;
   url2 <~ JsonText.get (or_empty attr) "cover_url" ;;
   if Json.truthy url2 then Return url2 else
   url3 <~ JsonText.get item "image_url" ;;
   if Json.truthy url3 then Return url3 else JsonText.get item "url")%outcome.

(** [_extract_urls] on the items of a list. *)
Fixpoint extract_from (items : list Json.value) : Outcome (list Json.value) :=
  match items with
  | [] => Return []
  | item :: rest =>
      (url <~ item_url item ;;
       urls <~ extract_from rest ;;
       Return (if Json.truthy url then url :: urls else urls))%outcome
  end.

(** [_extract_urls(info.get("item_list") or [])]. *)
Definition _extract_urls (items : Json.value) : Outcome (list Json.value) :=
  match or_empty_list items with
  | Json.Arr l => extract_from l
  | Json.Str _ | Json.Obj _ => Raise (PythonError "AttributeError")
  | _ => Raise (PythonError "TypeError")
  end.

(** The request of [_poll_history] (lines 245-249); the image info sent
    along is a constant table. *)
Definition history_call (history_id : Json.value) : Call :=
  {| via := Gateway; call_method := "POST";
     call_url := "/mweb/v1/get_history_by_ids";
     call_headers := [];
     call_body :=
       JsonBody (Json.Obj [("history_ids", Json.Arr [history_id])]) |}.

(** The fields of [PollingStatus] as read from the record. *)
Definition status_code_of (v : Json.value) : Z :=
  match v with
  | Json.Int n => n
  | _ => 0      (* no integer: equal to none of the codes the poller tests *)
  end.

Definition fail_code_of (v : Json.value) : option string :=
  match v with
  | Json.Null => None
  | _ => Some (JsonText.str v)
  end.

Definition finish_time_of (v : Json.value) : option Z :=
  match v with
  | Json.Int n => Some n
  | _ => None
  end.

(** [history_id in history] and [history[history_id]] for a history that
    is a [dict]: its keys are texts, so only a text finds a record; a list
    or a dict is not hashable. *)
Definition find_record (history_id : Json.value)
    (records : list (string * Json.value)) : Outcome (option Json.value) :=
  match history_id with
  | Json.Str h => Return (Json.lookup h records)
  | Json.Arr _ | Json.Obj _ => Raise (PythonError "TypeError")
  | _ => Return None
  end.

(** [_poll_history].  The history is read as the [dict] that the endpoint
    returns, keyed by history id. *)
Definition _poll_history (history_id : Json.value) (refresh_token : string)
    : M (Poller.PollingStatus * Json.value) :=
  history <- gateway (RETRY_CONFIG constants) (history_call history_id) ;;
  match history with
  | Json.Obj records =>
      found <- lift (find_record history_id records) ;;
      match found with
      | None => raise (JimengAPIError (Text "记录不存在") None)
      | Some info =>
          status <- lift (JsonText.get info "status") ;;
          fail_code <- lift (JsonText.get info "fail_code") ;;
          item_list <- lift (JsonText.get info "item_list") ;;
          item_count <- lift (len (or_empty_list item_list)) ;;
          task <- lift (JsonText.get info "task") ;;
          finish_time <- lift (JsonText.get (or_empty task) "finish_time") ;;
          ret ({| Poller.status := status_code_of status;
                  Poller.fail_code := fail_code_of fail_code;
                  Poller.item_count := item_count;
                  Poller.finish_time := finish_time_of finish_time;
                  Poller.history_id := Some (JsonText.str history_id) |}, info)
      end
  | _ => raise (PythonError "TypeError")
  end.

(** [time.time() - start], read after a fetch. *)
Definition tick : M Q :=
  fun w =>
    match ticks w with
    | [] => (Starved, w, [])
    | t :: rest =>
        (Return t, {| replies := replies w; clock := clock w; nonces := nonces w;
                      ticks := rest |}, [])
    end.

(** [SmartPoller.poll] against the world: every iteration fetches, reads
    the clock and runs the body of the loop ([Poller.poll_loop] on that one
    round).  An iteration uses up one clock reading, which bounds the
    iterations a world can serve. *)
Fixpoint poll_rounds {T : Type} (fuel : nat) (self : Poller.SmartPoller)
    (poll_fn : M (Poller.PollingStatus * T)) (st : Poller.LoopState)
    : M (Poller.PollingResult * T) :=
  match fuel with
  | O => fun w => (Starved, w, [])
  | S fuel' =>
      fetched <- poll_fn ;;
      elapsed <- tick ;;
      match Poller.poll_loop self st
              [Poller.mkRound (fst fetched) (snd fetched) elapsed] with
      | Poller.Returned result data => ret (result, data)
      | Poller.RaisedPollingTimeout e s i => raise (JimengPollingTimeout e s i)
      | Poller.StillPolling st' => poll_rounds fuel' self poll_fn st'
      end
  end.

Definition poll {T : Type} (self : Poller.SmartPoller)
    (poll_fn : M (Poller.PollingStatus * T)) : M (Poller.PollingResult * T) :=
  fun w => poll_rounds (S (List.length (ticks w))) self poll_fn
             Poller.initial_state w.

(** The submission (lines 521-526). *)
Definition submit_call (payload : Json.value) : Call :=
  {| via := Gateway; call_method := "POST";
     call_url := "/mweb/v1/aigc_draft/generate";
     call_headers := [];
     call_body := JsonBody payload |}.

(** [generate_image_composition]. *)
Definition generate_image_composition (model prompt : string)
    (images : list ImageSource) (refresh_token ratio resolution : string)
    (sample_strength : Q) : M (list Json.value) :=
  match images with
  | [] => raise (JimengAPIError (Text "至少需要提供1张图片") None)
  | _ :: _ =>
  if (10 <? List.length images)%nat
  then raise (JimengAPIError (Text "最多支持10张图片") None)
  else
  let is_us := _is_us refresh_token in
  mapped_model <- lift (_map_model model refresh_token) ;;
  res <- lift (_get_resolution resolution ratio) ;;
  uploaded <- upload_all images refresh_token is_us ;;
  result <- gateway (RETRY_CONFIG constants)
              (submit_call (blend_draft host mapped_model prompt sample_strength
                              res uploaded is_us)) ;;
  aigc_data <- lift (JsonText.get result "aigc_data") ;;
  history_id <- lift (JsonText.get (or_empty aigc_data) "history_record_id") ;;
  if negb (Json.truthy history_id)
  then raise (JimengAPIError (Text "记录ID不存在") None)
  else
  let poller := Poller.SmartPoller_init POLLING_CONFIG None None None None 1 "image" in
  polled <- poll poller (_poll_history history_id refresh_token) ;;
  let info := snd polled in
  item_list <- lift (JsonText.get info "item_list") ;;
  urls <- lift (_extract_urls item_list) ;;
  match urls with
  | [] => raise (JimengAPIError (Text "图生图未生成图片") None)
  | _ => ret urls
  end
  end.

End Compose.

(** ** A sample composition *)

Definition sample_host : Host :=
  {| path_read := fun _ => None;
     b64decode := fun s => Return s;
     blend_draft := fun model prompt _ res uploaded _ =>
       Json.Obj [("model", Json.Str model);
                 ("prompt", Json.Str ("##" ++ prompt));
                 ("large_image_info", res);
                 ("image_uri_list", Json.Arr uploaded)] |}.

Definition submit_reply : Attempt :=
  reply_with 200
    (Json.Obj [("ret", Json.Str "0");
               ("data", Json.Obj [("aigc_data",
                                   Json.Obj [("history_record_id", Json.Str "h1")])])]).

Definition history_reply (status : Z) (items : list Json.value) : Attempt :=
  reply_with 200
    (Json.Obj [("ret", Json.Str "0");
               ("data", Json.Obj [("h1", Json.Obj [("status", Json.Int status);
                                                   ("item_list", Json.Arr items)])])]).

Definition sample_item : Json.value :=
  Json.Obj [("image",
             Json.Obj [("large_images",
                        Json.Arr [Json.Obj [("image_url",
                                             Json.Str "https://cdn.example.com/1.webp")]])])].

(** The world of a composition from one image: the upload, the submission,
    one in-progress round and the round that reports the result. *)
Definition composition_world : World :=
  {| replies := [sample_ticket_reply; sample_apply_reply;
                 reply_with 200 Json.Null; commit_reply 2000;
                 submit_reply; history_reply 20 []; history_reply 50 [sample_item]];
     clock := ["20240102T030405Z"; "20240102T030406Z"];
     nonces := ["abcdefghij"];
     ticks := [1%Q; 7%Q] |}.

Definition compose_sample (images : list ImageSource) : M (list Json.value) :=
  generate_image_composition sample_constants AwsSignature.python_stdlib
    Poller.sample_config sample_host "jimeng-4.0" "more neon" images "tok"
    "1:1" "2k" (1 # 2).

End Composition.

(* ================================================================== *)
(** * service.py: the session pool                                      *)
(* ================================================================== *)

Module Service.
Import Errors.

(** An argument of type [Optional[Union[str, Sequence[str]]]]. *)
Inductive SessionArg : Type :=
| Absent
| One (token : string)
| Many (tokens : list string).

Record JimengClient : Type := mkJimengClient {
  _session_ids : list string
}.

(** [JimengClient.__init__]. *)
Definition JimengClient_init (session_ids : SessionArg) : JimengClient :=
  match session_ids with
  | Absent => {| _session_ids := [] |}
  | One token => {| _session_ids := [token] |}
  | Many tokens => {| _session_ids := tokens |}
  end.

(** [add_session_id]. *)
Definition add_session_id (self : JimengClient) (session_id : string)
    : JimengClient :=
  if existsb (String.eqb session_id) (_session_ids self) then self
  else {| _session_ids := (_session_ids self ++ [session_id])%list |}.

(** [list.remove]: the first occurrence. *)
Fixpoint remove_first (x : string) (l : list string) : list string :=
  match l with
  | [] => []
  | y :: rest => if String.eqb y x then rest else y :: remove_first x rest
  end.

(** [remove_session_id]. *)
Definition remove_session_id (self : JimengClient) (session_id : string)
    : JimengClient :=
  {| _session_ids := remove_first session_id (_session_ids self) |}.

(** [clear_session_ids]. *)
Definition clear_session_ids (self : JimengClient) : JimengClient :=
  {| _session_ids := [] |}.

(** [bool(override)]. *)
Definition given (override : SessionArg) : bool :=
  match override with
  | Absent => false
  | One token => Py.truthy_str token
  | Many [] => false
  | Many (_ :: _) => true
  end.

(** [[override] if isinstance(override, str) else list(override)]. *)
Definition override_tokens (override : SessionArg) : list string :=
  match override with
  | Absent => []
  | One token => [token]
  | Many tokens => tokens
  end.

(** [random.choice(seq)] for a non-empty [seq]: the element at an index below
    [len(seq)], here the remainder of what the random source drew. *)
Definition choice (draw : nat) (seq : list string) : option string :=
  nth_error seq (draw mod List.length seq).

(** [JimengClient._choose_token]. *)
Definition _choose_token (self : JimengClient) (override : SessionArg)
    (draw : nat) : Outcome string :=
  let tokens := if given override then override_tokens override
                else _session_ids self in
  match tokens with
  | [] => Raise (JimengAPIError (Text "未提供 session_id") None)
  | _ :: _ =>
      match choice draw tokens with
      | Some token => Return token
      | None => Raise (PythonError "IndexError")
      end
  end.

End Service.

(* ================================================================== *)
(** * core.py: tokens, request signature, default parameters, credits   *)
(* ================================================================== *)

Module CoreApi.
Import Errors Core Net.
Local Open Scope net_scope.

(** [s[n:]]. *)
Definition drop (n : nat) (s : string) : string :=
  substring n (String.length s - n) s.

(** [is_us_token]. *)
Definition is_us_token (token : string) : bool :=
  Str.startswith (Str.lower token) "us-".

(** [normalize_token]. *)
Definition normalize_token (token : string) : string :=
  if is_us_token token then drop 3 token else token.

(** [acquire_token]. *)
Definition acquire_token (refresh_token : string) : string := refresh_token.

(** A [Dict[str, Any]] of query parameters: its items in insertion order. *)
Definition Params : Type := list (string * Json.value).

(** [d.setdefault(key, value)]. *)
Definition setdefault (d : Params) (key : string) (value : Json.value) : Params :=
  match Json.lookup key d with
  | Some _ => d
  | None => (d ++ [(key, value)])%list
  end.

(** What these functions read from [constants.py] and from the module
    globals of [core.py] ([WEB_ID] is drawn once at import). *)
Record ApiConstants : Type := mkApiConstants {
  PLATFORM_CODE : Json.value;
  VERSION_CODE : Json.value;
  DEFAULT_ASSISTANT_ID_CN : Json.value;
  DEFAULT_ASSISTANT_ID_US : Json.value;
  REGION_CN : Json.value;
  REGION_US : Json.value;
  DA_VERSION : Json.value;
  WEB_VERSION : Json.value;
  AIGC_FEATURES : Json.value;
  BASE_URL_CN : string;
  BASE_URL_DREAMINA_US : string;
  BASE_URL_US_COMMERCE : string;
  WEB_ID : Z
}.

Section Api.

Variable constants : ApiConstants.

(** [hashlib.md5(text.encode("utf-8")).hexdigest()], taken from the
    library. *)
Variable md5 : string -> string.

(** [uri[-7:] if len(uri) >= 7 else uri]. *)
Definition uri_suffix (uri : string) : string :=
  if (7 <=? String.length uri)%nat then drop (String.length uri - 7) uri
  else uri.

(** [sign_request]. *)
Definition sign_request (uri : string) (device_time : Z) : string :=
  md5 ("9e2c|" ++ uri_suffix uri ++ "|" ++
       JsonText.str (PLATFORM_CODE constants) ++ "|" ++
       JsonText.str (VERSION_CODE constants) ++ "|" ++
       JsonText.decimal device_time ++ "||11ac")%string.

(** [build_default_params]. *)
Definition build_default_params (refresh_token : string)
    (extra_params : option Params) : Params :=
  let params : Params := match extra_params with
                         | Some p => p      (* [dict(extra_params or {})] *)
                         | None => []
                         end in
  if is_us_token refresh_token then
    let params := setdefault params "aid" (DEFAULT_ASSISTANT_ID_US constants) in
    let params := setdefault params "device_platform" (Json.Str "web") in
    let params := setdefault params "region" (REGION_US constants) in
    let params := setdefault params "da_version" (DA_VERSION constants) in
    let params := setdefault params "web_version" (WEB_VERSION constants) in
    let params := setdefault params "web_component_open_flag" (Json.Int 1) in
    setdefault params "aigc_features" (AIGC_FEATURES constants)
  else
    let params := setdefault params "aid" (DEFAULT_ASSISTANT_ID_CN constants) in
    let params := setdefault params "device_platform" (Json.Str "web") in
    let params := setdefault params "region" (REGION_CN constants) in
    let params := setdefault params "webId" (Json.Int (WEB_ID constants)) in
    let params := setdefault params "da_version" (DA_VERSION constants) in
    let params := setdefault params "web_component_open_flag" (Json.Int 1) in
    let params := setdefault params "web_version" (WEB_VERSION constants) in
    setdefault params "aigc_features" (AIGC_FEATURES constants).

(** [choose_base_url]. *)
Definition choose_base_url (refresh_token uri : string) : string :=
  if is_us_token refresh_token then
    if Str.startswith uri "/commerce/" then BASE_URL_US_COMMERCE constants
    else BASE_URL_DREAMINA_US constants
  else BASE_URL_CN constants.

End Api.

(** The names that [build_default_params] fills in. *)
Definition default_keys (refresh_token : string) : list string :=
  if is_us_token refresh_token then
    ["aid"; "device_platform"; "region"; "da_version"; "web_version";
     "web_component_open_flag"; "aigc_features"]
  else
    ["aid"; "device_platform"; "region"; "webId"; "da_version";
     "web_component_open_flag"; "web_version"; "aigc_features"].

(** ** Credits and session liveness *)

(** The numeric value of an [int] or [bool]. *)
Definition number_of (v : Json.value) : option Z :=
  match v with
  | Json.Int n => Some n
  | Json.Bool b => Some (if b then 1 else 0)
  | _ => None
  end.

(** [a + b] between decoded values. *)
Definition py_add (a b : Json.value) : Outcome Json.value :=
  match number_of a, number_of b with
  | Some x, Some y => Return (Json.Int (x + y))
  | _, _ =>
      match a, b with
      | Json.Str x, Json.Str y => Return (Json.Str (x ++ y))
      | Json.Arr x, Json.Arr y => Return (Json.Arr (x ++ y))
      | _, _ => Raise (PythonError "TypeError")
      end
  end.

(** [v <= 0]. *)
Definition py_le_zero (v : Json.value) : Outcome bool :=
  match number_of v with
  | Some x => Return (x <=? 0)
  | None => Raise (PythonError "TypeError")
  end.

Definition credit_call : Call :=
  {| via := Gateway; call_method := "POST";
     call_url := "/commerce/v1/benefits/user_credit";
     call_headers :=
       [("Referer", "https://jimeng.jianying.com/ai-tool/image/generate")];
     call_body := JsonBody (Json.Obj []) |}.

Definition receive_call : Call :=
  {| via := Gateway; call_method := "POST";
     call_url := "/commerce/v1/benefits/credit_receive";
     call_headers :=
       [("Referer", "https://jimeng.jianying.com/ai-tool/image/generate")];
     call_body := JsonBody (Json.Obj [("time_zone", Json.Str "Asia/Shanghai")]) |}.

Definition live_call : Call :=
  {| via := Gateway; call_method := "POST";
     call_url := "/passport/account/info/v2";
     call_headers := [];
     call_body := NoBody |}.

Section Credits.

Variable RETRY_CONFIG : RetryConfig.

(** [get_credit]. *)
Definition get_credit (refresh_token : string) : M Json.value :=
  result <- gateway RETRY_CONFIG credit_call ;;
  credit <- lift (JsonText.item result "credit") ;;
  gift <- lift (JsonText.item credit "gift_credit") ;;
  purchase <- lift (JsonText.item credit "purchase_credit") ;;
  vip <- lift (JsonText.item credit "vip_credit") ;;
  gift' <- lift (JsonText.item credit "gift_credit") ;;
  purchase' <- lift (JsonText.item credit "purchase_credit") ;;
  sum1 <- lift (py_add gift' purchase') ;;
  vip' <- lift (JsonText.item credit "vip_credit") ;;
  total <- lift (py_add sum1 vip') ;;
  ret (Json.Obj [("giftCredit", gift); ("purchaseCredit", purchase);
                 ("vipCredit", vip); ("totalCredit", total)]).

(** [receive_credit]. *)
Definition receive_credit (refresh_token : string) : M Json.value :=
  gateway RETRY_CONFIG receive_call.

(** [get_token_live_status]: a [JimengAPIError] means "not live". *)
Definition get_token_live_status (refresh_token : string) : M bool :=
  fun w =>
    match gateway RETRY_CONFIG live_call w with
    | (Return result, w1, sent) =>
        match JsonText.get result "user_id" with
        | Return user_id => (Return (Json.truthy user_id), w1, sent)
        | Raise e =>
            (if is_JimengAPIError e then Return false else Raise e, w1, sent)
        | Starved => (Starved, w1, sent)
        end
    | (Raise e, w1, sent) =>
        (if is_JimengAPIError e then Return false else Raise e, w1, sent)
    | (Starved, w1, sent) => (Starved, w1, sent)
    end.

End Credits.

(** ** Sample values *)

Definition sample_api_constants : ApiConstants :=
  {| PLATFORM_CODE := Json.Str "7";
     VERSION_CODE := Json.Str "5.8.0";
     DEFAULT_ASSISTANT_ID_CN := Json.Int 513695;
     DEFAULT_ASSISTANT_ID_US := Json.Int 513641;
     REGION_CN := Json.Str "cn";
     REGION_US := Json.Str "US";
     DA_VERSION := Json.Str "3.3.2";
     WEB_VERSION := Json.Str "7.5.0";
     AIGC_FEATURES := Json.Str "app_lip_sync";
     BASE_URL_CN := "https://jimeng.jianying.com";
     BASE_URL_DREAMINA_US := "https://dreamina-api.us.capcut.com";
     BASE_URL_US_COMMERCE := "https://commerce.us.capcut.com";
     WEB_ID := 7500000000000000000 |}.

Definition replies_only (l : list Attempt) : World :=
  {| replies := l; clock := []; nonces := []; ticks := [] |}.

End CoreApi.

(* ================================================================== *)
(** * util.py: chunks                                                   *)
(* ================================================================== *)

Module Util.

Section Chunks.

Context {A : Type}.

(** The loop of [chunk_list] with the chunk collected so far; the result
    lists the chunks in the order they are yielded. *)
Fixpoint chunk_loop (items : list A) (size : Z) (chunk : list A)
    : list (list A) :=
  match items with
  | [] =>
      match chunk with
      | [] => []
      | _ :: _ => [chunk]
      end
  | item :: rest =>
      let chunk := (chunk ++ [item])%list in
      if size <=? Z.of_nat (List.length chunk)
      then chunk :: chunk_loop rest size []
      else chunk_loop rest size chunk
  end.

(** [chunk_list]. *)
Definition chunk_list (items : list A) (size : Z) : list (list A) :=
  chunk_loop items size [].

End Chunks.

End Util.

(* ================================================================== *)
(** * images.py: text to image                                          *)
(* ================================================================== *)

Module Generation.
Import Errors Core Net Images Composition CoreApi.
Local Open Scope net_scope.

Section Generate.

Variable constants : Constants.
Variable POLLING_CONFIG : Poller.PollingConfig.

(** The draft that lines 291-367 assemble around fresh ids, from the mapped
    model, the prompt, the negative prompt, the sample strength, the width,
    the height, the ratio, the resolution type and the region. *)
Variable generate_draft :
  string -> string -> string -> Q -> Json.value -> Json.value -> Json.value ->
  Json.value -> bool -> Json.value.

(** Lines 287-289: the credits are read, and claimed when none is left. *)
Definition ensure_credit (refresh_token : string) : M unit :=
  credits <- get_credit (RETRY_CONFIG constants) refresh_token ;;
  total <- lift (JsonText.item credits "totalCredit") ;;
  none_left <- lift (py_le_zero total) ;;
  if none_left : bool
  then receive_credit (RETRY_CONFIG constants) refresh_token ;;; ret tt
  else ret tt.

(** [generate_images]. *)
Definition generate_images (model prompt refresh_token ratio resolution : string)
    (sample_strength : Q) (negative_prompt : string) : M (list Json.value) :=
  let is_us := _is_us refresh_token in
  mapped_model <- lift (_map_model constants model refresh_token) ;;
  size <-
    (if String.eqb model "nanobanana"
     then ret (Json.Int 1024, Json.Int 1024, Json.Int 1, Json.Str "2k")
     else
       res <- lift (_get_resolution constants resolution ratio) ;;
       width <- lift (JsonText.item res "width") ;;
       height <- lift (JsonText.item res "height") ;;
       image_ratio <- lift (JsonText.item res "ratio") ;;
       resolution_type <- lift (JsonText.item res "resolution_type") ;;
       ret (width, height, image_ratio, resolution_type)) ;;
  let '(width, height, image_ratio, resolution_type) := size in
  ensure_credit refresh_token ;;;
  response <- gateway (RETRY_CONFIG constants)
                (submit_call (generate_draft mapped_model prompt negative_prompt
                                sample_strength width height image_ratio
                                resolution_type is_us)) ;;
  aigc_data <- lift (JsonText.get response "aigc_data") ;;
  history_id <- lift (JsonText.get (or_empty aigc_data) "history_record_id") ;;
  if negb (Json.truthy history_id)
  then raise (JimengAPIError (Text "记录ID不存在") None)
  else
  let poller := Poller.SmartPoller_init POLLING_CONFIG None None None None 1 "image" in
  polled <- poll poller (_poll_history constants history_id refresh_token) ;;
  let info := snd polled in
  item_list <- lift (JsonText.get info "item_list") ;;
  urls <- lift (_extract_urls item_list) ;;
  match urls with
  | [] => raise (JimengAPIError (Text "未能获取生成图片") None)
  | _ => ret urls
  end.

End Generate.

End Generation.

(* ================================================================== *)
(** * videos.py                                                         *)
(* ================================================================== *)

Module Videos.
Import Errors Core Net Images Composition CoreApi.
Local Open Scope net_scope.

(** What [videos.py] reads from [constants.py]. *)
Record VideoConstants : Type := mkVideoConstants {
  VIDEO_RETRY_CONFIG : RetryConfig;
  VIDEO_MODEL_MAP : Dict.t;
  DEFAULT_VIDEO_MODEL : string;
  VIDEO_POLLING_CONFIG : Poller.PollingConfig
}.

(** [_aspect_ratio]: [math.gcd] is never negative, and [//] by a positive
    number rounds down. *)
Definition _aspect_ratio (width height : Z) : Outcome string :=
  let gcd := Z.gcd width height in
  if gcd =? 0 then Raise (PythonError "ZeroDivisionError")
  else Return (JsonText.decimal (width / gcd) ++ ":" ++
               JsonText.decimal (height / gcd))%string.

(** [isinstance(url, str) and url.startswith("http")]. *)
Definition http_text (v : Json.value) : option string :=
  match v with
  | Json.Str s => if Str.startswith s "http" then Some s else None
  | _ => None
  end.

(** Lines 177-180: the first candidate that is an HTTP URL. *)
Fixpoint first_http (candidates : list Json.value) : option string :=
  match candidates with
  | [] => None
  | v :: rest =>
      match http_text v with
      | Some url => Some url
      | None => first_http rest
      end
  end.

(** Lines 169-176: the candidates, all computed before the search. *)
Definition candidates_of (video_info : list (string * Json.value))
    : Outcome (list Json.value) :=
  (transcoded <~
     match Json.get video_info "transcoded_video" with
     | Json.Obj tv =>
         origin <~ JsonText.get_default (or_empty (Json.Obj tv)) "origin"
                     (Json.Obj []) ;;
         JsonText.get origin "video_url"
     | _ => Return Json.Null
     end ;;
   Return [transcoded; Json.get video_info "play_url";
           Json.get video_info "download_url"; Json.get video_info "url"])%outcome.

(** [_extract_video_url]. *)
Definition _extract_video_url (info : Json.value) : Outcome (option string) :=
  (item_list0 <~ JsonText.get info "item_list" ;;
   let item_list := or_empty_list item_list0 in
   if negb (Json.truthy item_list) then Return None else
   first_item <~ JsonText.first item_list ;;
   match first_item with
   | Json.Obj item =>
       match Json.get item "video" with
       | Json.Obj video_info =>
           candidates <~ candidates_of video_info ;;
           Return (first_http candidates)
       | _ => Return None
       end
   | _ => Return None
   end)%outcome.

Section Video.

Variable constants : VideoConstants.

(** The payload that [_build_text_to_video_payload] assembles around fresh
    ids, from the model, the prompt, the aspect ratio and the resolution. *)
Variable video_draft : string -> string -> string -> string -> Json.value.

(** [_map_model]: the default entry is read first. *)
Definition _map_model (name : string) : Outcome string :=
  match Dict.get (VIDEO_MODEL_MAP constants) (DEFAULT_VIDEO_MODEL constants) with
  | None => Raise (PythonError "KeyError")
  | Some default =>
      Return match Dict.get (VIDEO_MODEL_MAP constants) name with
             | Some m => m
             | None => default
             end
  end.

(** [_build_text_to_video_payload]. *)
Definition _build_text_to_video_payload (prompt model : string)
    (width height : Z) (resolution : string) : Outcome Json.value :=
  (aspect <~ _aspect_ratio width height ;;
   Return (video_draft model prompt aspect resolution))%outcome.

(** [value[0]] after [key in history and history[key]]. *)
Definition first_of_truthy (history : list (string * Json.value)) (key : string)
    : option (Outcome Json.value) :=
  match Json.lookup key history with
  | Some v => if Json.truthy v then Some (JsonText.first v) else None
  | None => None
  end.

(** Lines 139-146: where the record is looked for. *)
Definition locate_record (history_id : Json.value) (history : Json.value)
    : Outcome Json.value :=
  match history with
  | Json.Obj records =>
      (found <~ find_record history_id records ;;
       match found with
       | Some info => Return info
       | None =>
           match first_of_truthy records "history_list" with
           | Some o => o
           | None =>
               match first_of_truthy records "history_records" with
               | Some o => o
               | None => Return Json.Null
               end
           end
       end)%outcome
  | _ => Return Json.Null
  end.

(** [_poll_video_status]. *)
Definition _poll_video_status (history_id : Json.value) (refresh_token : string)
    : M (Poller.PollingStatus * Json.value) :=
  history <- gateway (VIDEO_RETRY_CONFIG constants) (history_call history_id) ;;
  info <- lift (locate_record history_id history) ;;
  match info with
  | Json.Obj fields =>
      item_count <- lift (len (or_empty_list (Json.get fields "item_list"))) ;;
      ret ({| Poller.status := status_code_of (Json.get fields "status");
              Poller.fail_code := fail_code_of (Json.get fields "fail_code");
              Poller.item_count := item_count;
              Poller.finish_time := None;
              Poller.history_id := Some (JsonText.str history_id) |}, info)
  | _ => raise (JimengAPIError (Text "记录不存在") None)
  end.

(** Lines 195-197. *)
Definition ensure_credit (refresh_token : string) : M unit :=
  credits <- get_credit (VIDEO_RETRY_CONFIG constants) refresh_token ;;
  total <- lift (JsonText.item credits "totalCredit") ;;
  none_left <- lift (py_le_zero total) ;;
  if none_left : bool
  then receive_credit (VIDEO_RETRY_CONFIG constants) refresh_token ;;; ret tt
  else ret tt.

(** [x.get(key) if isinstance(x, dict) else None]. *)
Definition get_if_dict (v : Json.value) (key : string) : Json.value :=
  match v with
  | Json.Obj fields => Json.get fields key
  | _ => Json.Null
  end.

(** [generate_video]. *)
Definition generate_video (_model prompt refresh_token : string)
    (width height : Z) (resolution : string) : M string :=
  model <- lift (_map_model _model) ;;
  ensure_credit refresh_token ;;;
  data <- lift (_build_text_to_video_payload prompt model width height
                  resolution) ;;
  response <- gateway (VIDEO_RETRY_CONFIG constants) (submit_call data) ;;
  let aigc_data := get_if_dict response "aigc_data" in
  let history_id := get_if_dict aigc_data "history_record_id" in
  if negb (Json.truthy history_id)
  then raise (JimengAPIError (Text "记录ID不存在") None)
  else
  let poller := Poller.SmartPoller_init (VIDEO_POLLING_CONFIG constants)
                  None (Some 3%Q) None (Some 600%Q) 1 "video" in
  polled <- poll poller (_poll_video_status history_id refresh_token) ;;
  let info := snd polled in
  url <- lift (_extract_video_url info) ;;
  match url with
  | Some u => if Py.truthy_str u then ret u
              else raise (JimengAPIError (Text "未能获取视频URL") None)
  | None => raise (JimengAPIError (Text "未能获取视频URL") None)
  end.

End Video.

End Videos.

(* ================================================================== *)
(** * service.py: the calls of the client                               *)
(* ================================================================== *)

Module Client.
Import Errors Core Net CoreApi Service.
Local Open Scope net_scope.

(** Lines 77-80 of [get_points]: a text is taken as it is, a sequence when
    it is not empty, the pool otherwise. *)
Definition points_tokens (self : JimengClient) (session_ids : SessionArg)
    : list string :=
  match session_ids with
  | One token => [token]
  | Many (token :: rest) => token :: rest
  | Many [] | Absent => _session_ids self
  end.

Section Calls.

Variable RETRY_CONFIG : RetryConfig.

(** [base64.b64encode(b).decode("ascii")], taken from the library. *)
Variable b64encode : string -> string.

(** Lines 83-87: the credits of every token, in order. *)
Fixpoint credit_all (tokens : list string) : M (list Json.value) :=
  match tokens with
  | [] => ret []
  | token :: rest =>
      points <- get_credit RETRY_CONFIG token ;;
      results <- credit_all rest ;;
      ret (Json.Obj [("token", Json.Str token); ("points", points)] :: results)
  end.

(** [JimengClient.get_points]. *)
Definition get_points (self : JimengClient) (session_ids : SessionArg)
    : M (list Json.value) :=
  match points_tokens self session_ids with
  | [] => raise (JimengAPIError (Text "未提供 session_id") None)
  | tokens => credit_all tokens
  end.

(** [JimengClient.check_session_status]. *)
Definition check_session_status (self : JimengClient) (session_id : SessionArg)
    (draw : nat) : M Json.value :=
  token <- lift (_choose_token self session_id draw) ;;
  live <- get_token_live_status RETRY_CONFIG token ;;
  ret (Json.Obj [("live", Json.Bool live)]).

(** [requests.get(url)] of line 185. *)
Definition download_call (url : string) : Call :=
  {| via := Direct; call_method := "GET"; call_url := url;
     call_headers := []; call_body := NoBody |}.

(** Lines 184-188: the downloads, one after the other.  A URL that is not
    a text is refused by [requests] before anything is sent. *)
Fixpoint download_all (urls : list Json.value) : M (list Json.value) :=
  match urls with
  | [] => ret []
  | url :: rest =>
      content <-
        match url with
        | Json.Str u => send (download_call u)
        | _ => raise (RequestException "InvalidURL")
        end ;;
      check_status content ;;;
      let b64 := b64encode (text content) in
      items <- download_all rest ;;
      ret (Json.Obj [("b64_json", Json.Str b64)] :: items)
  end.

(** [JimengClient._format_response]. *)
Definition _format_response (urls : list Json.value) (response_format : string)
    : M (list Json.value) :=
  if String.eqb response_format "b64_json" then download_all urls
  else ret (map (fun url => Json.Obj [("url", url)]) urls).

End Calls.

End Client.

(* ================================================================== *)
(** * jimeng_service.py: the facade                                     *)
(* ================================================================== *)

Module Facade.
Import Errors Core Net Service Client.
Local Open Scope net_scope.

Record JimengAPIService : Type := mkJimengAPIService {
  _client : JimengClient;
  _running : bool
}.

(** [start]. *)
Definition start (self : JimengAPIService) : Outcome JimengAPIService :=
  match _session_ids (_client self) with
  | [] => Raise (JimengAPIError (Text "未提供 session_id，无法启动服务") None)
  | _ :: _ => Return {| _client := _client self; _running := true |}
  end.

(** [JimengAPIService.__init__]. *)
Definition JimengAPIService_init (session_id : SessionArg) (auto_start : bool)
    : Outcome JimengAPIService :=
  let self := {| _client := JimengClient_init session_id; _running := false |} in
  if auto_start then start self else Return self.

(** [stop]. *)
Definition stop (self : JimengAPIService) : JimengAPIService :=
  {| _client := _client self; _running := false |}.

(** [is_running]. *)
Definition is_running (self : JimengAPIService) : bool := _running self.

(** [set_session_ids]: [session_ids or []] goes to the client, which keeps
    a text as a pool of one. *)
Definition set_session_ids (self : JimengAPIService) (session_ids : SessionArg)
    : JimengAPIService :=
  {| _client :=
       {| _session_ids := if given session_ids then override_tokens session_ids
                          else [] |};
     _running := _running self |}.

(** [_ensure_running]. *)
Definition _ensure_running (self : JimengAPIService) : Outcome unit :=
  if _running self then Return tt
  else Raise (JimengAPIError (Text "服务尚未启动，请先调用 start()") None).

Section Proxies.

Variable RETRY_CONFIG : RetryConfig.

(** [check_session_status]. *)
Definition check_session_status (self : JimengAPIService)
    (session_id : SessionArg) (draw : nat) : M Json.value :=
  lift (_ensure_running self) ;;;
  Client.check_session_status RETRY_CONFIG (_client self) session_id draw.

(** [get_points]. *)
Definition get_points (self : JimengAPIService) (session_ids : SessionArg)
    : M (list Json.value) :=
  lift (_ensure_running self) ;;;
  Client.get_points RETRY_CONFIG (_client self) session_ids.

End Proxies.

End Facade.

(* ================================================================== *)
(** * main.py: session tokens typed by the user                         *)
(* ================================================================== *)

Module Plugin.
Import Service.

(** [raw.replace(",", " ")]. *)
Fixpoint commas_to_spaces (raw : string) : string :=
  match raw with
  | EmptyString => EmptyString
  | String c rest =>
      String (if Ascii.eqb c ","%char then " "%char else c) (commas_to_spaces rest)
  end.

(** [s.split()]: the maximal runs without whitespace; [word] is the run
    being read. *)
Fixpoint split_loop (s word : string) : list string :=
  match s with
  | EmptyString =>
      match word with
      | EmptyString => []
      | _ => [word]
      end
  | String c rest =>
      if Str.is_space c then
        match word with
        | EmptyString => split_loop rest EmptyString
        | _ => word :: split_loop rest EmptyString
        end
      else split_loop rest (word ++ String c EmptyString)
  end.

Definition split (s : string) : list string := split_loop s EmptyString.

(** [_split_tokens]. *)
Definition _split_tokens (raw : string) : list string :=
  if Py.truthy_str raw
  then filter Py.truthy_str (split (commas_to_spaces raw))
  else [].

(** [_parse_session_override]. *)
Definition _parse_session_override (raw : option string) : SessionArg :=
  match raw with
  | None => Absent
  | Some text =>
      if Py.truthy_str text then
        let tokens :=
          map Str.strip
            (filter (fun token => Py.truthy_str (Str.strip token))
               (split (commas_to_spaces text))) in
        match tokens with
        | [] => Absent
        | [token] => One token
        | _ => Many tokens
        end
      else Absent
  end.

End Plugin.

(* ================================================================== *)
(** * Properties                                                        *)
(* ================================================================== *)

Module PollerFacts.
Import Poller.

Section Facts.

Context {T : Type}.
Implicit Types (self : SmartPoller) (st : LoopState) (rd : Round T)
               (rounds pre rest : list (Round T)).

(** ** Elementary facts about one iteration *)

Lemma Qle_bool_false_of_lt (a b : Q) : (b < a)%Q -> Qle_bool a b = false.
Proof.
  intros H. destruct (Qle_bool a b) eqn:E; [|reflexivity].
  apply Qle_bool_iff in E. exfalso. apply (Qlt_not_le _ _ H E).
Qed.

Lemma Qle_bool_true_of_le (a b : Q) : (a <= b)%Q -> Qle_bool a b = true.
Proof. intros H. now apply Qle_bool_iff. Qed.

(** Every literal the chain can choose is a non-empty string, so the test
    [if exit_reason:] succeeds exactly when a branch was taken. *)
Lemma chosen_reason_truthy self s n k e r :
  choose_exit_reason self s n k e = Some r -> Py.truthy_str r = true.
Proof.
  unfold choose_exit_reason.
  repeat match goal with
         | |- context [if ?b then _ else _] => destruct b
         end; intros H; inversion H; reflexivity.
Qed.

(** What one iteration does, by cases on the chosen exit reason. *)
Lemma poll_loop_cons self st rd rest :
  poll_loop self st (rd :: rest) =
  match choose_exit_reason self (fetched rd) (st_poll_count st + 1)
          (fst (update_stability st (fetched rd))) (elapsed rd) with
  | Some reason =>
      Returned {| res_status := status (fetched rd);
                  res_fail_code := fail_code (fetched rd);
                  res_item_count := item_count (fetched rd);
                  elapsed_time := elapsed rd;
                  poll_count := st_poll_count st + 1;
                  exit_reason := reason |} (payload rd)
  | None =>
      if Qle_bool (timeout_seconds self) (elapsed rd)
      then RaisedPollingTimeout (elapsed rd) (status (fetched rd))
             (item_count (fetched rd))
      else poll_loop self (next_state self st rd) rest
  end.
Proof.
  cbn [poll_loop].
  destruct (choose_exit_reason _ _ _ _ _) as [r|] eqn:C.
  - now rewrite (chosen_reason_truthy _ _ _ _ _ _ C).
  - reflexivity.
Qed.

(** The loop is its body, iterated: a round is decided without the rounds
    after it. *)
Lemma poll_loop_one_round self st rd rest :
  poll_loop self st (rd :: rest) =
  match poll_loop self st [rd] with
  | StillPolling st' => poll_loop self st' rest
  | stopped => stopped
  end.
Proof.
  rewrite !poll_loop_cons.
  destruct (choose_exit_reason _ _ _ _ _); [reflexivity|].
  now destruct (Qle_bool _ _).
Qed.

(** A prefix that leaves the loop running can be cut off. *)
Lemma poll_loop_app self pre : forall st st' rest,
  poll_loop self st pre = StillPolling st' ->
  poll_loop self st (pre ++ rest) = poll_loop self st' rest.
Proof.
  induction pre as [|rd pre IH]; intros st st' rest H.
  - cbn in H. inversion H. reflexivity.
  - rewrite <- app_comm_cons. rewrite poll_loop_cons in *.
    destruct (choose_exit_reason _ _ _ _ _); [discriminate|].
    destruct (Qle_bool _ _); [discriminate|].
    now apply IH.
Qed.

(** The round counter counts the rounds. *)
Lemma still_polling_count self pre : forall st st',
  poll_loop self st pre = StillPolling st' ->
  st_poll_count st' = st_poll_count st + Z.of_nat (List.length pre).
Proof.
  induction pre as [|rd pre IH]; intros st st' H.
  - cbn in H. inversion H. cbn. lia.
  - rewrite poll_loop_cons in H.
    destruct (choose_exit_reason _ _ _ _ _); [discriminate|].
    destruct (Qle_bool _ _); [discriminate|].
    apply IH in H. rewrite H. unfold next_state.
    destruct (update_stability _ _). cbn [st_poll_count List.length]. lia.
Qed.

(** The stability counter never goes below zero. *)
Lemma still_polling_stable_nonneg self pre : forall st st',
  0 <= st_stable_rounds st ->
  poll_loop self st pre = StillPolling st' ->
  0 <= st_stable_rounds st'.
Proof.
  induction pre as [|rd pre IH]; intros st st' Hs H.
  - cbn in H. inversion H. now subst.
  - rewrite poll_loop_cons in H.
    destruct (choose_exit_reason _ _ _ _ _); [discriminate|].
    destruct (Qle_bool _ _); [discriminate|].
    apply IH in H; [assumption|].
    unfold next_state, update_stability.
    destruct (_ =? _); cbn [st_stable_rounds]; lia.
Qed.

(** ** Terminal statuses *)

Lemma choose_exit_reason_terminal self s n k e :
  is_terminal (status s) = true ->
  choose_exit_reason self s n k e =
    Some (if status s =? 30 then REASON_FAILED else REASON_COMPLETED).
Proof.
  intros H. unfold choose_exit_reason. rewrite H.
  now destruct (status s =? 30).
Qed.

(** C4. As soon as a fetched status is terminal the poller stops on that
    round: whatever came before (as long as the loop was still running) and
    whatever would come after, [poll] returns on the terminal round, with the
    reason "completed" for the success values 10 and 50 and "failed" for 30,
    and with the status, fail code, item count and clock reading of that
    round; the round counter is the number of rounds fetched. *)
Theorem terminal_status_stops_poll self pre rd rest st' :
  poll self pre = StillPolling st' ->
  is_terminal (status (fetched rd)) = true ->
  poll self (pre ++ rd :: rest) =
    Returned {| res_status := status (fetched rd);
                res_fail_code := fail_code (fetched rd);
                res_item_count := item_count (fetched rd);
                elapsed_time := elapsed rd;
                poll_count := Z.of_nat (List.length pre) + 1;
                exit_reason := if status (fetched rd) =? 30
                               then REASON_FAILED else REASON_COMPLETED |}
             (payload rd).
Proof.
  intros Hpre Hterm. unfold poll in *.
  rewrite (poll_loop_app _ _ _ _ _ Hpre), poll_loop_cons.
  rewrite (choose_exit_reason_terminal _ _ _ _ _ Hterm).
  rewrite (still_polling_count _ _ _ _ Hpre). reflexivity.
Qed.

(** ** Zero items *)

Lemma choose_exit_reason_no_items self s n k e :
  is_terminal (status s) = false ->
  item_count s = 0 ->
  0 < expected_item_count self ->
  n < max_poll_count self ->
  choose_exit_reason self s n k e = None.
Proof.
  intros Ht Hi He Hn. unfold choose_exit_reason. rewrite Ht, Hi.
  replace (expected_item_count self <=? 0) with false by (symmetry; apply Z.leb_gt; lia).
  replace (max_poll_count self <=? n) with false by (symmetry; apply Z.leb_gt; lia).
  cbn. now rewrite !andb_false_r.
Qed.

Lemma idle_rounds_keep_polling self pre : forall st,
  0 < expected_item_count self ->
  Forall (idle_round self) pre ->
  st_poll_count st + Z.of_nat (List.length pre) < max_poll_count self ->
  exists st', poll_loop self st pre = StillPolling st' /\
              st_poll_count st' = st_poll_count st + Z.of_nat (List.length pre).
Proof.
  induction pre as [|rd pre IH]; intros st He Hall Hn.
  - exists st. split; [reflexivity | cbn; lia].
  - inversion Hall as [|? ? (Ht & Hi & Hel) Hall']; subst.
    cbn [List.length] in Hn.
    rewrite poll_loop_cons, choose_exit_reason_no_items by (auto; lia).
    rewrite (Qle_bool_false_of_lt _ _ Hel).
    destruct (IH (next_state self st rd) He Hall') as (st' & E & C).
    + unfold next_state. destruct (update_stability _ _).
      cbn [st_poll_count]. lia.
    + exists st'. split; [exact E|]. rewrite C. unfold next_state.
      destruct (update_stability _ _). cbn [st_poll_count List.length]. lia.
Qed.

(** C1 (amended). With a positive expected item count, if every round so far
    reported no item and no terminal status, and the clock reaches the
    timeout on a round whose number is still below the round limit, then
    [poll] raises the polling-timeout error on that round and returns no
    result. *)
Theorem zero_items_timeout_raises self pre rd rest :
  0 < expected_item_count self ->
  Forall (idle_round self) pre ->
  is_terminal (status (fetched rd)) = false ->
  item_count (fetched rd) = 0 ->
  (timeout_seconds self <= elapsed rd)%Q ->
  Z.of_nat (List.length pre) + 1 < max_poll_count self ->
  poll self (pre ++ rd :: rest) =
    RaisedPollingTimeout (elapsed rd) (status (fetched rd)) 0.
Proof.
  intros He Hall Ht Hi Hel Hn. unfold poll.
  destruct (idle_rounds_keep_polling self pre initial_state He Hall)
    as (st' & E & C); [cbn; lia|].
  rewrite (poll_loop_app _ _ _ _ _ E), poll_loop_cons.
  rewrite choose_exit_reason_no_items; auto.
  - rewrite (Qle_bool_true_of_le _ _ Hel). now rewrite Hi.
  - rewrite C. cbn. lia.
Qed.

(** ** Stable item counts *)

Lemma choose_exit_reason_steady self s n k e c :
  is_terminal (status s) = false ->
  item_count s = c ->
  0 < c < expected_item_count self ->
  choose_exit_reason self s n k e =
    if stable_rounds self <=? k then Some REASON_STABLE
    else if max_poll_count self <=? n then Some REASON_ROUND_LIMIT
    else if Qle_bool (timeout_seconds self) e then Some REASON_TIMEOUT_PARTIAL
    else None.
Proof.
  intros Ht Hi Hc. unfold choose_exit_reason. rewrite Ht, Hi.
  replace (expected_item_count self <=? c) with false by (symmetry; apply Z.leb_gt; lia).
  replace (0 <? c) with true by (symmetry; apply Z.ltb_lt; lia).
  now rewrite !andb_true_r.
Qed.

(** A run of rounds that keep reporting the same positive count [c] ends in
    the stable exit once the counter, which starts counting on the second
    round of the run, has reached the threshold. *)
Lemma steady_run_exits self c run : forall st last rest,
  0 < c < expected_item_count self ->
  Forall (steady_round c) run ->
  steady_round c last ->
  Forall (before_deadline self) run ->
  st_poll_count st + Z.of_nat (List.length run) < max_poll_count self ->
  stable_rounds self <=
    Z.of_nat (List.length run) +
    (if c =? st_last_item_count st then st_stable_rounds st + 1 else 0) ->
  exists result data,
    poll_loop self st (run ++ last :: rest) = Returned result data /\
    exit_reason result = REASON_STABLE /\
    res_item_count result = c /\
    poll_count result <= st_poll_count st + Z.of_nat (List.length run) + 1.
Proof.
  induction run as [|rd run IH]; intros st last rest Hc Hrun Hlast Hdl Hn Hk.
  - destruct Hlast as (Ht & Hi). cbn [app List.length] in *.
    rewrite poll_loop_cons, (choose_exit_reason_steady _ _ _ _ _ c) by auto.
    unfold update_stability. rewrite Hi.
    destruct (c =? st_last_item_count st); cbn [fst];
      (replace (stable_rounds self <=? _) with true
         by (symmetry; apply Z.leb_le; lia));
      do 2 eexists; (split; [reflexivity|]); cbn; repeat split; auto; lia.
  - inversion Hrun as [|? ? (Ht & Hi) Hrun']; subst.
    inversion Hdl as [|? ? Hel Hdl']; subst.
    cbn [List.length] in Hn, Hk. rewrite <- app_comm_cons.
    rewrite poll_loop_cons,
      (choose_exit_reason_steady _ _ _ _ _ (item_count (fetched rd))) by auto.
    destruct (stable_rounds self <=? fst (update_stability st (fetched rd))) eqn:E.
    + do 2 eexists. split; [reflexivity|]. cbn. repeat split; auto; lia.
    + replace (max_poll_count self <=? st_poll_count st + 1) with false
        by (symmetry; apply Z.leb_gt; lia).
      rewrite (Qle_bool_false_of_lt _ _ Hel).
      apply Z.leb_gt in E.
      destruct (IH (next_state self st rd) last rest Hc Hrun' Hlast Hdl')
        as (result & data & E1 & E2 & E3 & E4).
      * unfold next_state. destruct (update_stability _ _).
        cbn [st_poll_count]. lia.
      * unfold next_state, update_stability in *.
        destruct (item_count (fetched rd) =? st_last_item_count st) eqn:Eq;
          cbn [fst st_last_item_count st_stable_rounds] in *.
        -- apply Z.eqb_eq in Eq. rewrite <- Eq, Z.eqb_refl. lia.
        -- rewrite Z.eqb_refl. lia.
      * exists result, data. repeat split; auto.
        revert E4. unfold next_state. destruct (update_stability _ _).
        cbn [st_poll_count List.length]. lia.
Qed.

(** The stable exit is only taken on a round that reports at least one item. *)
Lemma stable_exit_has_items self rounds : forall st result data,
  poll_loop self st rounds = Returned result data ->
  exit_reason result = REASON_STABLE ->
  0 < res_item_count result.
Proof.
  induction rounds as [|rd rounds IH]; intros st result data H Hr.
  - discriminate.
  - rewrite poll_loop_cons in H.
    destruct (choose_exit_reason _ _ _ _ _) as [r|] eqn:C.
    + inversion H; subst; clear H. cbn in *. subst r.
      unfold choose_exit_reason in C.
      destruct (is_terminal _).
      { destruct (negb _); inversion C. }
      destruct (_ <=? item_count _); [inversion C|].
      destruct (0 <? item_count (fetched rd)) eqn:Ei.
      { now apply Z.ltb_lt. }
      rewrite !andb_false_r in C.
      destruct (max_poll_count self <=? _); inversion C.
    + destruct (Qle_bool _ _); [discriminate|]. eapply IH; eauto.
Qed.

(** C3 (amended). (1) While the loop is running, if the fetched status is not
    terminal and the item count is one positive value [c] below the expected
    count on [k + 1] consecutive rounds, where [k] is at least the stability
    threshold, and neither the round limit nor the timeout is reached on the
    first [k] of them, then [poll] returns with the exit reason "stable with
    partial results" and item count [c], at the latest on the last of these
    rounds.  (2) [poll] never returns with that exit reason and no item. *)
Theorem stable_count_exits self :
  (forall pre run last rest st' c,
     poll self pre = StillPolling st' ->
     0 < c < expected_item_count self ->
     Forall (steady_round c) run ->
     steady_round c last ->
     Forall (before_deadline self) run ->
     Z.of_nat (List.length pre) + Z.of_nat (List.length run)
       < max_poll_count self ->
     stable_rounds self <= Z.of_nat (List.length run) ->
     exists result data,
       poll self (pre ++ run ++ last :: rest) = Returned result data /\
       exit_reason result = REASON_STABLE /\
       res_item_count result = c /\
       poll_count result
         <= Z.of_nat (List.length pre) + Z.of_nat (List.length run) + 1) /\
  (forall rounds result data,
     poll self rounds = Returned result data ->
     exit_reason result = REASON_STABLE ->
     0 < res_item_count result).
Proof.
  split.
  - intros pre run last rest st' c Hpre Hc Hrun Hlast Hdl Hn Hk. unfold poll in *.
    pose proof (still_polling_count _ _ _ _ Hpre) as Hcount.
    pose proof (still_polling_stable_nonneg self pre initial_state st'
                  (Z.le_refl 0) Hpre) as Hs.
    cbn [initial_state st_poll_count st_stable_rounds] in Hcount, Hs.
    rewrite (poll_loop_app _ _ _ _ _ Hpre).
    destruct (steady_run_exits self c run st' last rest Hc Hrun Hlast Hdl)
      as (result & data & E1 & E2 & E3 & E4).
    + lia.
    + destruct (c =? st_last_item_count st'); lia.
    + exists result, data. repeat split; auto. lia.
  - intros rounds result data. apply stable_exit_has_items.
Qed.

End Facts.

(** ** The loop on concrete status sequences *)

(** C4, on the sequence in-progress, in-progress, success with the expected
    single item on the success round: [poll] returns "completed" with
    [poll_count = 3]. *)
Lemma terminal_status_stops_poll_witness :
  poll image_poller
    [round_of "a" 20 0 1; round_of "b" 20 0 2; round_of "c" 10 1 3] =
  Returned {| res_status := 10; res_fail_code := None; res_item_count := 1;
              elapsed_time := 3; poll_count := 3;
              exit_reason := REASON_COMPLETED |} "c".
Proof.
  exact (terminal_status_stops_poll image_poller
           [round_of "a" 20 0 1; round_of "b" 20 0 2] (round_of "c" 10 1 3) []
           _ eq_refl eq_refl).
Defined.

(** C1, on three idle rounds of which the third is read past the deadline of
    5 seconds while the round limit is 900. *)
Lemma zero_items_timeout_raises_witness :
  poll (SmartPoller_init sample_config None None None (Some 5%Q) 4 "image")
    [round_of "a" 20 0 2; round_of "b" 20 0 4; round_of "c" 20 0 6] =
  RaisedPollingTimeout 6 20 0.
Proof.
  apply (zero_items_timeout_raises
           (SmartPoller_init sample_config None None None (Some 5%Q) 4 "image")
           [round_of "a" 20 0 2; round_of "b" 20 0 4] (round_of "c" 20 0 6) []).
  - reflexivity.
  - repeat constructor.
  - reflexivity.
  - reflexivity.
  - discriminate.
  - reflexivity.
Defined.

(** C1 as stated fails when the round limit is reached no later than the
    deadline: with a limit of 3 rounds and a timeout of 5 seconds, three rounds
    without items, the third read at 6 seconds, make [poll] return a result
    with the reason "round limit exceeded" instead of raising. *)
Lemma zero_items_timeout_counterexample :
  Forall (fun rd => item_count (fetched rd) = 0 /\
                    is_terminal (status (fetched rd)) = false)
    [round_of "a" 20 0 2; round_of "b" 20 0 4; round_of "c" 20 0 6] /\
  (timeout_seconds short_poller <= elapsed (round_of "c" 20 0 6))%Q /\
  poll short_poller
    [round_of "a" 20 0 2; round_of "b" 20 0 4; round_of "c" 20 0 6] =
  Returned {| res_status := 20; res_fail_code := None; res_item_count := 0;
              elapsed_time := 6; poll_count := 3;
              exit_reason := REASON_ROUND_LIMIT |} "c".
Proof.
  split; [repeat constructor|]. split; [discriminate | reflexivity].
Qed.

(** C3, on a count that appears on round 2 and is repeated on rounds 3
    and 4, with a threshold of 2. *)
Lemma stable_count_exits_witness :
  exists result data,
    poll two_stable_poller
      ([round_of "a" 20 0 1] ++
       [round_of "b" 20 1 2; round_of "c" 20 1 3] ++
       round_of "d" 20 1 4 :: [round_of "e" 20 2 5]) = Returned result data /\
    exit_reason result = REASON_STABLE /\
    res_item_count result = 1 /\
    poll_count result <= 4.
Proof.
  refine (proj1 (stable_count_exits two_stable_poller)
            [round_of "a" 20 0 1]
            [round_of "b" 20 1 2; round_of "c" 20 1 3]
            (round_of "d" 20 1 4) [round_of "e" 20 2 5] _ 1
            eq_refl _ _ _ _ _ _).
  - split; reflexivity.
  - repeat constructor.
  - repeat constructor.
  - repeat constructor.
  - reflexivity.
  - discriminate.
Defined.

(** C3 as stated fails by one round: with a threshold of 2, a count that is
    reported on exactly 2 rounds (the counter restarts on the round where the
    count changes, so it reads 1 after them) does not end the loop, and the
    poller goes on to a third round, where here the expected count is
    reached. *)
Lemma stable_count_counterexample :
  Forall (steady_round 1) [round_of "a" 20 1 1; round_of "b" 20 1 2] /\
  Forall (before_deadline two_stable_poller)
    [round_of "a" 20 1 1; round_of "b" 20 1 2] /\
  stable_rounds two_stable_poller
    <= Z.of_nat (List.length [round_of "a" 20 1 1; round_of "b" 20 1 2]) /\
  poll two_stable_poller [round_of "a" 20 1 1; round_of "b" 20 1 2] =
    StillPolling {| st_poll_count := 2; st_last_item_count := 1;
                    st_stable_rounds := 1; st_slept := [5%Q; 5%Q] |} /\
  poll two_stable_poller
    [round_of "a" 20 1 1; round_of "b" 20 1 2; round_of "c" 20 4 3] =
  Returned {| res_status := 20; res_fail_code := None; res_item_count := 4;
              elapsed_time := 3; poll_count := 3;
              exit_reason := REASON_EXPECTED |} "c".
Proof.
  repeat split; try reflexivity; try discriminate; repeat constructor.
Qed.

End PollerFacts.

Module CoreFacts.
Import Errors Core.




(** With the budget used up, a further failure ends the call. *)
Lemma request_loop_exhausted max delay retries sleeps last rest :
  hard_failure last ->
  max <= retries ->
  request_loop max delay false retries sleeps (last :: rest) =
  {| outcome :=
       Raise match last with
             | Fails exc => JimengAPIError (Text exc) None
             | Replies resp => HTTPError (status_code resp)
             end;
     retries_used := retries; slept := sleeps; unread := rest |}.
Proof.
  intros Hf Hr. apply Z.ltb_ge in Hr.
  destruct last as [exc|resp]; cbn [request_loop]; rewrite Hr.
  - reflexivity.
  - rewrite andb_false_r. unfold raise_for_status. cbn in Hf.
    replace (400 <=? status_code resp) with true by (symmetry; apply Z.leb_le; lia).
    replace (status_code resp <? 600) with true by (symmetry; apply Z.ltb_lt; lia).
    reflexivity.
Qed.






(** What is raised for a status once the budget is used up is the
    transport's [HTTPError], not the [JimengAPIError] of the package. *)
Lemma exhausted_status_error max delay retries sleeps resp rest :
  400 <= status_code resp < 600 ->
  max <= retries ->
  exists e,
    outcome (request_loop max delay false retries sleeps (Replies resp :: rest))
      = Raise e /\
    is_JimengAPIError e = false.
Proof.
  intros Hs Hr.
  rewrite (request_loop_exhausted max delay retries sleeps (Replies resp) rest Hs Hr).
  eexists. split; reflexivity.
Qed.

(** With a maximum of zero nothing is retried. *)
Lemma zero_budget_no_retry :
  request no_retry_config false [Fails "reset"; reply_with 200 ok_envelope] =
  {| outcome := Raise (JimengAPIError (Text "reset") None); retries_used := 0;
     slept := []; unread := [reply_with 200 ok_envelope] |} /\
  request no_retry_config false
    [reply_with 500 Json.Null; reply_with 200 ok_envelope] =
  {| outcome := Raise (HTTPError 500); retries_used := 0;
     slept := []; unread := [reply_with 200 ok_envelope] |}.
Proof. split; reflexivity. Qed.

(** A streaming request still retries network-level exceptions. *)
Lemma streaming_retries_exceptions :
  request sample_retry_config true [Fails "reset"; reply_with 200 Json.Null] =
  {| outcome := Return (Raw {| status_code := 200; text := "";
                               json := Some Json.Null |});
     retries_used := 1; slept := [5%Q]; unread := [] |}.
Proof. reflexivity. Qed.

End CoreFacts.


Module SignerFacts.
Import Errors AwsSignature.

(** ** Hexadecimal digests *)

Lemma hex_digit_is_hex (n : nat) :
  (n < 16)%nat -> Str.is_hex_digit (Str.hex_digit n) = true.
Proof.
  intros Hn.
  do 16 (destruct n as [|n]; [reflexivity|]). lia.
Qed.

Lemma hexlify_is_hex (s : string) :
  Str.all_chars Str.is_hex_digit (Str.hexlify s) = true.
Proof.
  induction s as [|c s IH]; [reflexivity|].
  cbn [Str.hexlify Str.all_chars]. rewrite IH, !hex_digit_is_hex.
  - reflexivity.
  - apply Nat.mod_upper_bound. discriminate.
  - apply Nat.Div0.div_lt_upper_bound.
    pose proof (nat_ascii_bounded c). lia.
Qed.

(** ** Which headers are signed *)

Section Signer.

Variable lib : Stdlib.

Lemma signs_content_iff (method payload : string) :
  signs_content method payload = true <->
  Str.upper method = "POST" /\ payload <> "".
Proof.
  unfold signs_content. rewrite andb_true_iff, String.eqb_eq.
  destruct payload; cbn; intuition congruence.
Qed.

(** The signed names, by cases on the session token and the branch taken. *)
Lemma signed_header_names_cases method timestamp session_token payload :
  signed_header_names (headers_to_sign lib method timestamp session_token payload) =
  ((if signs_content method payload then ["x-amz-content-sha256"] else []) ++
   ["x-amz-date"] ++
   (if Py.truthy_opt_str session_token then ["x-amz-security-token"] else []))%list.
Proof.
  unfold headers_to_sign, signed_header_names.
  destruct session_token as [tok|]; cbn [Py.truthy_opt_str];
    [destruct (Py.truthy_str tok)|];
    destruct (signs_content method payload); reflexivity.
Qed.



(** ** Determinism and shape of the result *)

Lemma str_append_assoc (a b c : string) :
  ((a ++ b) ++ c = a ++ (b ++ c))%string.
Proof.
  induction a as [|x a IH]; cbn; [reflexivity|]. now rewrite IH.
Qed.

Lemma create_signature_reads_date method url headers ak sk st payload timestamp :
  Dict.get headers "x-amz-date" = Some timestamp ->
  create_signature lib method url headers ak sk st payload =
  Return ("AWS4-HMAC-SHA256 Credential=" ++ ak ++ "/" ++
          Str.take 8 timestamp ++ "/cn-north-1/imagex/aws4_request" ++
          ", SignedHeaders=" ++
          signed_headers (headers_to_sign lib method timestamp st payload) ++
          ", Signature=" ++
          signature lib method url timestamp sk st payload)%string.
Proof.
  intros H. unfold create_signature. rewrite H. unfold scope, region, service.
  rewrite !str_append_assoc. reflexivity.
Qed.

(** C6.  The result is a function of the arguments, and of the headers only
    through [x-amz-date]: two calls whose headers carry the same timestamp
    and whose other arguments are equal return equal strings.  The string is
    [AWS4-HMAC-SHA256 Credential=<access_key>/<date>/cn-north-1/imagex/aws4_request,
    SignedHeaders=<signed_headers>, Signature=<hex>], where <date> is the
    first 8 characters of the timestamp and <hex> consists of lowercase
    hexadecimal digits, two for every byte of the HMAC digest. *)
Theorem create_signature_deterministic
    (method url : string) (headers headers' : Dict.t)
    (access_key_id secret_access_key : string) (session_token : option string)
    (payload timestamp : string) :
  Dict.get headers "x-amz-date" = Some timestamp ->
  Dict.get headers' "x-amz-date" = Some timestamp ->
  create_signature lib method url headers access_key_id secret_access_key
    session_token payload =
  create_signature lib method url headers' access_key_id secret_access_key
    session_token payload /\
  exists hex,
    create_signature lib method url headers access_key_id secret_access_key
      session_token payload =
    Return ("AWS4-HMAC-SHA256 Credential=" ++ access_key_id ++ "/" ++
            Str.take 8 timestamp ++ "/cn-north-1/imagex/aws4_request" ++
            ", SignedHeaders=" ++
            signed_headers
              (headers_to_sign lib method timestamp session_token payload) ++
            ", Signature=" ++ hex)%string /\
    Str.all_chars Str.is_hex_digit hex = true /\
    hex = signature lib method url timestamp secret_access_key session_token
            payload.
Proof.
  intros H H'.
  rewrite (create_signature_reads_date _ _ _ _ _ _ _ _ H).
  rewrite (create_signature_reads_date _ _ _ _ _ _ _ _ H').
  split; [reflexivity|].
  eexists. split; [reflexivity|]. split; [|reflexivity].
  apply hexlify_is_hex.
Qed.

End Signer.


(** C6 on the apply call, with SHA-256 and HMAC computed: the signature of
    the reference run. *)
Lemma create_signature_deterministic_witness :
  create_signature python_stdlib "GET" sample_apply_url sample_headers
    "AKTEST" "secretKEY" (Some "STS2token") "" =
  Return "AWS4-HMAC-SHA256 Credential=AKTEST/20240102/cn-north-1/imagex/aws4_request, SignedHeaders=x-amz-date;x-amz-security-token, Signature=cfc8dffa1c1527c0d088d5462ea366a1948211bf1776a50d156a5036bf25e724" /\
  create_signature python_stdlib "GET" sample_apply_url sample_headers
    "AKTEST" "secretKEY" (Some "STS2token") "" =
  create_signature python_stdlib "GET" sample_apply_url
    [("x-amz-date", "20240102T030405Z")]
    "AKTEST" "secretKEY" (Some "STS2token") "".
Proof.
  split; [vm_compute; reflexivity|].
  exact (proj1 (create_signature_deterministic python_stdlib "GET"
                  sample_apply_url sample_headers
                  [("x-amz-date", "20240102T030405Z")]
                  "AKTEST" "secretKEY" (Some "STS2token") ""
                  "20240102T030405Z" eq_refl eq_refl)).
Defined.

End SignerFacts.


Module NetFacts.
Import Errors Core Net.

Section Bind.

Context {A B : Type}.
Implicit Types (m : M A) (k : A -> M B) (w : World).



(** A call sent by [m ;; k] was sent by [m], or by [k] after [m] returned. *)
Lemma in_sent_bind m k w c :
  In c (sent_of (bind m k w)) ->
  In c (sent_of (m w)) \/
  exists a w1 s1, m w = (Return a, w1, s1) /\ In c (sent_of (k a w1)).
Proof.
  unfold bind, sent_of. destruct (m w) as [[[a| e |] w1] s1]; cbn; auto.
  destruct (k a w1) as [[o w2] s2] eqn:E. cbn. intros H.
  apply in_app_or in H. destruct H as [H|H]; [now left|].
  right. exists a, w1, s1. split; [reflexivity|]. now rewrite E.
Qed.

End Bind.

Lemma lift_returns {A : Type} (o : Outcome A) w a w1 s1 :
  lift o w = (Return a, w1, s1) -> o = Return a /\ w1 = w /\ s1 = [].
Proof. unfold lift. intros H. inversion H. auto. Qed.

Lemma send_sent c w c' : In c' (sent_of (send c w)) -> c' = c.
Proof.
  unfold send, sent_of. destruct (replies w) as [|[exc|resp] rest]; cbn;
    intuition auto.
Qed.

Lemma gateway_sent cfg c w c' : In c' (sent_of (gateway cfg c w)) -> c' = c.
Proof.
  unfold gateway, sent_of. cbn. intros H. now apply repeat_spec in H.
Qed.







(** A computation [m ;; k] that returns: [m] returned, then [k]. *)
Lemma bind_return_inv {A B : Type} (m : M A) (k : A -> M B) w b w' s :
  bind m k w = (Return b, w', s) ->
  exists a w1 s1 s2,
    m w = (Return a, w1, s1) /\ k a w1 = (Return b, w', s2) /\
    s = (s1 ++ s2)%list.
Proof.
  unfold bind. destruct (m w) as [[[a| e |] w1] s1]; try discriminate.
  destruct (k a w1) as [[o w2] s2] eqn:E. intros H. inversion H; subst.
  now exists a, w1, s1, s2.
Qed.

Lemma send_returns c w resp w1 s1 :
  send c w = (Return resp, w1, s1) -> s1 = [c].
Proof.
  unfold send. destruct (replies w) as [|[exc|r] rest]; intros H;
    inversion H; reflexivity.
Qed.

End NetFacts.

Module UploadFacts.
Import Errors Core Net Images NetFacts.
Local Open Scope net_scope.

(** ** Steps that send nothing *)

Lemma silent_lift {A : Type} (o : Outcome A) w : sent_of (lift o w) = [].
Proof. reflexivity. Qed.

Lemma silent_ret {A : Type} (a : A) w : sent_of (ret a w) = [].
Proof. reflexivity. Qed.

Lemma silent_raise {A : Type} e w : sent_of (@raise A e w) = [].
Proof. reflexivity. Qed.

Lemma silent_aws_timestamp w : sent_of (aws_timestamp w) = [].
Proof. unfold aws_timestamp, sent_of. now destruct (clock w). Qed.

Lemma silent_random_string w : sent_of (random_string w) = [].
Proof. unfold random_string, sent_of. now destruct (nonces w). Qed.

Lemma silent_check_status resp w : sent_of (check_status resp w) = [].
Proof. unfold check_status. now destruct (raise_for_status resp). Qed.

Lemma silent_decoded resp w : sent_of (decoded resp w) = [].
Proof. unfold decoded. now destruct (json resp). Qed.

Lemma silent_text_or kind v w : sent_of (text_or kind v w) = [].
Proof. now destruct v. Qed.

Lemma silent_header_value v w : sent_of (header_value v w) = [].
Proof. now destruct v. Qed.

Create Rewrite HintDb silent.

#[local] Hint Rewrite @silent_lift @silent_ret @silent_raise
  silent_aws_timestamp silent_random_string silent_check_status
  silent_decoded silent_text_or silent_header_value : silent.

(** [H : In c (sent_of (m w))] for a step [m] that sends nothing. *)
Ltac quiet H :=
  solve [ autorewrite with silent in H; contradiction
        | match type of H with
          | context [if ?b then _ else _] =>
              destruct b; autorewrite with silent in H; contradiction
          end ].

(** Walks [H : In c (sent_of ((x <- m ;; k) w))] through the binds, leaving
    the steps that send. *)
Ltac walk H :=
  repeat first
    [ quiet H
    | apply in_sent_bind in H; destruct H as [H | (? & ? & ? & ? & H)]
    | match type of H with
      | In _ (sent_of ((if ?b then _ else _) _)) => destruct b
      end ].

(** [E : m w = (Return a, w1, s1)] for a step [m] that sends nothing, or
    that is a [send]: rewrites [s1]. *)
Ltac settle E :=
  first
    [ apply send_returns in E; subst
    | match type of E with
      | ?mw = (_, _, ?s1) =>
          let Hs := fresh "Hs" in
          assert (Hs : sent_of mw = s1) by (rewrite E; reflexivity);
          first [ autorewrite with silent in Hs; subst
                | match type of Hs with
                  | context [if ?b then _ else _] =>
                      destruct b; autorewrite with silent in Hs; subst
                  end ]
      end ].

(** Walks [H : (x <- m ;; k) w = (Return b, w', s)] through the binds. *)
Ltac unbind H :=
  repeat first
    [ match type of H with
      | (if ?b then _ else _) _ = _ => destruct b; [discriminate|]
      end
    | let E := fresh "E" in
      apply bind_return_inv in H;
      destruct H as (? & ? & ? & ? & E & H & ?); subst; settle E ];
  try settle H.

Section Upload.

Variable constants : Constants.
Variable lib : AwsSignature.Stdlib.

(** ** The calls of each phase *)

Lemma fetch_ticket_sent w c :
  In c (sent_of (fetch_ticket constants w)) -> c = token_call.
Proof.
  unfold fetch_ticket. intros H. walk H. now apply gateway_sent in H.
Qed.

Lemma apply_upload_sent buffer is_us t w c :
  In c (sent_of (apply_upload constants lib buffer is_us t w)) ->
  exists url auth origin ts tok, c = apply_call url auth origin ts tok.
Proof.
  unfold apply_upload. intros H. walk H.
  apply send_sent in H. do 5 eexists. exact H.
Qed.

Lemma put_bytes_sent buffer a w c :
  In c (sent_of (put_bytes buffer a w)) ->
  exists auth, c = put_call buffer (upload_url a) auth (_crc32 buffer).
Proof.
  unfold put_bytes. intros H. walk H.
  apply send_sent in H. eexists. exact H.
Qed.

Lemma commit_payload_nonempty session_key : commit_payload_of session_key <> "".
Proof. unfold commit_payload_of. cbn. discriminate. Qed.

Lemma commit_upload_sent t a w c :
  In c (sent_of (commit_upload lib t a w)) ->
  exists url auth ts payload ak,
    c = commit_call url auth ts (token_text a)
          (AwsSignature.sha256_hex lib payload) payload /\
    payload <> "" /\
    AwsSignature.create_signature lib "POST" url
      [("x-amz-date", ts); ("x-amz-security-token", token_text a);
       ("x-amz-content-sha256", AwsSignature.sha256_hex lib payload)]
      ak (secret_text a) (Some (token_text a)) payload = Return auth.
Proof.
  unfold commit_upload. intros H. walk H.
  apply send_sent in H.
  match goal with
  | E : lift (AwsSignature.create_signature _ _ _ _ _ _ _ _) _ = _ |- _ =>
      apply lift_returns in E; destruct E as (E & _ & _)
  end.
  do 5 eexists. split; [exact H|]. split; [apply commit_payload_nonempty|].
  eassumption.
Qed.

(** ** The checksum header *)

Lemma hex_value_digit (d : nat) :
  (d < 16)%nat -> hex_value (Str.hex_digit d) = Z.of_nat d.
Proof.
  intros Hd. do 16 (destruct d as [|d]; [reflexivity|]). lia.
Qed.

Lemma hex_digits_value fuel : forall n,
  0 <= n < 16 ^ Z.of_nat fuel ->
  digits_value (hex_digits_rev fuel n) = n.
Proof.
  induction fuel as [|fuel IH]; intros n Hn.
  - cbn in *. lia.
  - cbn [hex_digits_rev]. destruct (n <? 16) eqn:E.
    + apply Z.ltb_lt in E. cbn [digits_value].
      rewrite hex_value_digit by lia. lia.
    + apply Z.ltb_ge in E. cbn [digits_value].
      rewrite hex_value_digit.
      * rewrite IH.
        -- rewrite Z2Nat.id by (apply Z.mod_pos_bound; lia).
           pose proof (Z.div_mod n 16). lia.
        -- rewrite Nat2Z.inj_succ, Z.pow_succ_r in Hn by lia.
           split; [apply Z.div_pos; lia|].
           apply Z.div_lt_upper_bound; lia.
      * pose proof (Z.mod_pos_bound n 16). lia.
Qed.

Lemma hex_digits_length fuel : forall k n,
  (1 <= k)%nat ->
  0 <= n < 16 ^ Z.of_nat k ->
  (List.length (hex_digits_rev fuel n) <= k)%nat.
Proof.
  induction fuel as [|fuel IH]; intros k n Hk Hn.
  - cbn. lia.
  - cbn [hex_digits_rev]. destruct (n <? 16) eqn:E.
    + cbn. lia.
    + apply Z.ltb_ge in E. cbn [List.length].
      destruct k as [|[|k]]; [lia | cbn in Hn; lia |].
      apply le_n_S. apply IH; [lia|].
      rewrite (Nat2Z.inj_succ (S k)), Z.pow_succ_r in Hn by lia.
      split; [apply Z.div_pos; lia|].
      apply Z.div_lt_upper_bound; lia.
Qed.

Lemma hex_digits_are_hex fuel : forall n,
  0 <= n ->
  forallb Str.is_hex_digit (hex_digits_rev fuel n) = true.
Proof.
  induction fuel as [|fuel IH]; intros n Hn; [reflexivity|].
  cbn [hex_digits_rev]. destruct (n <? 16) eqn:E.
  - apply Z.ltb_lt in E. cbn. rewrite SignerFacts.hex_digit_is_hex by lia.
    reflexivity.
  - cbn [forallb]. rewrite SignerFacts.hex_digit_is_hex, IH.
    + reflexivity.
    + apply Z.div_pos; lia.
    + pose proof (Z.mod_pos_bound n 16). lia.
Qed.

Lemma parse_hex_app (l1 l2 : list ascii) : forall acc,
  parse_hex acc (string_of_list_ascii (l1 ++ l2)) =
  parse_hex (parse_hex acc (string_of_list_ascii l1)) (string_of_list_ascii l2).
Proof.
  induction l1 as [|c l1 IH]; intros acc; cbn; [reflexivity|]. apply IH.
Qed.

Lemma parse_hex_rev (l : list ascii) :
  parse_hex 0 (string_of_list_ascii (rev l)) = digits_value l.
Proof.
  induction l as [|c l IH]; [reflexivity|].
  cbn [rev digits_value]. rewrite parse_hex_app, IH. cbn. lia.
Qed.

Lemma parse_hex_zeros (k : nat) :
  parse_hex 0 (string_of_list_ascii (repeat "0"%char k)) = 0.
Proof. induction k as [|k IH]; [reflexivity|]. cbn. exact IH. Qed.

Lemma all_chars_of_list (p : ascii -> bool) (l : list ascii) :
  Str.all_chars p (string_of_list_ascii l) = forallb p l.
Proof. induction l as [|c l IH]; cbn; [reflexivity|]. now rewrite IH. Qed.

Lemma forallb_reversed {A : Type} (p : A -> bool) (l : list A) :
  forallb p (rev l) = forallb p l.
Proof.
  induction l as [|x l IH]; [reflexivity|].
  cbn [rev forallb]. rewrite forallb_app, IH. cbn. rewrite andb_true_r.
  apply andb_comm.
Qed.

Lemma length_of_list (l : list ascii) :
  String.length (string_of_list_ascii l) = List.length l.
Proof. induction l as [|c l IH]; cbn; [reflexivity|]. now rewrite IH. Qed.

Lemma pow16_fuel (n : Z) :
  0 <= n -> n < 16 ^ Z.of_nat (S (Z.to_nat (Z.log2 n))).
Proof.
  intros Hn. rewrite Nat2Z.inj_succ, Z2Nat.id by apply Z.log2_nonneg.
  destruct (Z.eq_dec n 0) as [->|Hz]; [cbn; lia|].
  pose proof (Z.log2_spec n ltac:(lia)) as [_ H2].
  eapply Z.lt_le_trans; [exact H2|].
  apply Z.pow_le_mono_l. lia.
Qed.

(** [f"{n:08x}"] reads back as [n], in lowercase digits, and has exactly 8 of
    them when [n] fits 32 bits. *)
Lemma format_08x_spec (n : Z) :
  0 <= n < 2 ^ 32 ->
  String.length (format_08x n) = 8%nat /\
  Str.all_chars Str.is_hex_digit (format_08x n) = true /\
  parse_hex 0 (format_08x n) = n.
Proof.
  intros Hn. unfold format_08x.
  set (fuel := S (Z.to_nat (Z.log2 n))).
  pose proof (hex_digits_length fuel 8 n ltac:(lia) ltac:(cbn; lia)) as Hlen.
  repeat split.
  - rewrite length_of_list, length_app, repeat_length, length_rev. lia.
  - rewrite all_chars_of_list, forallb_app, forallb_reversed.
    rewrite hex_digits_are_hex by lia. rewrite andb_true_r.
    apply forallb_forall. intros c Hc. apply repeat_spec in Hc. now subst.
  - rewrite parse_hex_app, parse_hex_zeros, parse_hex_rev.
    apply hex_digits_value. split; [lia|]. apply pow16_fuel. lia.
Qed.

Lemma crc_masked_range (x : Z) : 0 <= Z.land x 0xFFFFFFFF < 2 ^ 32.
Proof.
  change 0xFFFFFFFF with (Z.ones 32). rewrite Z.land_ones by lia.
  apply Z.mod_pos_bound. lia.
Qed.

(** ** The calls of a whole upload *)

Lemma upload_sent buffer refresh_token is_us w c :
  In c (sent_of (_upload_buffer constants lib buffer refresh_token is_us w)) ->
  c = token_call \/
  (exists url auth origin ts tok, c = apply_call url auth origin ts tok) \/
  (exists url auth, c = put_call buffer url auth (_crc32 buffer)) \/
  (exists url auth ts tok payload ak sk,
     c = commit_call url auth ts tok (AwsSignature.sha256_hex lib payload) payload /\
     payload <> "" /\
     AwsSignature.create_signature lib "POST" url
       [("x-amz-date", ts); ("x-amz-security-token", tok);
        ("x-amz-content-sha256", AwsSignature.sha256_hex lib payload)]
       ak sk (Some tok) payload = Return auth).
Proof.
  unfold _upload_buffer. intros H.
  apply in_sent_bind in H. destruct H as [H | (t & w1 & s1 & _ & H)].
  { left. now apply fetch_ticket_sent in H. }
  apply in_sent_bind in H. destruct H as [H | (a & w2 & s2 & _ & H)].
  { right. left. now apply apply_upload_sent in H. }
  apply in_sent_bind in H. destruct H as [H | (u & w3 & s3 & _ & H)].
  { right. right. left. apply put_bytes_sent in H. destruct H as (auth & ->).
    now exists (upload_url a), auth. }
  right. right. right. apply commit_upload_sent in H.
  destruct H as (url & auth & ts & payload & ak & -> & Hne & Hsig).
  now exists url, auth, ts, (token_text a), payload, ak, (secret_text a).
Qed.

Lemma commit_call_signed url auth ts tok payload ak sk :
  payload <> "" ->
  AwsSignature.create_signature lib "POST" url
    [("x-amz-date", ts); ("x-amz-security-token", tok);
     ("x-amz-content-sha256", AwsSignature.sha256_hex lib payload)]
    ak sk (Some tok) payload = Return auth ->
  content_hash_header_ok lib
    (commit_call url auth ts tok (AwsSignature.sha256_hex lib payload) payload).
Proof.
  intros Hne Hsig h Hh. cbn in Hh. inversion Hh; subst h; clear Hh.
  exists payload. split; [reflexivity|]. split; [reflexivity|].
  exists ak, sk, tok, ts, auth.
  split; [reflexivity|]. split; [reflexivity|]. split.
  - rewrite <- Hsig. cbn [call_method call_url call_headers commit_call].
    rewrite !(SignerFacts.create_signature_reads_date lib _ _ _ _ _ _ _ ts);
      reflexivity.
  - cbn [call_method commit_call].
    rewrite SignerFacts.signed_header_names_cases.
    replace (AwsSignature.signs_content "POST" payload) with true.
    + now left.
    + symmetry. apply SignerFacts.signs_content_iff. now split.
Qed.

(** ** The calls of an upload that returns *)

Lemma put_bytes_returns buffer a w u w' s :
  put_bytes buffer a w = (Return u, w', s) ->
  exists auth, s = [put_call buffer (upload_url a) auth (_crc32 buffer)].
Proof.
  unfold put_bytes. intros H. unbind H. eexists. reflexivity.
Qed.

Lemma commit_upload_returns t a w uri w' s :
  commit_upload lib t a w = (Return uri, w', s) ->
  exists url auth ts payload,
    s = [commit_call url auth ts (token_text a)
           (AwsSignature.sha256_hex lib payload) payload].
Proof.
  unfold commit_upload. intros H. unbind H. do 4 eexists. reflexivity.
Qed.

(** An upload that returns has sent, after the ticket request and the apply
    call, exactly one PUT and then exactly one commit. *)
Lemma upload_returns buffer refresh_token is_us w uri w' s :
  _upload_buffer constants lib buffer refresh_token is_us w = (Return uri, w', s) ->
  exists before url auth commit_url commit_auth ts tok payload,
    s = (before ++
         [put_call buffer url auth (_crc32 buffer);
          commit_call commit_url commit_auth ts tok
            (AwsSignature.sha256_hex lib payload) payload])%list /\
    Forall (fun c => c = token_call \/ call_method c = "GET") before.
Proof.
  unfold _upload_buffer. intros H.
  apply bind_return_inv in H. destruct H as (t & w1 & s1 & r1 & Ht & H & ->).
  apply bind_return_inv in H. destruct H as (a & w2 & s2 & r2 & Ha & H & ->).
  apply bind_return_inv in H. destruct H as (u & w3 & s3 & r3 & Hp & H & ->).
  apply put_bytes_returns in Hp. destruct Hp as (auth & ->).
  apply commit_upload_returns in H.
  destruct H as (url & cauth & ts & payload & ->).
  exists (s1 ++ s2)%list, (upload_url a), auth, url, cauth, ts, (token_text a), payload.
  split; [now rewrite <- app_assoc|].
  apply Forall_app. split; apply Forall_forall; intros c Hc.
  - left. apply (fetch_ticket_sent w).
    unfold sent_of. now rewrite Ht.
  - right.
    destruct (apply_upload_sent buffer is_us t w1 c)
      as (? & ? & ? & ? & ? & ->); [|reflexivity].
    unfold sent_of. now rewrite Ha.
Qed.

(** C7.  Every call that an upload of [buffer] sends with a [Content-CRC32]
    header is the PUT of [buffer] itself and the header is [_crc32 buffer]:
    8 lowercase hexadecimal digits whose value is the CRC-32 of [buffer]
    (masked to 32 bits).  Every call sent with an [x-amz-content-sha256]
    header carries there the SHA-256 hex digest of exactly the bytes of its
    body, its [authorization] is the signature computed for that body, and
    the header is among the signed ones.  An upload that returns has sent
    one such PUT and, last, one such commit. *)
Theorem upload_checksums buffer refresh_token is_us w :
  Forall (fun c => crc_header_ok buffer c /\ content_hash_header_ok lib c)
    (sent_of (_upload_buffer constants lib buffer refresh_token is_us w)) /\
  (forall uri w' s,
     _upload_buffer constants lib buffer refresh_token is_us w =
       (Return uri, w', s) ->
     exists before url auth commit_url commit_auth ts tok payload,
       s = (before ++
            [put_call buffer url auth (_crc32 buffer);
             commit_call commit_url commit_auth ts tok
               (AwsSignature.sha256_hex lib payload) payload])%list /\
       Forall (fun c => c = token_call \/ call_method c = "GET") before) /\
  String.length (_crc32 buffer) = 8%nat /\
  Str.all_chars Str.is_hex_digit (_crc32 buffer) = true /\
  parse_hex 0 (_crc32 buffer) = Z.land (Binascii.crc32 buffer) 0xFFFFFFFF.
Proof.
  split; [|split; [intros uri w' s; apply upload_returns
                  |apply format_08x_spec, crc_masked_range]].
  apply Forall_forall. intros c Hc. apply upload_sent in Hc.
  destruct Hc as [-> | [(url & auth & origin & ts & tok & ->)
                 | [(url & auth & ->)
                 | (url & auth & ts & tok & payload & ak & sk & -> & Hne & Hsig)]]].
  - split; intros v Hv; discriminate.
  - split; intros v Hv; discriminate.
  - split; intros v Hv; destruct auth; try discriminate;
      cbn in Hv; inversion Hv; now split.
  - split; [intros v Hv; discriminate|].
    eapply commit_call_signed; eassumption.
Qed.

(** ** Failures of an upload *)





End Upload.

(** ** Sample uploads *)

(** C7 on the upload of the five bytes [hello]: the calls sent are the
    ticket request, the apply call, the PUT with the checksum [3610a686] and
    the commit with the digest of its body. *)
Lemma upload_checksums_witness :
  Forall (fun c => crc_header_ok "hello" c /\
                   content_hash_header_ok AwsSignature.python_stdlib c)
    (sent_of (_upload_buffer sample_constants AwsSignature.python_stdlib
                "hello" "tok" false (upload_world sample_ticket_reply 200 2000))) /\
  map (fun c => Dict.get (call_headers c) "Content-CRC32")
    (sent_of (_upload_buffer sample_constants AwsSignature.python_stdlib
                "hello" "tok" false (upload_world sample_ticket_reply 200 2000)))
    = [None; None; Some "3610a686"; None] /\
  map (fun c => Dict.get (call_headers c) "x-amz-content-sha256")
    (sent_of (_upload_buffer sample_constants AwsSignature.python_stdlib
                "hello" "tok" false (upload_world sample_ticket_reply 200 2000)))
    = [None; None; None;
       Some "c9abaebf88e04a3e851659d217da9176699df1a2225c3b5e4dfb39c521c8304c"] /\
  AwsSignature.sha256_hex AwsSignature.python_stdlib
    (commit_payload_of (Json.Str "sk-1"))
    = "c9abaebf88e04a3e851659d217da9176699df1a2225c3b5e4dfb39c521c8304c".
Proof.
  split.
  - exact (proj1 (upload_checksums sample_constants AwsSignature.python_stdlib
                    "hello" "tok" false
                    (upload_world sample_ticket_reply 200 2000))).
  - vm_compute. repeat split.
Defined.



End UploadFacts.


Module ServiceFacts.
Import Errors Service.

Lemma choice_member (draw : nat) (seq : list string) (t : string) :
  choice draw seq = Some t -> In t seq.
Proof. unfold choice. apply nth_error_In. Qed.

Lemma choice_nonempty (draw : nat) (x : string) (rest : list string) :
  exists t, choice draw (x :: rest) = Some t.
Proof.
  unfold choice.
  destruct (nth_error (x :: rest) (draw mod List.length (x :: rest))) as [t|] eqn:E.
  - now exists t.
  - apply nth_error_None in E.
    pose proof (Nat.mod_upper_bound draw (List.length (x :: rest))) as H.
    cbn [List.length] in *. lia.
Qed.

(** C9.  Whatever the random source draws: without an override (or with an
    empty one) and with no configured token the call fails with the "no
    session" error; with exactly one configured token it returns that token;
    and a returned token is always a member of the override set when a
    non-empty override is given, else of the configured set.  The call
    returns whenever that set is not empty. *)
Theorem choose_token_member (self : JimengClient) (override : SessionArg)
    (draw : nat) :
  (given override = false -> _session_ids self = [] ->
   _choose_token self override draw =
     Raise (JimengAPIError (Text "未提供 session_id") None)) /\
  (forall t, given override = false -> _session_ids self = [t] ->
   _choose_token self override draw = Return t) /\
  (forall t, _choose_token self override draw = Return t ->
   if given override then In t (override_tokens override)
   else In t (_session_ids self)) /\
  ((if given override then override_tokens override else _session_ids self) <> [] ->
   exists t, _choose_token self override draw = Return t).
Proof.
  unfold _choose_token. repeat split.
  - intros Hg Hs. now rewrite Hg, Hs.
  - intros t Hg Hs. rewrite Hg, Hs. unfold choice. cbn [List.length].
    now rewrite Nat.mod_1_r.
  - intros t H. destruct (given override);
      match type of H with
      | match ?l with _ => _ end = _ =>
          destruct l as [|x rest] eqn:El; [discriminate|];
          destruct (choice draw (x :: rest)) as [t'|] eqn:Ec; [|discriminate];
          inversion H; subst t'; now apply choice_member in Ec
      end.
  - intros Hne.
    destruct (if given override then override_tokens override
              else _session_ids self) as [|x rest]; [contradiction|].
    destruct (choice_nonempty draw x rest) as (t & Ht).
    exists t. now rewrite Ht.
Qed.

(** C9 on a pool of three tokens, with and without override. *)
Lemma choose_token_member_witness :
  _choose_token (JimengClient_init Absent) Absent 7 =
    Raise (JimengAPIError (Text "未提供 session_id") None) /\
  _choose_token (JimengClient_init (One "a")) Absent 7 = Return "a" /\
  _choose_token (JimengClient_init (Many ["a"; "b"; "c"])) Absent 7 = Return "b" /\
  _choose_token (JimengClient_init (Many ["a"; "b"; "c"])) (Many ["x"; "y"]) 7
    = Return "y" /\
  _choose_token (JimengClient_init (Many ["a"; "b"; "c"])) (Many []) 7
    = Return "b".
Proof.
  split.
  - exact (proj1 (choose_token_member (JimengClient_init Absent) Absent 7)
             eq_refl eq_refl).
  - repeat split.
Defined.

End ServiceFacts.

Module CompositionFacts.
Import Errors Core Net Images Composition.

Section Compose.

Variable constants : Constants.
Variable lib : AwsSignature.Stdlib.
Variable POLLING_CONFIG : Poller.PollingConfig.
Variable host : Host.

(** C10.  With an empty image list the composition raises at once, and
    with more than 10 images likewise: in both cases nothing has been sent
    and the world is untouched (no upload, no submission).  Hence a run that
    sends a call, or that returns, was given 1 to 10 images. *)
Theorem composition_image_count (model prompt : string)
    (images : list ImageSource) (refresh_token ratio resolution : string)
    (sample_strength : Q) (w : World) :
  (images = [] ->
   generate_image_composition constants lib POLLING_CONFIG host model prompt
     images refresh_token ratio resolution sample_strength w =
   (Raise (JimengAPIError (Text "至少需要提供1张图片") None), w, [])) /\
  ((10 < List.length images)%nat ->
   generate_image_composition constants lib POLLING_CONFIG host model prompt
     images refresh_token ratio resolution sample_strength w =
   (Raise (JimengAPIError (Text "最多支持10张图片") None), w, [])) /\
  (sent_of
     (generate_image_composition constants lib POLLING_CONFIG host model
        prompt images refresh_token ratio resolution sample_strength w) <> [] \/
   (exists urls,
      outcome_of
        (generate_image_composition constants lib POLLING_CONFIG host model
           prompt images refresh_token ratio resolution sample_strength w)
      = Return urls) ->
   (1 <= List.length images <= 10)%nat).
Proof.
  unfold generate_image_composition.
  destruct images as [|image rest].
  - split; [reflexivity|]. split; [cbn; lia|].
    cbn. intros [H | (urls & H)]; [now elim H | discriminate].
  - destruct (10 <? List.length (image :: rest))%nat eqn:E.
    + split; [discriminate|]. split; [reflexivity|].
      cbn. intros [H | (urls & H)]; [now elim H | discriminate].
    + apply Nat.ltb_ge in E. split; [discriminate|].
      split; [intros H; lia|].
      intros _. cbn [List.length] in *. lia.
Qed.

End Compose.

(** C10 on no image, on eleven images and on one image (a full run:
    upload, submission, two polling rounds). *)
Lemma composition_image_count_witness :
  compose_sample [] composition_world =
    (Raise (JimengAPIError (Text "至少需要提供1张图片") None), composition_world, []) /\
  compose_sample (repeat (Raw "hello") 11) composition_world =
    (Raise (JimengAPIError (Text "最多支持10张图片") None), composition_world, []) /\
  outcome_of (compose_sample [Raw "hello"] composition_world) =
    Return [Json.Str "https://cdn.example.com/1.webp"] /\
  List.length (sent_of (compose_sample [Raw "hello"] composition_world)) = 7%nat.
Proof.
  split; [|split].
  - exact (proj1 (composition_image_count sample_constants
                    AwsSignature.python_stdlib Poller.sample_config sample_host
                    "jimeng-4.0" "more neon" [] "tok" "1:1" "2k" (1 # 2)
                    composition_world) eq_refl).
  - apply (proj1 (proj2 (composition_image_count sample_constants
                    AwsSignature.python_stdlib Poller.sample_config sample_host
                    "jimeng-4.0" "more neon" (repeat (Raw "hello") 11) "tok"
                    "1:1" "2k" (1 # 2) composition_world))).
    cbn. lia.
  - vm_compute. split; reflexivity.
Defined.

End CompositionFacts.

Module GatewayFacts.
Import Errors Core.

(** ** The retry loop on any script *)

Lemma request_loop_bounds max delay stream world : forall retries sleeps,
  0 <= retries ->
  let r := request_loop max delay stream retries sleeps world in
  retries <= retries_used r <= Z.max retries max /\
  (exists consumed,
     world = (consumed ++ unread r)%list /\
     Z.of_nat (List.length consumed) <= retries_used r - retries + 1) /\
  (exists fresh,
     slept r = (fresh ++ sleeps)%list /\
     Z.of_nat (List.length fresh) = retries_used r - retries /\
     Forall (eq delay) fresh).
Proof.
  induction world as [|a world IH]; intros retries sleeps Hr.
  - cbn. split; [lia|]. split.
    + exists []. split; [reflexivity | cbn; lia].
    + exists []. cbn. split; [reflexivity|]. split; [lia | constructor].
  - assert (Hstep :
      let r := request_loop max delay stream (retries + 1) (delay :: sleeps) world in
      retries < max ->
      retries <= retries_used r <= Z.max retries max /\
      (exists consumed,
         a :: world = (consumed ++ unread r)%list /\
         Z.of_nat (List.length consumed) <= retries_used r - retries + 1) /\
      (exists fresh,
         slept r = (fresh ++ sleeps)%list /\
         Z.of_nat (List.length fresh) = retries_used r - retries /\
         Forall (eq delay) fresh)).
    { intros r Hlt. subst r.
      destruct (IH (retries + 1) (delay :: sleeps) ltac:(lia))
        as (Hb & (consumed & Hc & Hlen) & (fresh & Hs & Hf & Hall)).
      split; [lia|]. split.
      - exists (a :: consumed). split; [cbn; now rewrite <- Hc|].
        cbn [List.length]. lia.
      - exists (fresh ++ [delay])%list. split; [|split].
        + rewrite Hs, <- app_assoc. reflexivity.
        + rewrite length_app. cbn [List.length]. lia.
        + apply Forall_app. split; [assumption | repeat constructor]. }
    assert (Hstop : forall o,
      let r := mkRun o retries sleeps world in
      retries <= retries_used r <= Z.max retries max /\
      (exists consumed,
         a :: world = (consumed ++ unread r)%list /\
         Z.of_nat (List.length consumed) <= retries_used r - retries + 1) /\
      (exists fresh,
         slept r = (fresh ++ sleeps)%list /\
         Z.of_nat (List.length fresh) = retries_used r - retries /\
         Forall (eq delay) fresh)).
    { intros o r. subst r. cbn. split; [lia|]. split.
      - exists [a]. split; [reflexivity | cbn; lia].
      - exists []. cbn. split; [reflexivity|]. split; [lia | constructor]. }
    destruct a as [exc|resp]; cbn [request_loop].
    + destruct (retries <? max) eqn:E.
      * apply Hstep. now apply Z.ltb_lt.
      * apply Hstop.
    + destruct stream.
      * destruct (raise_for_status resp); apply Hstop.
      * destruct ((400 <=? status_code resp) && (retries <? max)) eqn:E.
        -- apply Hstep. apply andb_true_iff in E. now apply Z.ltb_lt.
        -- destruct (raise_for_status resp); [apply Hstop|].
           destruct (check_result resp); apply Hstop.
Qed.

(** X1.  Whatever the world answers and whether the call streams or not,
    [request] retries at most [MAX_RETRY_COUNT] times, sends at most one
    call more than it retried, sleeps exactly once per retry and always for
    [RETRY_DELAY], and reads the replies in order without skipping any. *)
Theorem request_attempts_bounded (cfg : RetryConfig) (stream : bool)
    (world : list Attempt) :
  0 <= retries_used (request cfg stream world)
    <= Z.max 0 (MAX_RETRY_COUNT cfg) /\
  Z.of_nat (attempts_made world (request cfg stream world))
    <= retries_used (request cfg stream world) + 1 /\
  Z.of_nat (List.length (slept (request cfg stream world)))
    = retries_used (request cfg stream world) /\
  Forall (eq (RETRY_DELAY cfg)) (slept (request cfg stream world)) /\
  exists consumed,
    world = (consumed ++ unread (request cfg stream world))%list.
Proof.
  unfold request.
  destruct (request_loop_bounds (MAX_RETRY_COUNT cfg) (RETRY_DELAY cfg) stream
              world 0 [] (Z.le_refl 0))
    as (Hb & (consumed & Hc & Hlen) & (fresh & Hs & Hf & Hall)).
  split; [exact Hb|]. split; [|split; [|split]].
  - unfold attempts_made. rewrite Hc at 1. rewrite length_app. lia.
  - rewrite Hs, app_nil_r. lia.
  - now rewrite Hs, app_nil_r.
  - now exists consumed.
Qed.

(** ** The envelope *)

(** X2.  [check_result] hands out a value only for an envelope without
    result code (the whole payload) or with the code [0] or ["0"] (its
    [data] field); every [JimengAPIError] it raises for a decoded envelope
    carries the HTTP status of the response, and the message is never
    empty. *)
Theorem check_result_guards_data (response : Response) :
  (forall v, check_result response = Return v ->
     exists payload,
       json response = Some (Json.Obj payload) /\
       ((Json.is_none (Json.get payload "ret") = true /\ v = Json.Obj payload) \/
        (Json.is_none (Json.get payload "ret") = false /\
         str_is_zero (Json.get payload "ret") = true /\
         v = Json.get payload "data"))) /\
  (forall message sc,
     check_result response = Raise (JimengAPIError message sc) ->
     (json response = None /\ sc = None) \/
     (sc = Some (status_code response) /\
      exists m, message = Shown m /\ Json.truthy m = true)).
Proof.
  unfold check_result. destruct (json response) as [[| | | | |payload]|];
    try (split; intros; discriminate).
  - destruct (Json.is_none (Json.get payload "ret")) eqn:En.
    + split; [|intros; discriminate].
      intros v H. inversion H. exists payload. split; [reflexivity|]. now left.
    + destruct (str_is_zero (Json.get payload "ret")) eqn:Ez.
      * split; [|intros; discriminate].
        intros v H. inversion H. exists payload. split; [reflexivity|].
        right. auto.
      * assert (Hmsg : forall m,
                  Json.truthy (if Json.truthy m then m else Json.Str "请求失败")
                  = true).
        { intros m. destruct (Json.truthy m) eqn:Em; [exact Em | reflexivity]. }
        destruct (Json.truthy (Json.get payload "errmsg")); cbn [and_then].
        { split; [intros; discriminate|]. intros message sc H. inversion H.
          right. split; [reflexivity|]. eexists. split; [reflexivity|].
          apply Hmsg. }
        destruct (Json.lookup "data" payload) as [[| | | | |data]|];
          cbn [and_then]; split; try (intros; discriminate);
          intros message sc H; inversion H; right; (split; [reflexivity|]);
          eexists; (split; [reflexivity|]); first [apply Hmsg | reflexivity].
  - split; [intros; discriminate|]. intros message sc H. inversion H. now left.
Qed.

End GatewayFacts.

Module CoreApiFacts.
Import Errors Core Net CoreApi NetFacts.

(** ** Slices *)

Lemma length_append (a b : string) :
  String.length (a ++ b) = (String.length a + String.length b)%nat.
Proof. induction a as [|c a IH]; cbn; [reflexivity|]. now rewrite IH. Qed.

Lemma substring_all (s : string) : substring 0 (String.length s) s = s.
Proof. induction s as [|c s IH]; cbn; [reflexivity|]. now rewrite IH. Qed.

Lemma substring_skip (p t : string) (m : nat) :
  substring (String.length p) m (p ++ t) = substring 0 m t.
Proof. induction p as [|c p IH]; cbn; [reflexivity|]. exact IH. Qed.

Lemma drop_append (p t : string) : drop (String.length p) (p ++ t) = t.
Proof.
  unfold drop. rewrite length_append, substring_skip.
  replace (String.length p + String.length t - String.length p)%nat
    with (String.length t) by lia.
  apply substring_all.
Qed.

Lemma lower_append (a b : string) :
  Str.lower (a ++ b) = (Str.lower a ++ Str.lower b)%string.
Proof. induction a as [|c a IH]; cbn; [reflexivity|]. now rewrite IH. Qed.

Lemma lower_length (a : string) : String.length (Str.lower a) = String.length a.
Proof. induction a as [|c a IH]; cbn; [reflexivity|]. now rewrite IH. Qed.

Lemma prefix_append (p t : string) : prefix p (p ++ t) = true.
Proof.
  induction p as [|c p IH]; cbn; [now destruct t|].
  destruct (ascii_dec c c) as [_|n]; [exact IH | now destruct n].
Qed.

(** ** Tokens *)

(** X3.  A token is a US token exactly through its first three characters:
    whatever prefix spells [us-] in any letter case marks it, and
    [normalize_token] removes exactly that prefix; a token without the mark
    is left as it is. *)
Theorem normalize_token_strips_mark :
  (forall mark rest,
     Str.lower mark = "us-" ->
     is_us_token (mark ++ rest) = true /\
     normalize_token (mark ++ rest) = rest) /\
  (forall token,
     is_us_token token = false -> normalize_token token = token) /\
  (forall token,
     is_us_token token = true ->
     token = (Str.take 3 token ++ normalize_token token)%string /\
     Str.lower (Str.take 3 token) = "us-").
Proof.
  split; [|split].
  - intros mark rest Hm.
    assert (Hus : is_us_token (mark ++ rest) = true).
    { unfold is_us_token, Str.startswith. rewrite lower_append, Hm.
      apply prefix_append. }
    split; [exact Hus|]. unfold normalize_token. rewrite Hus.
    assert (Hl : String.length mark = 3%nat)
      by (rewrite <- lower_length, Hm; reflexivity).
    rewrite <- Hl. apply drop_append.
  - intros token H. unfold normalize_token. now rewrite H.
  - intros token H. unfold normalize_token. rewrite H.
    unfold is_us_token, Str.startswith in H.
    destruct token as [|a [|b [|c rest]]]; cbn [Str.lower prefix] in H;
      repeat match type of H with
             | (if ?d then _ else _) = true => destruct d; [|discriminate]
             end; try discriminate.
    unfold drop, Str.take. cbn [String.length substring Nat.sub].
    rewrite Nat.sub_0_r, substring_all.
    replace (substring 0 0 rest) with EmptyString by now destruct rest.
    split; [reflexivity|]. cbn [Str.lower]. congruence.
Qed.

(** ** The request signature *)

Lemma uri_suffix_append (head tail : string) :
  String.length tail = 7%nat -> uri_suffix (head ++ tail) = tail.
Proof.
  intros H. unfold uri_suffix. rewrite length_append, H.
  replace (7 <=? String.length head + 7)%nat with true
    by (symmetry; apply Nat.leb_le; lia).
  replace (String.length head + 7 - 7)%nat with (String.length head) by lia.
  apply drop_append.
Qed.

Lemma uri_suffix_short (uri : string) :
  (String.length uri <= 7)%nat -> uri_suffix uri = uri.
Proof.
  intros H. unfold uri_suffix.
  destruct (7 <=? String.length uri)%nat eqn:E; [|reflexivity].
  apply Nat.leb_le in E. assert (E7 : String.length uri = 7%nat) by lia.
  rewrite E7. cbn [Nat.sub]. unfold drop. rewrite Nat.sub_0_r. apply substring_all.
Qed.

(** X4.  The signature of a request reads the URI through its last seven
    characters only: whatever precedes them does not change the [Sign]
    header. *)
Theorem sign_request_reads_suffix (constants : ApiConstants)
    (md5 : string -> string) (head tail : string) (device_time : Z) :
  String.length tail = 7%nat ->
  sign_request constants md5 (head ++ tail) device_time =
  sign_request constants md5 tail device_time.
Proof.
  intros H. unfold sign_request.
  rewrite (uri_suffix_append head tail H).
  rewrite (uri_suffix_short tail) by lia. reflexivity.
Qed.

Lemma sign_request_reads_suffix_witness :
  String.length "v2/info" = 7%nat /\
  sign_request sample_api_constants (fun raw => Str.hexlify (Sha256.digest raw))
    ("/passport/account/" ++ "v2/info") 1700000000 =
  sign_request sample_api_constants (fun raw => Str.hexlify (Sha256.digest raw))
    "v2/info" 1700000000.
Proof.
  split; [reflexivity|].
  apply (sign_request_reads_suffix sample_api_constants
           (fun raw => Str.hexlify (Sha256.digest raw))
           "/passport/account/" "v2/info" 1700000000).
  reflexivity.
Defined.

(** ** Default parameters *)

Lemma lookup_app (key : string) (d e : Params) :
  Json.lookup key (d ++ e) =
  match Json.lookup key d with
  | Some v => Some v
  | None => Json.lookup key e
  end.
Proof.
  induction d as [|[k v] d IH]; cbn; [reflexivity|].
  destruct (String.eqb k key); [reflexivity | exact IH].
Qed.

Lemma setdefault_lookup (d : Params) (key' key : string) (v : Json.value) :
  Json.lookup key (setdefault d key' v) =
  match Json.lookup key d with
  | Some x => Some x
  | None => if String.eqb key' key then Some v else None
  end.
Proof.
  unfold setdefault. destruct (Json.lookup key' d) eqn:E.
  - destruct (Json.lookup key d) eqn:E'; [reflexivity|].
    destruct (String.eqb_spec key' key); [congruence | reflexivity].
  - rewrite lookup_app. cbn. reflexivity.
Qed.

Lemma setdefault_extends (d : Params) (key : string) (v : Json.value) :
  exists added, setdefault d key v = (d ++ added)%list.
Proof.
  unfold setdefault. destruct (Json.lookup key d).
  - exists []. now rewrite app_nil_r.
  - now exists [(key, v)].
Qed.

Ltac extend_once :=
  match goal with
  | |- exists added, setdefault ?d ?k ?v = (?e ++ added)%list =>
      let a := fresh "added" in
      let H := fresh "H" in
      let b := fresh "added" in
      let G := fresh "H" in
      assert (exists added, d = (e ++ added)%list) as [a H];
      [ | destruct (setdefault_extends d k v) as [b G];
          exists (a ++ b)%list; rewrite G, app_assoc; f_equal; exact H ]
  end.

(** X5.  [build_default_params] never replaces what the caller passed: the
    caller's items stay in front, in their order and with their values; every
    default name is present in the result; and no name other than the
    caller's and the defaults' appears. *)
Theorem default_params_keep_caller (constants : ApiConstants)
    (refresh_token : string) (extra : Params) :
  (exists added,
     build_default_params constants refresh_token (Some extra) =
     (extra ++ added)%list) /\
  (forall key value,
     Json.lookup key extra = Some value ->
     Json.lookup key (build_default_params constants refresh_token (Some extra)) =
     Some value) /\
  (forall key,
     In key (default_keys refresh_token) ->
     Json.lookup key (build_default_params constants refresh_token (Some extra))
     <> None) /\
  (forall key,
     Json.lookup key extra = None ->
     ~ In key (default_keys refresh_token) ->
     Json.lookup key (build_default_params constants refresh_token (Some extra))
     = None).
Proof.
  unfold build_default_params, default_keys. cbv beta iota zeta.
  split; [|split; [|split]].
  - destruct (is_us_token refresh_token);
      repeat extend_once; exists []; symmetry; apply app_nil_r.
  - intros key value H.
    destruct (is_us_token refresh_token); rewrite !setdefault_lookup, H;
      reflexivity.
  - intros key Hin.
    destruct (is_us_token refresh_token); rewrite !setdefault_lookup;
      (destruct (Json.lookup key extra); [discriminate|]);
      cbn [In] in Hin;
      repeat (destruct Hin as [<- | Hin]; [cbn; discriminate|]);
      destruct Hin.
  - intros key H Hout.
    destruct (is_us_token refresh_token); rewrite !setdefault_lookup, H;
      cbn [In] in Hout;
      repeat match goal with
             | |- context [String.eqb ?a key] =>
                 let E := fresh "E" in
                 destruct (String.eqb_spec a key) as [E|E];
                   [exfalso; apply Hout; rewrite E; tauto|]
             end; reflexivity.
Qed.

(** ** Credits and liveness *)

(** X6.  [get_token_live_status] turns every [JimengAPIError] of the gateway
    into the answer [False] and never raises one itself; it answers [True]
    only when the gateway returned a dict whose [user_id] is truthy; and it
    sends exactly what the gateway sent. *)
Theorem live_status_absorbs_api_errors (cfg : RetryConfig)
    (refresh_token : string) (w : World) :
  (forall e,
     outcome_of (get_token_live_status cfg refresh_token w) = Raise e ->
     is_JimengAPIError e = false) /\
  (forall message sc,
     outcome_of (gateway cfg live_call w) = Raise (JimengAPIError message sc) ->
     outcome_of (get_token_live_status cfg refresh_token w) = Return false) /\
  (outcome_of (get_token_live_status cfg refresh_token w) = Return true ->
   exists fields,
     outcome_of (gateway cfg live_call w) = Return (Json.Obj fields) /\
     Json.truthy (Json.get fields "user_id") = true) /\
  sent_of (get_token_live_status cfg refresh_token w) =
  sent_of (gateway cfg live_call w).
Proof.
  unfold get_token_live_status, outcome_of, sent_of.
  destruct (gateway cfg live_call w) as [[[result|e|] w1] sent];
    cbn [fst snd]; [destruct result | destruct e |];
    cbn [JsonText.get is_JimengAPIError fst snd];
    (split; [|split; [|split]]); try reflexivity; try discriminate;
    try (intros e' H; injection H as <-; reflexivity).
  intros H. exists fields. split; [reflexivity|]. now injection H.
Qed.

(** X7.  A credit summary that [get_credit] returns carries the three
    credits of the reply under its own names, and when they are integers
    the [totalCredit] is their sum; a reply without the [credit] record
    raises instead, and only the credit request is ever sent. *)
Theorem get_credit_totals (cfg : RetryConfig) (refresh_token : string)
    (w : World) :
  (forall summary,
     outcome_of (get_credit cfg refresh_token w) = Return summary ->
     exists result credit gift purchase vip total,
       outcome_of (gateway cfg credit_call w) = Return result /\
       JsonText.item result "credit" = Return credit /\
       JsonText.item credit "gift_credit" = Return gift /\
       JsonText.item credit "purchase_credit" = Return purchase /\
       JsonText.item credit "vip_credit" = Return vip /\
       summary = Json.Obj [("giftCredit", gift); ("purchaseCredit", purchase);
                           ("vipCredit", vip); ("totalCredit", total)] /\
       (forall g p v,
          gift = Json.Int g -> purchase = Json.Int p -> vip = Json.Int v ->
          total = Json.Int (g + p + v))) /\
  (forall fields,
     outcome_of (gateway cfg credit_call w) = Return (Json.Obj fields) ->
     Json.lookup "credit" fields = None ->
     outcome_of (get_credit cfg refresh_token w) = Raise (PythonError "KeyError")) /\
  (forall c, In c (sent_of (get_credit cfg refresh_token w)) -> c = credit_call).
Proof.
  split; [|split].
  - unfold get_credit, bind, lift, ret, outcome_of.
    destruct (gateway cfg credit_call w) as [[[result|e|] w1] sent]; cbn;
      try discriminate.
    destruct (JsonText.item result "credit") as [credit|e|] eqn:Ec; cbn;
      try discriminate.
    destruct (JsonText.item credit "gift_credit") as [gift|e|] eqn:Eg; cbn;
      try discriminate.
    destruct (JsonText.item credit "purchase_credit") as [purchase|e|] eqn:Ep;
      cbn;
      try discriminate.
    destruct (JsonText.item credit "vip_credit") as [vip|e|] eqn:Ev; cbn;
      try discriminate.
    destruct (py_add gift purchase) as [sum1|e|] eqn:E1; cbn; try discriminate.
    destruct (py_add sum1 vip) as [total|e|] eqn:E2; cbn; try discriminate.
    intros summary H. inversion H; subst.
    exists result, credit, gift, purchase, vip, total.
    repeat (split; [first [reflexivity | assumption]|]).
    intros g p v -> -> ->. cbn in E1. inversion E1; subst.
    cbn in E2. now inversion E2.
  - intros fields Hg Hl. unfold get_credit, bind, lift, outcome_of in *.
    destruct (gateway cfg credit_call w) as [[[result|e|] w1] sent]; cbn in *;
      try discriminate.
    inversion Hg; subst. cbn. now rewrite Hl.
  - intros c H. unfold get_credit in H.
    apply in_sent_bind in H. destruct H as [H | (a & w1 & s1 & _ & H)];
      [now apply gateway_sent in H|].
    exfalso. revert H. unfold bind, lift, ret, sent_of.
    repeat match goal with
           | |- context [match ?o with Return _ => _ | Raise _ => _ | Starved => _ end] =>
               destruct o; cbn
           end; auto.
Qed.

End CoreApiFacts.

Module PollLoopFacts.
Import Poller PollerFacts.

Section Loop.

Context {T : Type}.
Implicit Types (self : SmartPoller) (st : LoopState) (rd : Round T)
               (rounds : list (Round T)).

Lemma next_state_count self st rd :
  st_poll_count (next_state self st rd) = st_poll_count st + 1.
Proof.
  unfold next_state. now destruct (update_stability st (fetched rd)).
Qed.

(** At the round limit the chain of tests always finds a reason. *)
Lemma round_limit_chooses self s n k e :
  max_poll_count self <= n -> choose_exit_reason self s n k e <> None.
Proof.
  intros H. unfold choose_exit_reason.
  destruct (is_terminal (status s)); [discriminate|].
  destruct (expected_item_count self <=? item_count s); [discriminate|].
  destruct ((stable_rounds self <=? k) && (0 <? item_count s)); [discriminate|].
  replace (max_poll_count self <=? n) with true
    by (symmetry; apply Z.leb_le; exact H).
  discriminate.
Qed.

Lemma poll_loop_stops self rounds : forall st,
  0 <= st_poll_count st < Z.max 1 (max_poll_count self) ->
  Z.max 1 (max_poll_count self) <= st_poll_count st + Z.of_nat (List.length rounds) ->
  forall st', poll_loop self st rounds <> StillPolling st'.
Proof.
  induction rounds as [|rd rest IH]; intros st H0 H st'.
  - cbn in H. lia.
  - rewrite poll_loop_cons.
    destruct (choose_exit_reason _ _ _ _ _) as [r|] eqn:C; [discriminate|].
    destruct (Qle_bool _ _); [discriminate|].
    assert (Hlim : ~ max_poll_count self <= st_poll_count st + 1)
      by (intros Hle; now apply (round_limit_chooses self (fetched rd) _
            (fst (update_stability st (fetched rd))) (elapsed rd)) in Hle).
    apply IH; rewrite next_state_count; [lia|].
    cbn [List.length] in H. lia.
Qed.

Lemma poll_loop_count_bounds self rounds : forall st result data,
  0 <= st_poll_count st ->
  poll_loop self st rounds = Returned result data ->
  st_poll_count st + 1 <= poll_count result
    <= Z.max (st_poll_count st + 1) (max_poll_count self) /\
  poll_count result <= st_poll_count st + Z.of_nat (List.length rounds).
Proof.
  induction rounds as [|rd rest IH]; intros st result data H0 H;
    [discriminate|].
  rewrite poll_loop_cons in H. cbn [List.length].
  destruct (choose_exit_reason _ _ _ _ _) as [r|] eqn:C.
  - inversion H; subst. cbn [poll_count]. lia.
  - destruct (Qle_bool _ _); [discriminate|].
    apply IH in H; [|rewrite next_state_count; lia].
    rewrite next_state_count in H.
    assert (Hlim : ~ max_poll_count self <= st_poll_count st + 1)
      by (intros Hle; now apply (round_limit_chooses self (fetched rd) _
            (fst (update_stability st (fetched rd))) (elapsed rd)) in Hle).
    lia.
Qed.

(** X8.  The loop fetches at most [max(1, max_poll_count)] times: on a
    script that long it has returned or raised, and the [poll_count] of a
    returned result lies between 1 and that bound and never exceeds the
    rounds supplied. *)
Theorem poll_stops_within_round_limit self rounds :
  (Z.max 1 (max_poll_count self) <= Z.of_nat (List.length rounds) ->
   forall st, poll self rounds <> StillPolling st) /\
  (forall result data,
     poll self rounds = Returned result data ->
     1 <= poll_count result <= Z.max 1 (max_poll_count self) /\
     poll_count result <= Z.of_nat (List.length rounds)).
Proof.
  unfold poll. split.
  - intros H st. apply poll_loop_stops; cbn [initial_state st_poll_count]; lia.
  - intros result data H.
    apply poll_loop_count_bounds in H; cbn [initial_state st_poll_count] in *; lia.
Qed.

Lemma poll_loop_reports_round self rounds : forall st result data,
  0 <= st_poll_count st ->
  poll_loop self st rounds = Returned result data ->
  exists rd,
    nth_error rounds (Z.to_nat (poll_count result - st_poll_count st - 1)) = Some rd /\
    data = payload rd /\
    res_status result = status (fetched rd) /\
    res_fail_code result = fail_code (fetched rd) /\
    res_item_count result = item_count (fetched rd) /\
    elapsed_time result = elapsed rd.
Proof.
  induction rounds as [|rd rest IH]; intros st result data H0 H;
    [discriminate|].
  pose proof (poll_loop_count_bounds self _ _ _ _ H0 H) as Hb.
  rewrite poll_loop_cons in H.
  destruct (choose_exit_reason _ _ _ _ _) as [r|] eqn:C.
  - inversion H; subst. cbn [poll_count].
    replace (st_poll_count st + 1 - st_poll_count st - 1) with 0 by lia.
    exists rd. cbn. repeat split.
  - destruct (Qle_bool _ _); [discriminate|].
    pose proof H as H'.
    apply poll_loop_count_bounds in H'; [|rewrite next_state_count; lia].
    apply IH in H; [|rewrite next_state_count; lia].
    rewrite next_state_count in H, H'.
    destruct H as (rd' & Hn & Hrest). exists rd'. split; [|exact Hrest].
    replace (Z.to_nat (poll_count result - st_poll_count st - 1))
      with (S (Z.to_nat (poll_count result - (st_poll_count st + 1) - 1)))
      by lia.
    exact Hn.
Qed.

(** X9.  What [poll] returns is what the last fetch returned: the data, the
    status, the fail code, the item count and the clock reading of the
    result are those of round number [poll_count], not of an earlier
    round. *)
Theorem poll_result_is_last_round self rounds result data :
  poll self rounds = Returned result data ->
  exists rd,
    nth_error rounds (Z.to_nat (poll_count result - 1)) = Some rd /\
    data = payload rd /\
    res_status result = status (fetched rd) /\
    res_fail_code result = fail_code (fetched rd) /\
    res_item_count result = item_count (fetched rd) /\
    elapsed_time result = elapsed rd.
Proof.
  intros H. unfold poll in H.
  apply poll_loop_reports_round in H; [|cbn; lia].
  cbn [initial_state st_poll_count] in H.
  now replace (poll_count result - 0 - 1) with (poll_count result - 1) in H by lia.
Qed.

Lemma Qle_bool_false_lt (a b : Q) : Qle_bool a b = false -> (b < a)%Q.
Proof.
  intros H. apply Qnot_le_lt. intros Hle. apply Qle_bool_iff in Hle. congruence.
Qed.

Lemma no_reason_means_no_items self s n k e :
  choose_exit_reason self s n k e = None ->
  Qle_bool (timeout_seconds self) e = true ->
  is_terminal (status s) = false /\ item_count s <= 0 /\
  item_count s < expected_item_count self /\ n < max_poll_count self.
Proof.
  unfold choose_exit_reason. intros H Ht.
  destruct (is_terminal (status s)); [discriminate|].
  destruct (expected_item_count self <=? item_count s) eqn:E1; [discriminate|].
  destruct ((stable_rounds self <=? k) && (0 <? item_count s)); [discriminate|].
  destruct (max_poll_count self <=? n) eqn:E2; [discriminate|].
  rewrite Ht in H. cbn [andb] in H.
  destruct (0 <? item_count s) eqn:E3; [discriminate|].
  apply Z.leb_gt in E1. apply Z.leb_gt in E2. apply Z.ltb_ge in E3. auto.
Qed.

Lemma poll_loop_timeout_cause self rounds : forall st e s i,
  poll_loop self st rounds = RaisedPollingTimeout e s i ->
  (timeout_seconds self <= e)%Q /\ i <= 0 /\ is_terminal s = false /\
  i < expected_item_count self /\
  exists rd, In rd rounds /\ elapsed rd = e /\ status (fetched rd) = s /\
             item_count (fetched rd) = i.
Proof.
  induction rounds as [|rd rest IH]; intros st e s i H; [discriminate|].
  rewrite poll_loop_cons in H.
  destruct (choose_exit_reason _ _ _ _ _) as [r|] eqn:C; [discriminate|].
  destruct (Qle_bool (timeout_seconds self) (elapsed rd)) eqn:Ht.
  - inversion H; subst.
    destruct (no_reason_means_no_items _ _ _ _ _ C Ht) as (H1 & H2 & H3 & _).
    apply Qle_bool_iff in Ht. repeat split; auto.
    exists rd. cbn. auto.
  - apply IH in H. destruct H as (H1 & H2 & H3 & H4 & rd' & Hin & Hrest).
    repeat split; auto. exists rd'. cbn. auto.
Qed.

(** X10.  [JimengPollingTimeout] is raised only for a fetch read at or past
    the deadline that reported no item and no terminal status: a round that
    has items never ends the polling with the timeout error. *)
Theorem polling_timeout_only_without_items self rounds e s i :
  poll self rounds = RaisedPollingTimeout e s i ->
  (timeout_seconds self <= e)%Q /\ i <= 0 /\ is_terminal s = false /\
  i < expected_item_count self /\
  exists rd, In rd rounds /\ elapsed rd = e /\ status (fetched rd) = s /\
             item_count (fetched rd) = i.
Proof. apply poll_loop_timeout_cause. Qed.

Lemma chosen_reason_sound self s n k e r :
  choose_exit_reason self s n k e = Some r ->
  (r = REASON_FAILED <-> status s = 30) /\
  (r = REASON_COMPLETED <-> status s = 10 \/ status s = 50) /\
  (r = REASON_EXPECTED -> expected_item_count self <= item_count s) /\
  (r = REASON_STABLE -> stable_rounds self <= k /\ 0 < item_count s) /\
  (r = REASON_ROUND_LIMIT ->
     max_poll_count self <= n /\ item_count s < expected_item_count self) /\
  (r = REASON_TIMEOUT_PARTIAL ->
     (timeout_seconds self <= e)%Q /\ 0 < item_count s /\ n < max_poll_count self).
Proof.
  unfold choose_exit_reason, is_terminal.
  destruct (status s =? 10) eqn:S10; [apply Z.eqb_eq in S10|apply Z.eqb_neq in S10];
  (destruct (status s =? 30) eqn:S30; [apply Z.eqb_eq in S30|apply Z.eqb_neq in S30]);
  (destruct (status s =? 50) eqn:S50; [apply Z.eqb_eq in S50|apply Z.eqb_neq in S50]);
  cbn [orb negb];
  try (intros H; injection H as <-;
       repeat split; try discriminate; try lia; auto; intros [?|?]; lia).
  destruct (expected_item_count self <=? item_count s) eqn:E1;
    [apply Z.leb_le in E1 | apply Z.leb_gt in E1].
  { intros H; injection H as <-.
    repeat split; try discriminate; try lia; auto; intros [?|?]; lia. }
  destruct (stable_rounds self <=? k) eqn:E2;
    [apply Z.leb_le in E2 | apply Z.leb_gt in E2];
  (destruct (0 <? item_count s) eqn:E3;
    [apply Z.ltb_lt in E3 | apply Z.ltb_ge in E3]); cbn [andb];
  try (intros H; injection H as <-;
       repeat split; try discriminate; try lia; auto; intros [?|?]; lia).
  all: destruct (max_poll_count self <=? n) eqn:E4;
    [apply Z.leb_le in E4 | apply Z.leb_gt in E4];
    try (intros H; injection H as <-;
         repeat split; try discriminate; try lia; auto; intros [?|?]; lia).
  all: destruct (Qle_bool (timeout_seconds self) e) eqn:E5; cbn [andb];
    try discriminate;
    try (apply Qle_bool_iff in E5; intros H; injection H as <-;
         repeat split; try discriminate; try lia; auto; intros [?|?]; lia).
Qed.

Lemma poll_loop_reason_sound self rounds : forall st result data,
  poll_loop self st rounds = Returned result data ->
  exists s n k,
    choose_exit_reason self s n k (elapsed_time result) = Some (exit_reason result) /\
    status s = res_status result /\ item_count s = res_item_count result /\
    n = poll_count result.
Proof.
  induction rounds as [|rd rest IH]; intros st result data H; [discriminate|].
  rewrite poll_loop_cons in H.
  destruct (choose_exit_reason _ _ _ _ _) as [r|] eqn:C.
  - inversion H; subst. cbn. eauto 10.
  - destruct (Qle_bool _ _); [discriminate|]. now apply IH in H.
Qed.

(** X11.  The exit reason of a returned result tells the truth about it:
    "failed" exactly for status 30, "completed" exactly for status 10 or 50,
    "complete result" only with the expected number of items, "round limit"
    only at the limit and short of the expected items, and "timeout with
    partial results" only past the deadline with at least one item. *)
Theorem exit_reason_sound self rounds result data :
  poll self rounds = Returned result data ->
  (exit_reason result = REASON_FAILED <-> res_status result = 30) /\
  (exit_reason result = REASON_COMPLETED <->
     res_status result = 10 \/ res_status result = 50) /\
  (exit_reason result = REASON_EXPECTED ->
     expected_item_count self <= res_item_count result) /\
  (exit_reason result = REASON_STABLE -> 0 < res_item_count result) /\
  (exit_reason result = REASON_ROUND_LIMIT ->
     max_poll_count self <= poll_count result /\
     res_item_count result < expected_item_count self) /\
  (exit_reason result = REASON_TIMEOUT_PARTIAL ->
     (timeout_seconds self <= elapsed_time result)%Q /\
     0 < res_item_count result /\
     poll_count result < max_poll_count self).
Proof.
  intros H. apply poll_loop_reason_sound in H.
  destruct H as (s & n & k & C & <- & <- & ->).
  apply chosen_reason_sound in C. intuition auto.
Qed.

Lemma no_reason_not_terminal self s n k e :
  choose_exit_reason self s n k e = None -> is_terminal (status s) = false.
Proof.
  unfold choose_exit_reason. now destruct (is_terminal (status s)).
Qed.

Lemma next_interval_positive self s :
  is_terminal s = false -> (0 < poll_interval self)%Q ->
  (0 < _next_interval self s)%Q.
Proof.
  unfold is_terminal, _next_interval. intros Ht Hp.
  destruct (s =? 42); [apply Qmult_lt_0_compat; [exact Hp | reflexivity]|].
  destruct (s =? 45); [apply Qmult_lt_0_compat; [exact Hp | reflexivity]|].
  destruct (s =? 10), (s =? 30), (s =? 50); try discriminate. exact Hp.
Qed.

Lemma poll_loop_sleeps self rounds : forall st st',
  (0 < poll_interval self)%Q ->
  poll_loop self st rounds = StillPolling st' ->
  st_slept st' =
  (rev (map (fun rd => _next_interval self (status (fetched rd))) rounds)
     ++ st_slept st)%list.
Proof.
  induction rounds as [|rd rest IH]; intros st st' Hp H.
  - cbn in H. now inversion H.
  - rewrite poll_loop_cons in H.
    destruct (choose_exit_reason _ _ _ _ _) as [r|] eqn:C; [discriminate|].
    destruct (Qle_bool _ _); [discriminate|].
    apply IH in H; [|exact Hp]. rewrite H. cbn [map rev].
    rewrite <- app_assoc. f_equal. cbn [app].
    unfold next_state. destruct (update_stability st (fetched rd)).
    cbn [st_slept].
    rewrite Qle_bool_false_of_lt; [reflexivity|].
    apply next_interval_positive; [|exact Hp].
    exact (no_reason_not_terminal _ _ _ _ _ C).
Qed.

(** X12.  With a positive poll interval the loop sleeps once after every
    fetch that does not end it, for the interval of that fetch's status
    (stretched by 1.2 for status 42 and by 1.5 for status 45), and every
    sleep is positive. *)
Theorem sleeps_follow_status self rounds st :
  (0 < poll_interval self)%Q ->
  poll self rounds = StillPolling st ->
  st_slept st =
    rev (map (fun rd => _next_interval self (status (fetched rd))) rounds) /\
  Forall (fun rd => (0 < _next_interval self (status (fetched rd)))%Q /\
                    is_terminal (status (fetched rd)) = false) rounds.
Proof.
  intros Hp H. split.
  - unfold poll in H. apply poll_loop_sleeps in H; [|exact Hp].
    cbn [initial_state st_slept] in H. now rewrite app_nil_r in H.
  - unfold poll in H. revert H. generalize (@initial_state). revert st.
    induction rounds as [|rd rest IH]; intros st st0 H; [constructor|].
    rewrite poll_loop_cons in H.
    destruct (choose_exit_reason _ _ _ _ _) as [r|] eqn:C; [discriminate|].
    destruct (Qle_bool _ _); [discriminate|].
    pose proof (no_reason_not_terminal _ _ _ _ _ C) as Ht.
    constructor; [|exact (IH _ _ H)].
    split; [|exact Ht]. now apply next_interval_positive.
Qed.

End Loop.

Lemma sleeps_follow_status_witness :
  st_slept {| st_poll_count := 2; st_last_item_count := 1;
              st_stable_rounds := 1; st_slept := [5%Q; (60 # 10)%Q] |} =
    rev (map (fun rd => _next_interval two_stable_poller (status (fetched rd)))
           [round_of "a" 42 1 1; round_of "b" 20 1 2]) /\
  Forall (fun rd => (0 < _next_interval two_stable_poller (status (fetched rd)))%Q /\
                    is_terminal (status (fetched rd)) = false)
    [round_of "a" 42 1 1; round_of "b" 20 1 2].
Proof.
  apply (sleeps_follow_status two_stable_poller
           [round_of "a" 42 1 1; round_of "b" 20 1 2]
           {| st_poll_count := 2; st_last_item_count := 1;
              st_stable_rounds := 1; st_slept := [5%Q; (60 # 10)%Q] |}).
  - reflexivity.
  - reflexivity.
Defined.

Lemma poll_result_is_last_round_witness :
  exists rd,
    nth_error [round_of "a" 20 0 1; round_of "b" 20 0 2; round_of "c" 10 1 3]
      (Z.to_nat (3 - 1)) = Some rd /\
    "c" = payload rd /\ 10 = status (fetched rd) /\
    None = fail_code (fetched rd) /\ 1 = item_count (fetched rd) /\
    3%Q = elapsed rd.
Proof.
  apply (poll_result_is_last_round image_poller
           [round_of "a" 20 0 1; round_of "b" 20 0 2; round_of "c" 10 1 3]
           {| res_status := 10; res_fail_code := None; res_item_count := 1;
              elapsed_time := 3; poll_count := 3;
              exit_reason := REASON_COMPLETED |} "c").
  reflexivity.
Defined.

Lemma polling_timeout_only_without_items_witness :
  (timeout_seconds (SmartPoller_init sample_config None None None (Some 5%Q) 4 "image")
     <= 6)%Q /\
  0 <= 0 /\ is_terminal 20 = false /\
  0 < expected_item_count
        (SmartPoller_init sample_config None None None (Some 5%Q) 4 "image") /\
  exists rd,
    In rd [round_of "a" 20 0 2; round_of "b" 20 0 4; round_of "c" 20 0 6] /\
    elapsed rd = 6%Q /\ status (fetched rd) = 20 /\ item_count (fetched rd) = 0.
Proof.
  apply (polling_timeout_only_without_items
           (SmartPoller_init sample_config None None None (Some 5%Q) 4 "image")
           [round_of "a" 20 0 2; round_of "b" 20 0 4; round_of "c" 20 0 6]
           6%Q 20 0).
  reflexivity.
Defined.

Lemma exit_reason_sound_witness :
  (REASON_ROUND_LIMIT = REASON_FAILED <-> 20 = 30) /\
  (REASON_ROUND_LIMIT = REASON_COMPLETED <-> 20 = 10 \/ 20 = 50) /\
  (REASON_ROUND_LIMIT = REASON_EXPECTED -> expected_item_count short_poller <= 0) /\
  (REASON_ROUND_LIMIT = REASON_STABLE -> 0 < 0) /\
  (REASON_ROUND_LIMIT = REASON_ROUND_LIMIT ->
     max_poll_count short_poller <= 3 /\ 0 < expected_item_count short_poller) /\
  (REASON_ROUND_LIMIT = REASON_TIMEOUT_PARTIAL ->
     (timeout_seconds short_poller <= 6)%Q /\ 0 < 0 /\
     3 < max_poll_count short_poller).
Proof.
  apply (exit_reason_sound short_poller
           [round_of "a" 20 0 2; round_of "b" 20 0 4; round_of "c" 20 0 6]
           {| res_status := 20; res_fail_code := None; res_item_count := 0;
              elapsed_time := 6; poll_count := 3;
              exit_reason := REASON_ROUND_LIMIT |} "c").
  reflexivity.
Defined.

End PollLoopFacts.

Module CanonicalFacts.
Import Errors AwsSignature.

(** ** The order of texts and of pairs *)

Lemma ascii_compare_refl (a : ascii) : Ascii.compare a a = Eq.
Proof. unfold Ascii.compare. apply N.compare_refl. Qed.

Lemma ascii_compare_lt_trans (a b c : ascii) :
  Ascii.compare a b = Lt -> Ascii.compare b c = Lt -> Ascii.compare a c = Lt.
Proof.
  unfold Ascii.compare. rewrite !N.compare_lt_iff. apply N.lt_trans.
Qed.

Lemma string_compare_refl (s : string) : String.compare s s = Eq.
Proof.
  induction s as [|c s IH]; cbn; [reflexivity|].
  now rewrite ascii_compare_refl.
Qed.

Lemma string_compare_lt_trans (a : string) : forall b c,
  String.compare a b = Lt -> String.compare b c = Lt -> String.compare a c = Lt.
Proof.
  induction a as [|x a IH]; intros [|y b] [|z c]; cbn; try discriminate; auto.
  destruct (Ascii.compare x y) eqn:Exy; try discriminate.
  - apply Ascii.compare_eq_iff in Exy. subst y.
    destruct (Ascii.compare x z); try discriminate; auto. apply IH.
  - destruct (Ascii.compare y z) eqn:Eyz; try discriminate.
    + apply Ascii.compare_eq_iff in Eyz. subst z. now rewrite Exy.
    + now rewrite (ascii_compare_lt_trans _ _ _ Exy Eyz).
Qed.

Lemma string_compare_gt_lt (a b : string) :
  String.compare a b = Gt <-> String.compare b a = Lt.
Proof.
  rewrite (String.compare_antisym b a).
  destruct (String.compare a b); cbn; split; congruence.
Qed.

Lemma string_leb_trans (a b c : string) :
  String.leb a b = true -> String.leb b c = true -> String.leb a c = true.
Proof.
  unfold String.leb.
  destruct (String.compare a b) eqn:Eab; try discriminate;
    destruct (String.compare b c) eqn:Ebc; try discriminate; intros _ _.
  - apply String.compare_eq_iff in Eab, Ebc. subst. now rewrite string_compare_refl.
  - apply String.compare_eq_iff in Eab. subst. now rewrite Ebc.
  - apply String.compare_eq_iff in Ebc. subst. now rewrite Eab.
  - now rewrite (string_compare_lt_trans _ _ _ Eab Ebc).
Qed.

Lemma pair_leb_total (p q : string * string) :
  Str.pair_leb p q = true \/ Str.pair_leb q p = true.
Proof.
  unfold Str.pair_leb. rewrite (String.compare_antisym (fst q) (fst p)).
  destruct (String.compare (fst p) (fst q)); cbn; auto.
  apply String.leb_total.
Qed.

Lemma pair_leb_antisym (p q : string * string) :
  Str.pair_leb p q = true -> Str.pair_leb q p = true -> p = q.
Proof.
  unfold Str.pair_leb. rewrite (String.compare_antisym (fst q) (fst p)).
  destruct p as [a x], q as [b y]. cbn [fst snd].
  destruct (String.compare a b) eqn:E; cbn; try discriminate.
  apply String.compare_eq_iff in E. subst b. intros H1 H2.
  now rewrite (String.leb_antisym _ _ H1 H2).
Qed.

Lemma pair_leb_trans (p q r : string * string) :
  Str.pair_leb p q = true -> Str.pair_leb q r = true -> Str.pair_leb p r = true.
Proof.
  unfold Str.pair_leb. destruct p as [a x], q as [b y], r as [c z].
  cbn [fst snd].
  destruct (String.compare a b) eqn:Eab; try discriminate;
    destruct (String.compare b c) eqn:Ebc; try discriminate.
  - apply String.compare_eq_iff in Eab, Ebc. subst.
    rewrite string_compare_refl. apply string_leb_trans.
  - apply String.compare_eq_iff in Eab. subst. now rewrite Ebc.
  - apply String.compare_eq_iff in Ebc. subst. now rewrite Eab.
  - now rewrite (string_compare_lt_trans _ _ _ Eab Ebc).
Qed.

(** ** Sorting a permutation *)

Section Sorting.

Context {A : Type} (le : A -> A -> bool).
Hypothesis le_total : forall x y, le x y = true \/ le y x = true.
Hypothesis le_antisym : forall x y, le x y = true -> le y x = true -> x = y.
Hypothesis le_trans :
  forall x y z, le x y = true -> le y z = true -> le x z = true.

Lemma insert_sorted_comm (x y : A) (l : list A) :
  Str.insert_sorted le x (Str.insert_sorted le y l) =
  Str.insert_sorted le y (Str.insert_sorted le x l).
Proof.
  induction l as [|z l IH]; cbn [Str.insert_sorted].
  - destruct (le x y) eqn:Exy, (le y x) eqn:Eyx; try reflexivity.
    + now rewrite (le_antisym _ _ Exy Eyx).
    + destruct (le_total x y); congruence.
  - destruct (le y z) eqn:Eyz, (le x z) eqn:Exz; cbn [Str.insert_sorted].
    + destruct (le x y) eqn:Exy, (le y x) eqn:Eyx; rewrite ?Exz, ?Eyz;
        try reflexivity.
      * now rewrite (le_antisym _ _ Exy Eyx).
      * destruct (le_total x y); congruence.
    + destruct (le x y) eqn:Exy.
      * rewrite (le_trans _ _ _ Exy Eyz) in Exz. discriminate.
      * now rewrite Exz, Eyz.
    + destruct (le y x) eqn:Eyx.
      * rewrite (le_trans _ _ _ Eyx Exz) in Eyz. discriminate.
      * now rewrite Exz, Eyz.
    + now rewrite Exz, Eyz, IH.
Qed.

Lemma sorted_of_permutation (l l' : list A) :
  Permutation l l' -> Str.sorted le l = Str.sorted le l'.
Proof.
  induction 1 as [| x l l' _ IH | x y l | l l' l'' _ IH1 _ IH2];
    cbn [Str.sorted].
  - reflexivity.
  - now rewrite IH.
  - apply insert_sorted_comm.
  - now rewrite IH1.
Qed.

End Sorting.

Section Signer.

Variable lib : Stdlib.

Lemma canonical_query_of_permutation (url url' : string) :
  Permutation (parse_qsl lib (urlsplit_query lib url))
              (parse_qsl lib (urlsplit_query lib url')) ->
  canonical_query lib url = canonical_query lib url'.
Proof.
  intros H. unfold canonical_query.
  now rewrite (sorted_of_permutation Str.pair_leb pair_leb_total
                 pair_leb_antisym pair_leb_trans _ _ H).
Qed.

(** X13.  The signature does not depend on the order in which the query
    parameters appear in the URL: two URLs with the same path whose query
    strings parse into the same pairs, in any order, are signed alike. *)
Theorem signature_ignores_query_order
    (method url url' : string) (headers : Dict.t)
    (access_key_id secret_access_key : string) (session_token : option string)
    (payload : string) :
  urlsplit_path lib url = urlsplit_path lib url' ->
  Permutation (parse_qsl lib (urlsplit_query lib url))
              (parse_qsl lib (urlsplit_query lib url')) ->
  create_signature lib method url headers access_key_id secret_access_key
    session_token payload =
  create_signature lib method url' headers access_key_id secret_access_key
    session_token payload.
Proof.
  intros Hp Hq. unfold create_signature, signature, string_to_sign,
    canonical_request, pathname.
  now rewrite Hp, (canonical_query_of_permutation _ _ Hq).
Qed.

End Signer.

Lemma signature_ignores_query_order_witness :
  create_signature python_stdlib "GET"
    "https://imagex.bytedanceapi.com/?Action=ApplyImageUpload&Version=2018-08-01"
    sample_headers "AKTEST" "secretKEY" (Some "STS2token") "" =
  create_signature python_stdlib "GET"
    "https://imagex.bytedanceapi.com/?Version=2018-08-01&Action=ApplyImageUpload"
    sample_headers "AKTEST" "secretKEY" (Some "STS2token") "".
Proof.
  apply (signature_ignores_query_order python_stdlib "GET"
           "https://imagex.bytedanceapi.com/?Action=ApplyImageUpload&Version=2018-08-01"
           "https://imagex.bytedanceapi.com/?Version=2018-08-01&Action=ApplyImageUpload"
           sample_headers "AKTEST" "secretKEY" (Some "STS2token") "").
  - reflexivity.
  - apply perm_swap.
Defined.

(** ** Whitespace around signed values *)

Lemma lstrip_head (s : string) :
  match Str.lstrip s with
  | EmptyString => True
  | String c _ => Str.is_space c = false
  end.
Proof.
  induction s as [|c s IH]; cbn; [exact I|].
  destruct (Str.is_space c) eqn:E; [exact IH | exact E].
Qed.

Lemma rstrip_idempotent (s : string) : Str.rstrip (Str.rstrip s) = Str.rstrip s.
Proof.
  induction s as [|c s IH]; [reflexivity|]. cbn [Str.rstrip].
  destruct (Str.rstrip s) as [|k kept] eqn:E.
  - destruct (Str.is_space c) eqn:Ec; [reflexivity|].
    cbn [Str.rstrip]. now rewrite Ec.
  - change (Str.rstrip (String c (String k kept)))
      with (match Str.rstrip (String k kept) with
            | EmptyString => if Str.is_space c then EmptyString
                             else String c EmptyString
            | String a b => String c (String a b)
            end).
    now rewrite IH.
Qed.

Lemma rstrip_keeps_head (c : ascii) (s : string) :
  Str.is_space c = false ->
  exists rest, Str.rstrip (String c s) = String c rest.
Proof.
  intros H. cbn [Str.rstrip]. destruct (Str.rstrip s).
  - rewrite H. now exists EmptyString.
  - now eexists.
Qed.

Lemma strip_idempotent (s : string) : Str.strip (Str.strip s) = Str.strip s.
Proof.
  unfold Str.strip. pose proof (lstrip_head s) as H.
  destruct (Str.lstrip s) as [|c t]; [reflexivity|].
  destruct (rstrip_keeps_head c t H) as [rest E]. rewrite E.
  cbn [Str.lstrip]. rewrite H, <- E. apply rstrip_idempotent.
Qed.

Lemma strip_truthy (s : string) :
  Str.strip s <> EmptyString -> Py.truthy_str s = true.
Proof. destruct s; [intros H; now destruct H | reflexivity]. Qed.

(** X14.  Whitespace around the session token does not change the
    signature: the token enters the canonical headers stripped, so a token
    and its stripped form (when that is not empty) are signed alike. *)
Theorem signature_ignores_token_whitespace (lib : Stdlib)
    (method url : string) (headers : Dict.t)
    (access_key_id secret_access_key session_token payload : string) :
  Str.strip session_token <> EmptyString ->
  create_signature lib method url headers access_key_id secret_access_key
    (Some session_token) payload =
  create_signature lib method url headers access_key_id secret_access_key
    (Some (Str.strip session_token)) payload.
Proof.
  intros H. pose proof (strip_truthy _ H) as Ht.
  assert (Ht' : Py.truthy_str (Str.strip session_token) = true)
    by (destruct (Str.strip session_token); [now destruct H | reflexivity]).
  unfold create_signature.
  destruct (Dict.get headers "x-amz-date") as [timestamp|]; [|reflexivity].
  assert (Hs : signed_headers
                 (headers_to_sign lib method timestamp (Some session_token) payload) =
               signed_headers
                 (headers_to_sign lib method timestamp
                    (Some (Str.strip session_token)) payload)).
  { unfold headers_to_sign. rewrite Ht, Ht'.
    destruct (signs_content method payload); reflexivity. }
  assert (Hc : canonical_headers
                 (headers_to_sign lib method timestamp (Some session_token) payload) =
               canonical_headers
                 (headers_to_sign lib method timestamp
                    (Some (Str.strip session_token)) payload)).
  { unfold headers_to_sign. rewrite Ht, Ht'.
    destruct (signs_content method payload); unfold canonical_headers.
    all: cbv -[Str.strip String.append sha256_hex];
      rewrite strip_idempotent; reflexivity. }
  unfold signature, string_to_sign, canonical_request.
  now rewrite Hs, Hc.
Qed.

Lemma signature_ignores_token_whitespace_witness :
  create_signature python_stdlib "GET" sample_apply_url sample_headers
    "AKTEST" "secretKEY" (Some " STS2token  ") "" =
  create_signature python_stdlib "GET" sample_apply_url sample_headers
    "AKTEST" "secretKEY" (Some (Str.strip " STS2token  ")) "".
Proof.
  apply (signature_ignores_token_whitespace python_stdlib "GET" sample_apply_url
           sample_headers "AKTEST" "secretKEY" " STS2token  " "").
  discriminate.
Defined.

End CanonicalFacts.

Module ImageFacts.
Import Errors Core Net Images Composition NetFacts UploadFacts.
Local Open Scope net_scope.

#[local] Hint Rewrite @silent_lift @silent_ret @silent_raise
  silent_aws_timestamp silent_random_string silent_check_status
  silent_decoded silent_text_or silent_header_value : silent.

(** ** Resolution and model tables *)

Lemma with_field_same (fields : list (string * Json.value)) key v :
  Json.lookup key (with_field fields key v) = Some v.
Proof.
  induction fields as [|[k x] rest IH]; cbn.
  - now rewrite String.eqb_refl.
  - destruct (String.eqb k key) eqn:E; cbn; rewrite E; auto.
Qed.

Lemma with_field_other (fields : list (string * Json.value)) key v k :
  k <> key ->
  Json.lookup k (with_field fields key v) = Json.lookup k fields.
Proof.
  intros Hk. induction fields as [|[k0 x] rest IH]; cbn.
  - destruct (String.eqb_spec key k); [congruence | reflexivity].
  - destruct (String.eqb k0 key) eqn:E; cbn.
    + apply String.eqb_eq in E. subst k0.
      destruct (String.eqb_spec key k); [congruence | reflexivity].
    + destruct (String.eqb k0 k); auto.
Qed.

Section Tables.

Variable constants : Constants.

(** X15.  [_get_resolution] returns the configuration found under the
    resolution and the ratio with every entry kept and [resolution_type] set
    to the resolution asked for; an unknown resolution or an unknown ratio
    raises a [JimengAPIError], whatever the other argument. *)
Theorem get_resolution_keeps_config (resolution ratio : string) :
  (forall v,
     _get_resolution constants resolution ratio = Return v ->
     exists group fields fields',
       lookup_in resolution (RESOLUTION_OPTIONS constants) = Some group /\
       lookup_in ratio group = Some (Json.Obj fields) /\
       v = Json.Obj fields' /\
       Json.lookup "resolution_type" fields' = Some (Json.Str resolution) /\
       forall key, key <> "resolution_type" ->
                   Json.lookup key fields' = Json.lookup key fields) /\
  (lookup_in resolution (RESOLUTION_OPTIONS constants) = None ->
   _get_resolution constants resolution ratio =
   Raise (JimengAPIError (Text ("不支持的分辨率 " ++ resolution)) None)) /\
  (forall group,
     lookup_in resolution (RESOLUTION_OPTIONS constants) = Some group ->
     lookup_in ratio group = None ->
     exists message,
       _get_resolution constants resolution ratio =
       Raise (JimengAPIError (Text message) None)).
Proof.
  unfold _get_resolution. split; [|split].
  - intros v.
    destruct (lookup_in resolution (RESOLUTION_OPTIONS constants))
      as [[|entry group]|]; try discriminate.
    destruct (lookup_in ratio (entry :: group)) as [config|] eqn:E;
      [|discriminate].
    destruct (negb (Json.truthy config)); [discriminate|].
    destruct config; try discriminate. intros H. inversion H; subst.
    exists (entry :: group), fields, (with_field fields "resolution_type"
                                        (Json.Str resolution)).
    repeat split; auto using with_field_same.
    intros key Hk. now apply with_field_other.
  - now intros ->.
  - intros group -> Hr. destruct group as [|entry group]; [now eexists|].
    rewrite Hr. cbn. now eexists.
Qed.

(** X16.  [_map_model] returns the entry of the model in the table of the
    token's region; a model that the table lacks falls back to the entry of
    the default model for a domestic token and raises a [JimengAPIError] for
    a US token.  The default entry is read before the model is looked up: a
    table without it raises [KeyError] even for a model it lists. *)
Theorem map_model_cases (model refresh_token : string) :
  let mapping := if _is_us refresh_token then IMAGE_MODEL_MAP_US constants
                 else IMAGE_MODEL_MAP constants in
  (forall m,
     _map_model constants model refresh_token = Return m ->
     Dict.get mapping model = Some m \/
     (_is_us refresh_token = false /\ Dict.get mapping model = None /\
      Dict.get mapping (DEFAULT_IMAGE_MODEL constants) = Some m)) /\
  (forall message sc,
     _map_model constants model refresh_token =
       Raise (JimengAPIError message sc) ->
     _is_us refresh_token = true /\ Dict.get mapping model = None) /\
  (_is_us refresh_token = true -> Dict.get mapping model = None ->
   exists message,
     _map_model constants model refresh_token =
       Raise (JimengAPIError message None)) /\
  (Dict.get mapping (DEFAULT_IMAGE_MODEL constants) = None ->
   _is_us refresh_token = false \/ Dict.get mapping model <> None ->
   _map_model constants model refresh_token = Raise (PythonError "KeyError")).
Proof.
  unfold _map_model, has_key. cbv zeta.
  destruct (_is_us refresh_token);
    set (mapping := _ constants);
    destruct (Dict.get mapping model) as [m0|] eqn:Em; cbn [negb andb];
    destruct (Dict.get mapping (DEFAULT_IMAGE_MODEL constants)) as [d|] eqn:Ed;
    repeat split; try discriminate; try congruence;
    try (intros m H; inversion H; subst; auto; fail);
    try (intros; now eexists);
    try (intros _ [H|H]; [discriminate | now elim H]).
Qed.

End Tables.

(** ** The URLs of the result *)



(** ** The history record *)

Section History.

Variable constants : Constants.


End History.

(** ** Reading the sources *)

Lemma after_comma_append (head tail : string) :
  Str.all_chars (fun c => negb (Ascii.eqb c ","%char)) head = true ->
  after_comma (head ++ "," ++ tail) = Return tail.
Proof.
  induction head as [|c head IH]; cbn; [reflexivity|].
  destruct (Ascii.eqb c ","%char); cbn; [discriminate | exact IH].
Qed.

Lemma after_comma_none (s : string) :
  Str.all_chars (fun c => negb (Ascii.eqb c ","%char)) s = true ->
  after_comma s = Raise (PythonError "IndexError").
Proof.
  induction s as [|c s IH]; cbn; [reflexivity|].
  destruct (Ascii.eqb c ","%char); cbn; [discriminate | exact IH].
Qed.

(** X19.  [normalize_base64] removes the header of a data URL up to its
    first comma and returns any other text unchanged; a data URL without a
    comma raises [IndexError]. *)
Theorem normalize_base64_strips_header :
  (forall mime data,
     Str.all_chars (fun c => negb (Ascii.eqb c ","%char)) mime = true ->
     normalize_base64 ("data:" ++ mime ++ "," ++ data) = Return data) /\
  (forall payload,
     Str.startswith payload "data:" = false ->
     normalize_base64 payload = Return payload) /\
  (forall rest,
     Str.all_chars (fun c => negb (Ascii.eqb c ","%char)) rest = true ->
     normalize_base64 ("data:" ++ rest) = Raise (PythonError "IndexError")).
Proof.
  split; [|split].
  - intros mime data H. unfold normalize_base64.
    unfold Str.startswith. rewrite CoreApiFacts.prefix_append.
    change ("data:" ++ mime ++ "," ++ data)%string
      with (String "d" (String "a" (String "t" (String "a" (String ":"
              (mime ++ "," ++ data))))))%string.
    cbn [after_comma Ascii.eqb Bool.eqb]. now apply after_comma_append.
  - intros payload H. unfold normalize_base64. now rewrite H.
  - intros rest H. unfold normalize_base64.
    unfold Str.startswith. rewrite CoreApiFacts.prefix_append.
    change ("data:" ++ rest)%string
      with (String "d" (String "a" (String "t" (String "a" (String ":" rest))))).
    cbn [after_comma Ascii.eqb Bool.eqb]. now apply after_comma_none.
Qed.

Section Sources.

Variable constants : Constants.
Variable lib : AwsSignature.Stdlib.
Variable host : Host.

(** X20.  A source that is a URL is downloaded first, and a download that
    fails (a transfer error, or a reply with a 4xx or 5xx status) ends the
    upload of that image there: the error is raised and the download is the
    only call sent, no upload ticket is requested. *)
Theorem failed_download_skips_upload (source refresh_token : string)
    (is_us : bool) (w : World) :
  Str.startswith source "http://" || Str.startswith source "https://" = true ->
  (forall resp rest e,
     replies w = Replies resp :: rest ->
     raise_for_status resp = Some e ->
     _upload_image constants lib host (Ref source) refresh_token is_us w =
     (Raise e, with_replies w rest,
      [{| via := Direct; call_method := "GET"; call_url := source;
          call_headers := []; call_body := NoBody |}])) /\
  (forall exc rest,
     replies w = Fails exc :: rest ->
     _upload_image constants lib host (Ref source) refresh_token is_us w =
     (Raise (RequestException exc), with_replies w rest,
      [{| via := Direct; call_method := "GET"; call_url := source;
          call_headers := []; call_body := NoBody |}])).
Proof.
  intros Hs. unfold _upload_image. rewrite Hs. split.
  - intros resp rest e Hr He. unfold bind, send, check_status.
    rewrite Hr, He. reflexivity.
  - intros exc rest Hr. unfold bind, send. rewrite Hr. reflexivity.
Qed.

Lemma upload_image_sent source refresh_token is_us w c :
  In c (sent_of (_upload_image constants lib host source refresh_token is_us w)) ->
  c = token_call \/ via c = Direct.
Proof.
  unfold _upload_image. intros H.
  apply in_sent_bind in H. destruct H as [H | (buffer & w1 & s1 & _ & H)].
  - right. destruct source as [bytes|s]; [now autorewrite with silent in H|].
    destruct (Str.startswith s "http://" || Str.startswith s "https://").
    + walk H. apply send_sent in H. now subst c.
    + destruct (path_read host s); [now autorewrite with silent in H|].
      walk H.
  - apply upload_sent in H.
    destruct H as [H | [(? & ? & ? & ? & ? & ->) | [(? & ? & ->) |
      (? & ? & ? & ? & ? & ? & ? & -> & _)]]]; auto.
Qed.

Lemma upload_all_sent images refresh_token is_us : forall w c,
  In c (sent_of (upload_all constants lib host images refresh_token is_us w)) ->
  c = token_call \/ via c = Direct.
Proof.
  induction images as [|image rest IH]; intros w c H; cbn [upload_all] in H.
  - now autorewrite with silent in H.
  - apply in_sent_bind in H. destruct H as [H | (uri & w1 & s1 & _ & H)];
      [now apply upload_image_sent in H|].
    apply in_sent_bind in H. destruct H as [H | (uris & w2 & s2 & _ & H)];
      [now apply IH in H|].
    now autorewrite with silent in H.
Qed.

Lemma upload_all_length images refresh_token is_us : forall w uris w' s,
  upload_all constants lib host images refresh_token is_us w = (Return uris, w', s) ->
  List.length uris = List.length images.
Proof.
  induction images as [|image rest IH]; intros w uris w' s H;
    cbn [upload_all] in H.
  - inversion H. reflexivity.
  - apply bind_return_inv in H. destruct H as (uri & w1 & s1 & s2 & _ & H & _).
    apply bind_return_inv in H. destruct H as (more & w2 & s3 & s4 & Hm & H & _).
    inversion H; subst. cbn [List.length]. f_equal. exact (IH _ _ _ _ Hm).
Qed.

Variable POLLING_CONFIG : Poller.PollingConfig.

(** X21.  In a composition the model and the resolution are checked before
    anything is sent, and the draft is submitted only after every image has
    been uploaded: a run that sent the submission had an upload return for
    each of its images, so one failed upload means no submission. *)
Theorem composition_submits_after_uploads (model prompt : string)
    (images : list ImageSource) (refresh_token ratio resolution : string)
    (sample_strength : Q) (w : World) :
  (forall e,
     images <> [] -> (List.length images <= 10)%nat ->
     _map_model constants model refresh_token = Raise e \/
     (exists m, _map_model constants model refresh_token = Return m /\
                _get_resolution constants resolution ratio = Raise e) ->
     generate_image_composition constants lib POLLING_CONFIG host model prompt
       images refresh_token ratio resolution sample_strength w =
     (Raise e, w, [])) /\
  (forall c,
     In c (sent_of
             (generate_image_composition constants lib POLLING_CONFIG host
                model prompt images refresh_token ratio resolution
                sample_strength w)) ->
     via c = Gateway -> call_url c = "/mweb/v1/aigc_draft/generate" ->
     exists uploaded w1 s1,
       upload_all constants lib host images refresh_token
         (_is_us refresh_token) w = (Return uploaded, w1, s1) /\
       List.length uploaded = List.length images).
Proof.
  unfold generate_image_composition. split.
  - intros e Hne Hlen Hbad. destruct images as [|image rest]; [now elim Hne|].
    replace (10 <? List.length (image :: rest))%nat with false
      by (symmetry; apply Nat.ltb_ge; exact Hlen).
    unfold bind, lift. destruct Hbad as [-> | (m & -> & ->)]; reflexivity.
  - intros c H Hvia Hurl. destruct images as [|image rest];
      [now autorewrite with silent in H|].
    destruct (10 <? List.length (image :: rest))%nat;
      [now autorewrite with silent in H|].
    apply in_sent_bind in H. destruct H as [H | (m & w1 & s1 & E1 & H)];
      [now autorewrite with silent in H|].
    apply lift_returns in E1. destruct E1 as (_ & -> & _).
    apply in_sent_bind in H. destruct H as [H | (res & w2 & s2 & E2 & H)];
      [now autorewrite with silent in H|].
    apply lift_returns in E2. destruct E2 as (_ & -> & _).
    apply in_sent_bind in H. destruct H as [H | (uploaded & w3 & s3 & E3 & H)].
    + apply upload_all_sent in H. destruct H as [-> | H];
        [discriminate | congruence].
    + exists uploaded, w3, s3. split; [exact E3|].
      exact (upload_all_length _ _ _ _ _ _ _ E3).
Qed.

End Sources.

Lemma failed_download_skips_upload_witness :
  _upload_image sample_constants AwsSignature.python_stdlib sample_host
    (Ref "https://img.example.com/a.png") "tok" false
    (CoreApi.replies_only [reply_with 404 Json.Null; sample_ticket_reply]) =
  (Raise (HTTPError 404),
   with_replies
     (CoreApi.replies_only [reply_with 404 Json.Null; sample_ticket_reply])
     [sample_ticket_reply],
   [{| via := Direct; call_method := "GET";
       call_url := "https://img.example.com/a.png";
       call_headers := []; call_body := NoBody |}]).
Proof.
  eapply (proj1 (failed_download_skips_upload sample_constants
                  AwsSignature.python_stdlib sample_host
                  "https://img.example.com/a.png" "tok" false
                  (CoreApi.replies_only [reply_with 404 Json.Null;
                                         sample_ticket_reply])
                  eq_refl)).
  - reflexivity.
  - reflexivity.
Defined.

End ImageFacts.

Module UtilFacts.
Import Util.

Section Chunks.

Context {A : Type}.
Implicit Types (items chunk : list A) (size : Z).

Lemma chunk_loop_concat items size : forall chunk,
  List.concat (chunk_loop items size chunk) = (chunk ++ items)%list.
Proof.
  induction items as [|item rest IH]; intros chunk; cbn [chunk_loop].
  - destruct chunk; cbn; [reflexivity|]. now rewrite !app_nil_r.
  - destruct (size <=? _); cbn [List.concat]; rewrite IH.
    + now rewrite app_nil_l, <- app_assoc.
    + now rewrite <- app_assoc.
Qed.

Lemma chunk_loop_bounds items size : forall chunk,
  Z.of_nat (List.length chunk) < Z.max 1 size ->
  Forall (fun c => c <> [] /\ Z.of_nat (List.length c) <= Z.max 1 size)
    (chunk_loop items size chunk).
Proof.
  induction items as [|item rest IH]; intros chunk Hc; cbn [chunk_loop].
  - destruct chunk as [|x chunk]; constructor; [|constructor].
    split; [discriminate | lia].
  - assert (Hl : List.length (chunk ++ [item]) = S (List.length chunk))
      by (rewrite length_app; cbn; lia).
    destruct (size <=? _) eqn:E.
    + constructor; [|apply IH; cbn; lia].
      split; [now destruct chunk | rewrite Hl; lia].
    + apply IH. apply Z.leb_gt in E. rewrite Hl in *. lia.
Qed.

Lemma chunk_loop_full items size : forall chunk,
  Z.of_nat (List.length chunk) < Z.max 1 size ->
  Forall (fun c => Z.of_nat (List.length c) = Z.max 1 size)
    (removelast (chunk_loop items size chunk)).
Proof.
  induction items as [|item rest IH]; intros chunk Hc; cbn [chunk_loop].
  - destruct chunk; constructor.
  - assert (Hl : List.length (chunk ++ [item]) = S (List.length chunk))
      by (rewrite length_app; cbn; lia).
    destruct (size <=? _) eqn:E.
    + cbn [removelast].
      destruct (chunk_loop rest size []) eqn:El; [constructor|].
      constructor; [apply Z.leb_le in E; rewrite Hl in *; lia|].
      rewrite <- El. apply IH. cbn. lia.
    + apply IH. apply Z.leb_gt in E. rewrite Hl in *. lia.
Qed.

(** X22.  [chunk_list] cuts the items into consecutive chunks and loses
    nothing: the chunks put back together are the items; no chunk is empty;
    every chunk but the last has exactly [max(1, size)] items and the last
    has at most that many (a size of zero or less gives chunks of one). *)
Theorem chunk_list_partitions items size :
  List.concat (chunk_list items size) = items /\
  Forall (fun c => c <> [] /\ Z.of_nat (List.length c) <= Z.max 1 size)
    (chunk_list items size) /\
  Forall (fun c => Z.of_nat (List.length c) = Z.max 1 size)
    (removelast (chunk_list items size)).
Proof.
  unfold chunk_list. split; [|split].
  - apply chunk_loop_concat.
  - apply chunk_loop_bounds. cbn. lia.
  - apply chunk_loop_full. cbn. lia.
Qed.

End Chunks.

End UtilFacts.

Module VideoFacts.
Import Errors Core Net Images Composition CoreApi Videos NetFacts UploadFacts.
Local Open Scope net_scope.

#[local] Hint Rewrite @silent_lift @silent_ret @silent_raise
  silent_aws_timestamp silent_random_string silent_check_status
  silent_decoded silent_text_or silent_header_value : silent.

(** ** The aspect ratio *)

(** X23.  [_aspect_ratio] writes the width and the height divided by their
    greatest common divisor: the two numbers printed are coprime and in the
    proportion of the width to the height.  Only a width and a height that
    are both zero have no ratio: the division raises [ZeroDivisionError]. *)
Theorem aspect_ratio_reduced (width height : Z) :
  (width = 0 /\ height = 0 ->
   _aspect_ratio width height = Raise (PythonError "ZeroDivisionError")) /\
  (width <> 0 \/ height <> 0 ->
   exists a b,
     _aspect_ratio width height =
       Return (JsonText.decimal a ++ ":" ++ JsonText.decimal b)%string /\
     Z.gcd a b = 1 /\
     width = a * Z.gcd width height /\ height = b * Z.gcd width height /\
     width * b = height * a).
Proof.
  unfold _aspect_ratio. split.
  - intros [-> ->]. reflexivity.
  - intros H.
    assert (Hg : Z.gcd width height <> 0)
      by (intros E; apply Z.gcd_eq_0 in E; lia).
    destruct (Z.eqb_spec (Z.gcd width height) 0) as [E|_]; [contradiction|].
    destruct (Z.gcd_divide_l width height) as [a Ha].
    destruct (Z.gcd_divide_r width height) as [b Hb].
    exists (width / Z.gcd width height), (height / Z.gcd width height).
    split; [reflexivity|]. split; [now apply Z.gcd_div_gcd|].
    assert (Ea : width / Z.gcd width height = a)
      by (rewrite Ha at 1; now apply Z.div_mul).
    assert (Eb : height / Z.gcd width height = b)
      by (rewrite Hb at 1; now apply Z.div_mul).
    rewrite Ea, Eb. split; [exact Ha|]. split; [exact Hb|].
    rewrite Ha at 1. rewrite Hb at 2. ring.
Qed.

(** ** The URL of the video *)

Lemma first_http_some (candidates : list Json.value) (url : string) :
  first_http candidates = Some url ->
  In (Json.Str url) candidates /\ Str.startswith url "http" = true.
Proof.
  induction candidates as [|v rest IH]; [discriminate|]. cbn [first_http].
  destruct (http_text v) as [u|] eqn:E.
  - intros H. inversion H; subst. unfold http_text in E.
    destruct v; try discriminate.
    destruct (Str.startswith s "http") eqn:Es; [|discriminate].
    inversion E; subst. split; [now left | exact Es].
  - intros H. apply IH in H. destruct H as [Hin Hs]. split; [now right | exact Hs].
Qed.

(** X24.  A URL that [_extract_video_url] returns is a text that starts
    with [http], read from the [video] record of the first item: it is
    among the four candidates (the transcoded origin, [play_url],
    [download_url], [url]) and the first of them that is such a text.  An
    info without items gives [None]. *)
Theorem extracted_video_url_is_http (info : Json.value) :
  (forall url,
     _extract_video_url info = Return (Some url) ->
     Str.startswith url "http" = true /\
     exists fields item items video candidates,
       info = Json.Obj fields /\
       Json.get fields "item_list" = Json.Arr (Json.Obj item :: items) /\
       Json.get item "video" = Json.Obj video /\
       candidates_of video = Return candidates /\
       first_http candidates = Some url /\
       In (Json.Str url) candidates) /\
  (forall fields,
     info = Json.Obj fields ->
     Json.truthy (Json.get fields "item_list") = false ->
     _extract_video_url info = Return None).
Proof.
  split.
  - intros url. unfold _extract_video_url.
    destruct info as [| | | | |fields]; try discriminate.
    cbn [JsonText.get and_then]. unfold or_empty_list.
    destruct (Json.truthy (Json.get fields "item_list")) eqn:Et;
      [|cbn; discriminate].
    rewrite Et. cbn [negb].
    destruct (Json.get fields "item_list") as [| | |s|l|o] eqn:El;
      cbn [JsonText.first]; try discriminate.
    + destruct s; cbn; discriminate.
    + destruct l as [|first rest]; [discriminate|]. cbn [and_then].
      destruct first as [| | | | |item]; try discriminate.
      destruct (Json.get item "video") as [| | | | |video] eqn:Ev;
        try discriminate.
      destruct (candidates_of video) as [candidates|e|] eqn:Ec;
        cbn [and_then]; try discriminate.
      intros H. inversion H as [Hf].
      destruct (first_http_some _ _ Hf) as [Hin Hs].
      split; [exact Hs|].
      exists fields, item, rest, video, candidates. auto 10.
  - intros fields -> Ht. unfold _extract_video_url.
    cbn [JsonText.get and_then]. unfold or_empty_list. rewrite Ht. reflexivity.
Qed.

(** ** What a generation sends *)

Lemma get_credit_sent cfg refresh_token w c :
  In c (sent_of (get_credit cfg refresh_token w)) -> c = credit_call.
Proof.
  unfold get_credit. intros H.
  apply in_sent_bind in H. destruct H as [H | (a & w1 & s1 & _ & H)];
    [now apply gateway_sent in H|].
  exfalso. walk H.
Qed.

Lemma silent_tick w : sent_of (tick w) = [].
Proof. unfold tick, sent_of. now destruct (ticks w). Qed.

(** The calls of a polling are calls of its fetches. *)
Lemma poll_rounds_sent {T : Type} (P : Call -> Prop) self
    (poll_fn : M (Poller.PollingStatus * T)) :
  (forall w c, In c (sent_of (poll_fn w)) -> P c) ->
  forall fuel st w c,
    In c (sent_of (poll_rounds fuel self poll_fn st w)) -> P c.
Proof.
  intros Hfn. induction fuel as [|fuel IH]; intros st w c H;
    cbn [poll_rounds] in H; [contradiction|].
  apply in_sent_bind in H. destruct H as [H | (fetched & w1 & s1 & _ & H)];
    [now apply Hfn in H|].
  apply in_sent_bind in H. destruct H as [H | (elapsed & w2 & s2 & _ & H)];
    [now rewrite silent_tick in H|].
  destruct (Poller.poll_loop self st _);
    [now autorewrite with silent in H | now autorewrite with silent in H |].
  now apply IH in H.
Qed.

Lemma poll_sent {T : Type} (P : Call -> Prop) self
    (poll_fn : M (Poller.PollingStatus * T)) w c :
  (forall w c, In c (sent_of (poll_fn w)) -> P c) ->
  In c (sent_of (poll self poll_fn w)) -> P c.
Proof. intros Hfn. unfold poll. now apply poll_rounds_sent. Qed.

Section Video.

Variable constants : VideoConstants.
Variable video_draft : string -> string -> string -> string -> Json.value.

Lemma poll_video_status_sent history_id refresh_token w c :
  In c (sent_of (_poll_video_status constants history_id refresh_token w)) ->
  c = history_call history_id.
Proof.
  unfold _poll_video_status. intros H.
  apply in_sent_bind in H. destruct H as [H | (history & w1 & s1 & _ & H)];
    [now apply gateway_sent in H|].
  exfalso.
  apply in_sent_bind in H. destruct H as [H | (info & w2 & s2 & _ & H)];
    [now autorewrite with silent in H|].
  destruct info; try (now autorewrite with silent in H). walk H.
Qed.

Lemma ensure_credit_sent refresh_token w c :
  In c (sent_of (ensure_credit constants refresh_token w)) ->
  c = credit_call \/
  (c = receive_call /\
   exists summary w1 s1 total,
     get_credit (VIDEO_RETRY_CONFIG constants) refresh_token w =
       (Return summary, w1, s1) /\
     JsonText.item summary "totalCredit" = Return total /\
     py_le_zero total = Return true).
Proof.
  unfold ensure_credit. intros H.
  apply in_sent_bind in H. destruct H as [H | (summary & w1 & s1 & Eg & H)];
    [left; now apply get_credit_sent in H|].
  apply in_sent_bind in H. destruct H as [H | (total & w2 & s2 & Et & H)];
    [now autorewrite with silent in H|].
  apply in_sent_bind in H. destruct H as [H | (none_left & w3 & s3 & En & H)];
    [now autorewrite with silent in H|].
  apply lift_returns in Et. destruct Et as (Et & _ & _).
  apply lift_returns in En. destruct En as (En & _ & _).
  destruct none_left; [|now autorewrite with silent in H].
  apply in_sent_bind in H. destruct H as [H | (? & ? & ? & _ & H)];
    [|now autorewrite with silent in H].
  unfold receive_credit in H. apply gateway_sent in H.
  right. split; [exact H|]. now exists summary, w1, s1, total.
Qed.

(** X25.  [generate_video] claims the daily credits only when the credit
    summary it has just read shows a total of zero or less; and it builds
    the payload after the credit calls, so a width and a height that are
    both zero raise [ZeroDivisionError] with nothing sent but those calls:
    no draft is submitted. *)
Theorem video_credits_before_draft (_model prompt refresh_token : string)
    (width height : Z) (resolution : string) (w : World) :
  (In receive_call
      (sent_of (generate_video constants video_draft _model prompt
                  refresh_token width height resolution w)) ->
   exists summary w1 s1 total,
     get_credit (VIDEO_RETRY_CONFIG constants) refresh_token w =
       (Return summary, w1, s1) /\
     JsonText.item summary "totalCredit" = Return total /\
     py_le_zero total = Return true) /\
  (width = 0 -> height = 0 ->
   (forall c,
      In c (sent_of (generate_video constants video_draft _model prompt
                       refresh_token width height resolution w)) ->
      c = credit_call \/ c = receive_call) /\
   forall url,
     outcome_of (generate_video constants video_draft _model prompt
                   refresh_token width height resolution w) <> Return url).
Proof.
  unfold generate_video. split.
  - intros H.
    apply in_sent_bind in H. destruct H as [H | (model & w1 & s1 & E1 & H)];
      [now autorewrite with silent in H|].
    apply lift_returns in E1. destruct E1 as (_ & -> & _).
    apply in_sent_bind in H. destruct H as [H | (u & w2 & s2 & _ & H)].
    { apply ensure_credit_sent in H. destruct H as [H | [_ H]];
        [discriminate | exact H]. }
    exfalso.
    apply in_sent_bind in H. destruct H as [H | (data & w3 & s3 & _ & H)];
      [now autorewrite with silent in H|].
    apply in_sent_bind in H. destruct H as [H | (response & w4 & s4 & _ & H)];
      [apply gateway_sent in H; discriminate|].
    destruct (negb _); [now autorewrite with silent in H|].
    apply in_sent_bind in H. destruct H as [H | (polled & w5 & s5 & _ & H)].
    { apply (poll_sent (fun c => c <> receive_call)) in H; [now apply H|].
      intros w' c Hc. apply poll_video_status_sent in Hc. subst c. discriminate. }
    apply in_sent_bind in H. destruct H as [H | (url & w6 & s6 & _ & H)];
      [now autorewrite with silent in H|].
    destruct url as [u0|]; [destruct (Py.truthy_str u0)|];
      now autorewrite with silent in H.
  - intros -> ->. split.
    + intros c H.
      apply in_sent_bind in H. destruct H as [H | (model & w1 & s1 & E1 & H)];
        [now autorewrite with silent in H|].
      apply in_sent_bind in H. destruct H as [H | (u & w2 & s2 & _ & H)].
      { apply ensure_credit_sent in H. destruct H as [H | [H _]]; auto. }
      apply in_sent_bind in H. destruct H as [H | (data & w3 & s3 & E3 & H)];
        [now autorewrite with silent in H|].
      apply lift_returns in E3. destruct E3 as (E3 & _ & _). discriminate.
    + intros url H. unfold bind, lift, outcome_of in H.
      destruct (_map_model constants _model); cbn in H; try discriminate.
      destruct (ensure_credit constants refresh_token w) as [[[u|e|] w1] s1];
        cbn in H; discriminate.
Qed.

End Video.

End VideoFacts.

Module PoolFacts.
Import Errors Service ServiceFacts.

Lemma existsb_eqb_in (x : string) (l : list string) :
  existsb (String.eqb x) l = true <-> In x l.
Proof.
  rewrite existsb_exists. split.
  - intros (y & Hy & E). apply String.eqb_eq in E. now subst.
  - intros H. exists x. split; [exact H | apply String.eqb_refl].
Qed.

Lemma remove_first_subset (x y : string) (l : list string) :
  In y (remove_first x l) -> In y l.
Proof.
  induction l as [|z l IH]; cbn; [auto|].
  destruct (String.eqb z x); cbn; intuition auto.
Qed.

Lemma remove_first_nodup (x : string) (l : list string) :
  NoDup l -> NoDup (remove_first x l) /\ ~ In x (remove_first x l).
Proof.
  induction 1 as [|z l Hz Hl IH]; cbn; [split; [constructor | auto]|].
  destruct (String.eqb_spec z x) as [->|Hne].
  - split; assumption.
  - destruct IH as [IH1 IH2]. split.
    + constructor; [|exact IH1]. intros H. now apply remove_first_subset in H.
    + cbn. intros [E|H]; [congruence | contradiction].
Qed.

Lemma remove_first_appended (x : string) (l : list string) :
  ~ In x l -> remove_first x (l ++ [x]) = l.
Proof.
  induction l as [|z l IH]; cbn; intros H.
  - now rewrite String.eqb_refl.
  - destruct (String.eqb_spec z x) as [->|Hne]; [tauto|].
    rewrite IH; tauto.
Qed.

(** X26.  On a pool of distinct ids the session helpers keep the ids
    distinct: [add_session_id] makes the id a member without a second copy
    (adding twice is adding once), [remove_session_id] leaves no copy of the
    id, and removing an id that was just added to a pool without it gives
    the pool back. *)
Theorem session_pool_keeps_distinct (self : JimengClient) (session_id : string) :
  NoDup (_session_ids self) ->
  NoDup (_session_ids (add_session_id self session_id)) /\
  In session_id (_session_ids (add_session_id self session_id)) /\
  add_session_id (add_session_id self session_id) session_id =
    add_session_id self session_id /\
  NoDup (_session_ids (remove_session_id self session_id)) /\
  ~ In session_id (_session_ids (remove_session_id self session_id)) /\
  (~ In session_id (_session_ids self) ->
   remove_session_id (add_session_id self session_id) session_id = self).
Proof.
  intros Hn. destruct self as [ids]. cbn [_session_ids] in Hn.
  unfold add_session_id, remove_session_id. cbn [_session_ids].
  destruct (existsb (String.eqb session_id) ids) eqn:E.
  - pose proof (proj1 (existsb_eqb_in _ _) E) as Hin. cbn [_session_ids].
    rewrite E. destruct (remove_first_nodup session_id ids Hn) as [H1 H2].
    repeat split; auto. intros H. contradiction.
  - assert (Hout : ~ In session_id ids)
      by (intros H; apply existsb_eqb_in in H; congruence).
    cbn [_session_ids].
    assert (E' : existsb (String.eqb session_id) (ids ++ [session_id]) = true)
      by (apply existsb_eqb_in, in_or_app; right; now left).
    rewrite E'. destruct (remove_first_nodup session_id ids Hn) as [H1 H2].
    repeat split; auto.
    + apply NoDup_app; [exact Hn | repeat constructor; auto | ].
      intros a Ha [<-|[]]. contradiction.
    + apply in_or_app. right. now left.
    + intros _. now rewrite remove_first_appended.
Qed.

Lemma session_pool_keeps_distinct_witness :
  NoDup (_session_ids (add_session_id (JimengClient_init (Many ["a"; "b"])) "c")) /\
  In "c" (_session_ids (add_session_id (JimengClient_init (Many ["a"; "b"])) "c")) /\
  add_session_id (add_session_id (JimengClient_init (Many ["a"; "b"])) "c") "c" =
    add_session_id (JimengClient_init (Many ["a"; "b"])) "c" /\
  NoDup (_session_ids (remove_session_id (JimengClient_init (Many ["a"; "b"])) "c")) /\
  ~ In "c" (_session_ids (remove_session_id (JimengClient_init (Many ["a"; "b"])) "c")) /\
  (~ In "c" (_session_ids (JimengClient_init (Many ["a"; "b"]))) ->
   remove_session_id (add_session_id (JimengClient_init (Many ["a"; "b"])) "c") "c"
   = JimengClient_init (Many ["a"; "b"])).
Proof.
  apply (session_pool_keeps_distinct (JimengClient_init (Many ["a"; "b"])) "c").
  cbn. repeat constructor; cbn; intuition discriminate.
Defined.

End PoolFacts.

Module PluginFacts.
Import Errors Service ServiceFacts Plugin.

(** ** Words *)

Lemma all_chars_app (p : ascii -> bool) (a b : string) :
  Str.all_chars p (a ++ b) = Str.all_chars p a && Str.all_chars p b.
Proof.
  induction a as [|c a IH]; cbn; [reflexivity|].
  now rewrite IH, andb_assoc.
Qed.

Lemma all_chars_both (p q : ascii -> bool) (s : string) :
  Str.all_chars p s = true -> Str.all_chars q s = true ->
  Str.all_chars (fun c => p c && q c) s = true.
Proof.
  induction s as [|c s IH]; cbn; [reflexivity|].
  rewrite !andb_true_iff. intros [Hp Hps] [Hq Hqs]. auto.
Qed.

(** The words of a text are made of its characters. *)
Lemma split_loop_chars (p : ascii -> bool) (s : string) : forall word,
  Str.all_chars p s = true -> Str.all_chars p word = true ->
  Forall (fun t => Str.all_chars p t = true) (split_loop s word).
Proof.
  induction s as [|c s IH]; intros word Hs Hw; cbn [split_loop].
  - destruct word; repeat constructor. exact Hw.
  - cbn [Str.all_chars] in Hs. apply andb_true_iff in Hs. destruct Hs as [Hc Hs].
    destruct (Str.is_space c).
    + destruct word; [now apply IH|]. constructor; [exact Hw | now apply IH].
    + apply IH; [exact Hs|]. rewrite all_chars_app, Hw. cbn. now rewrite Hc.
Qed.

(** A word is not empty and holds no whitespace. *)
Lemma split_loop_words (s : string) : forall word,
  Str.all_chars (fun c => negb (Str.is_space c)) word = true ->
  Forall (fun t => t <> "" /\
                   Str.all_chars (fun c => negb (Str.is_space c)) t = true)
    (split_loop s word).
Proof.
  induction s as [|c s IH]; intros word Hw; cbn [split_loop].
  - destruct word; repeat constructor; [discriminate | exact Hw].
  - destruct (Str.is_space c) eqn:Ec.
    + destruct word; [now apply IH|].
      constructor; [split; [discriminate | exact Hw] | now apply IH].
    + apply IH. rewrite all_chars_app, Hw. cbn. now rewrite Ec.
Qed.

Lemma commas_gone (raw : string) :
  Str.all_chars (fun c => negb (Ascii.eqb c ","%char)) (commas_to_spaces raw) = true.
Proof.
  induction raw as [|c raw IH]; cbn; [reflexivity|]. rewrite IH.
  now destruct (Ascii.eqb c ","%char) eqn:E; [|rewrite E].
Qed.

Lemma rstrip_clean (t : string) :
  Str.all_chars (fun c => negb (Str.is_space c)) t = true -> Str.rstrip t = t.
Proof.
  induction t as [|c t IH]; cbn; [reflexivity|].
  rewrite andb_true_iff, negb_true_iff. intros [Hc Ht].
  rewrite (IH Ht), Hc. now destruct t.
Qed.

Lemma strip_clean (t : string) :
  Str.all_chars (fun c => negb (Str.is_space c)) t = true -> Str.strip t = t.
Proof.
  intros H. unfold Str.strip.
  assert (Hl : Str.lstrip t = t).
  { destruct t as [|c t]; [reflexivity|]. cbn in *.
    apply andb_true_iff in H. destruct H as [Hc _].
    apply negb_true_iff in Hc. now rewrite Hc. }
  rewrite Hl. now apply rstrip_clean.
Qed.

Lemma filter_all {A : Type} (p : A -> bool) (l : list A) :
  Forall (fun x => p x = true) l -> filter p l = l.
Proof.
  induction 1 as [|x l Hx _ IH]; cbn; [reflexivity|]. now rewrite Hx, IH.
Qed.

Lemma map_fixed {A : Type} (f : A -> A) (l : list A) :
  Forall (fun x => f x = x) l -> map f l = l.
Proof.
  induction 1 as [|x l Hx _ IH]; cbn; [reflexivity|]. now rewrite Hx, IH.
Qed.

Lemma split_tokens_words (raw : string) :
  Py.truthy_str raw = true ->
  _split_tokens raw = split (commas_to_spaces raw) /\
  map Str.strip
    (filter (fun token => Py.truthy_str (Str.strip token))
       (split (commas_to_spaces raw))) = split (commas_to_spaces raw).
Proof.
  intros Hr. unfold _split_tokens. rewrite Hr.
  pose proof (split_loop_words (commas_to_spaces raw) "" eq_refl) as Hw.
  fold (split (commas_to_spaces raw)) in Hw.
  split.
  - apply filter_all. eapply Forall_impl; [|exact Hw].
    intros t [Hne _]. now destruct t.
  - rewrite filter_all.
    + apply map_fixed. eapply Forall_impl; [|exact Hw].
      intros t [_ Hc]. now apply strip_clean.
    + eapply Forall_impl; [|exact Hw].
      intros t [Hne Hc]. rewrite (strip_clean t Hc). now destruct t.
Qed.

(** X27.  The tokens read from what the user typed are the runs between
    commas and whitespace: none is empty and none holds a comma or a
    whitespace character.  The session override parsed from the same text
    is absent when there is no token, and otherwise carries exactly these
    tokens and is taken by [_choose_token] instead of the pool: the token
    chosen is one the user typed. *)
Theorem parsed_override_wins (text : string) :
  Forall (fun t => t <> "" /\
                   Str.all_chars (fun c => negb (Str.is_space c) &&
                                           negb (Ascii.eqb c ","%char)) t = true)
    (_split_tokens text) /\
  (_split_tokens text = [] -> _parse_session_override (Some text) = Absent) /\
  (_split_tokens text <> [] ->
   given (_parse_session_override (Some text)) = true /\
   override_tokens (_parse_session_override (Some text)) = _split_tokens text) /\
  (forall self draw token,
     _split_tokens text <> [] ->
     _choose_token self (_parse_session_override (Some text)) draw = Return token ->
     In token (_split_tokens text)).
Proof.
  assert (Hwords :
    Forall (fun t => t <> "" /\
                     Str.all_chars (fun c => negb (Str.is_space c) &&
                                             negb (Ascii.eqb c ","%char)) t = true)
      (_split_tokens text)).
  { destruct (Py.truthy_str text) eqn:Hr;
      [|unfold _split_tokens; rewrite Hr; constructor].
    rewrite (proj1 (split_tokens_words text Hr)).
    pose proof (split_loop_words (commas_to_spaces text) "" eq_refl) as Hw.
    pose proof (split_loop_chars (fun c => negb (Ascii.eqb c ","%char))
                  (commas_to_spaces text) "" (commas_gone text) eq_refl) as Hc.
    fold (split (commas_to_spaces text)) in Hw, Hc.
    rewrite Forall_forall in *. intros t Ht.
    destruct (Hw t Ht) as [Hne Hs]. split; [exact Hne|].
    apply all_chars_both; [exact Hs | now apply Hc]. }
  assert (Hparse :
    _split_tokens text <> [] ->
    given (_parse_session_override (Some text)) = true /\
    override_tokens (_parse_session_override (Some text)) = _split_tokens text).
  { intros Hne. unfold _parse_session_override.
    destruct (Py.truthy_str text) eqn:Hr;
      [|unfold _split_tokens in Hne; rewrite Hr in Hne; now elim Hne].
    destruct (split_tokens_words text Hr) as [Es Ep]. rewrite Ep, <- Es.
    destruct (_split_tokens text) as [|a [|b rest]] eqn:El; [now elim Hne| |].
    - inversion Hwords as [|? ? [Ha _] _]; subst. cbn. split; [|reflexivity].
      now destruct a.
    - now cbn. }
  split; [exact Hwords|]. split; [|split; [exact Hparse|]].
  - intros He. unfold _parse_session_override.
    destruct (Py.truthy_str text) eqn:Hr; [|reflexivity].
    destruct (split_tokens_words text Hr) as [Es Ep]. now rewrite Ep, <- Es, He.
  - intros self draw token Hne H. destruct (Hparse Hne) as [Hg Ho].
    unfold _choose_token in H. rewrite Hg, Ho in H.
    destruct (_split_tokens text) as [|a rest]; [discriminate|].
    destruct (choice draw (a :: rest)) as [t|] eqn:Ec; [|discriminate].
    inversion H; subst. now apply choice_member in Ec.
Qed.

End PluginFacts.

Module ClientFacts.
Import Errors Core Net CoreApi Service Client Facade NetFacts UploadFacts.
Local Open Scope net_scope.

#[local] Hint Rewrite @silent_lift @silent_ret @silent_raise
  silent_aws_timestamp silent_random_string silent_check_status
  silent_decoded silent_text_or silent_header_value : silent.

Section Calls.

Variable RETRY_CONFIG : RetryConfig.
Variable b64encode : string -> string.

(** ** Points *)

Lemma credit_all_sent tokens : forall w c,
  In c (sent_of (credit_all RETRY_CONFIG tokens w)) -> c = credit_call.
Proof.
  induction tokens as [|token rest IH]; intros w c H; cbn [credit_all] in H.
  - now autorewrite with silent in H.
  - apply in_sent_bind in H. destruct H as [H | (points & w1 & s1 & _ & H)];
      [now apply VideoFacts.get_credit_sent in H|].
    apply in_sent_bind in H. destruct H as [H | (results & w2 & s2 & _ & H)];
      [now apply IH in H|].
    now autorewrite with silent in H.
Qed.

Lemma credit_all_returns tokens : forall w results w' s,
  credit_all RETRY_CONFIG tokens w = (Return results, w', s) ->
  exists points,
    List.length points = List.length tokens /\
    results = map (fun tp => Json.Obj [("token", Json.Str (fst tp));
                                       ("points", snd tp)])
                (combine tokens points).
Proof.
  induction tokens as [|token rest IH]; intros w results w' s H;
    cbn [credit_all] in H.
  - inversion H. now exists [].
  - apply bind_return_inv in H. destruct H as (p & w1 & s1 & s2 & _ & H & _).
    apply bind_return_inv in H. destruct H as (more & w2 & s3 & s4 & Hm & H & _).
    inversion H; subst. apply IH in Hm. destruct Hm as (points & Hl & ->).
    exists (p :: points). cbn. now rewrite Hl.
Qed.

(** X28.  [get_points] asks for the credits of every token, in order, and
    returns one entry per token labelled with it; it sends credit requests
    only; without any token it raises the "no session" error and sends
    nothing; and through the facade it raises and sends nothing while the
    service is not running. *)
Theorem get_points_one_per_token (self : JimengClient)
    (session_ids : SessionArg) (w : World) :
  (forall results,
     outcome_of (Client.get_points RETRY_CONFIG self session_ids w) =
       Return results ->
     exists points,
       List.length points = List.length (points_tokens self session_ids) /\
       results = map (fun tp => Json.Obj [("token", Json.Str (fst tp));
                                          ("points", snd tp)])
                   (combine (points_tokens self session_ids) points)) /\
  (forall c,
     In c (sent_of (Client.get_points RETRY_CONFIG self session_ids w)) ->
     c = credit_call) /\
  (points_tokens self session_ids = [] ->
   Client.get_points RETRY_CONFIG self session_ids w =
   (Raise (JimengAPIError (Text "未提供 session_id") None), w, [])) /\
  (forall service,
     _client service = self -> is_running service = false ->
     Facade.get_points RETRY_CONFIG service session_ids w =
     (Raise (JimengAPIError (Text "服务尚未启动，请先调用 start()") None), w, [])).
Proof.
  unfold Client.get_points. split; [|split; [|split]].
  - intros results H.
    destruct (points_tokens self session_ids) as [|t rest] eqn:E;
      [discriminate|].
    unfold outcome_of in H.
    destruct (credit_all RETRY_CONFIG (t :: rest) w) as [[o w'] s] eqn:Ec.
    cbn in H. subst o. exact (credit_all_returns _ _ _ _ _ Ec).
  - intros c H.
    destruct (points_tokens self session_ids) as [|t rest];
      [now autorewrite with silent in H | now apply credit_all_sent in H].
  - now intros ->.
  - intros service _ Hr. unfold Facade.get_points, _ensure_running, is_running in *.
    now rewrite Hr.
Qed.

(** ** The formatted response *)

Lemma download_all_returns urls : forall w items w' s,
  download_all b64encode urls w = (Return items, w', s) ->
  exists texts,
    urls = map Json.Str texts /\ s = map download_call texts /\
    List.length items = List.length urls.
Proof.
  induction urls as [|url rest IH]; intros w items w' s H;
    cbn [download_all] in H.
  - inversion H. now exists [].
  - apply bind_return_inv in H. destruct H as (content & w1 & s1 & s2 & Hc & H & ->).
    apply bind_return_inv in H. destruct H as (u & w2 & s3 & s4 & Hs & H & ->).
    apply bind_return_inv in H. destruct H as (more & w3 & s5 & s6 & Hm & H & ->).
    inversion H; subst. apply IH in Hm. destruct Hm as (texts & -> & -> & Hl).
    destruct url as [| | |text| |]; try discriminate.
    apply send_returns in Hc. subst s1.
    assert (Hs3 : s3 = []).
    { unfold check_status in Hs. destruct (raise_for_status content);
        inversion Hs; reflexivity. }
    subst s3. exists (text :: texts). cbn [map app List.length].
    rewrite app_nil_r, Hl. auto.
Qed.

(** X29.  [_format_response] in any format but [b64_json] sends nothing
    and wraps every URL, in order, in a [url] entry; in the [b64_json]
    format a result means every URL was a text and was downloaded exactly
    once, in order, and there is one entry per URL. *)
Theorem format_response_downloads (urls : list Json.value) (w : World) :
  (forall response_format,
     response_format <> "b64_json" ->
     _format_response b64encode urls response_format w =
     (Return (map (fun url => Json.Obj [("url", url)]) urls), w, [])) /\
  (forall items w' s,
     _format_response b64encode urls "b64_json" w = (Return items, w', s) ->
     exists texts,
       urls = map Json.Str texts /\ s = map download_call texts /\
       List.length items = List.length urls).
Proof.
  unfold _format_response. split.
  - intros fmt Hf. destruct (String.eqb_spec fmt "b64_json"); [contradiction|].
    reflexivity.
  - intros items w' s H. cbn in H. now apply download_all_returns in H.
Qed.

End Calls.

End ClientFacts.

Module GenerationFacts.
Import Errors Core Net Images Composition CoreApi Generation NetFacts UploadFacts.
Local Open Scope net_scope.

#[local] Hint Rewrite @silent_lift @silent_ret @silent_raise
  silent_aws_timestamp silent_random_string silent_check_status
  silent_decoded silent_text_or silent_header_value : silent.

Section Generate.

Variable constants : Constants.
Variable POLLING_CONFIG : Poller.PollingConfig.
Variable generate_draft :
  string -> string -> string -> Q -> Json.value -> Json.value -> Json.value ->
  Json.value -> bool -> Json.value.

Lemma poll_history_sent history_id refresh_token w c :
  In c (sent_of (_poll_history constants history_id refresh_token w)) ->
  c = history_call history_id.
Proof.
  intros H. unfold _poll_history in H.
  apply in_sent_bind in H. destruct H as [H | (history & w1 & s1 & _ & H)];
    [now apply gateway_sent in H|].
  exfalso. destruct history; try (now autorewrite with silent in H).
  apply in_sent_bind in H. destruct H as [H | (found & w2 & s2 & _ & H)];
    [now autorewrite with silent in H|].
  destruct found; [walk H | now autorewrite with silent in H].
Qed.

Lemma image_credit_sent refresh_token w c :
  In c (sent_of (ensure_credit constants refresh_token w)) ->
  c = credit_call \/
  (c = receive_call /\
   exists summary w1 s1 total,
     get_credit (RETRY_CONFIG constants) refresh_token w =
       (Return summary, w1, s1) /\
     JsonText.item summary "totalCredit" = Return total /\
     py_le_zero total = Return true).
Proof.
  unfold ensure_credit. intros H.
  apply in_sent_bind in H. destruct H as [H | (summary & w1 & s1 & Eg & H)];
    [left; now apply VideoFacts.get_credit_sent in H|].
  apply in_sent_bind in H. destruct H as [H | (total & w2 & s2 & Et & H)];
    [now autorewrite with silent in H|].
  apply in_sent_bind in H. destruct H as [H | (none_left & w3 & s3 & En & H)];
    [now autorewrite with silent in H|].
  apply lift_returns in Et. destruct Et as (Et & _ & _).
  apply lift_returns in En. destruct En as (En & _ & _).
  destruct none_left; [|now autorewrite with silent in H].
  apply in_sent_bind in H. destruct H as [H | (? & ? & ? & _ & H)];
    [|now autorewrite with silent in H].
  unfold receive_credit in H. apply gateway_sent in H.
  right. split; [exact H|]. now exists summary, w1, s1, total.
Qed.

(** X30.  [generate_images] checks the model and the resolution before
    anything is sent; for the model [nanobanana] the ratio and the
    resolution asked for are not read at all (the size is fixed); and the
    daily credits are claimed only when the credit summary just read shows a
    total of zero or less. *)
Theorem generate_images_checks_first (prompt refresh_token ratio resolution : string)
    (sample_strength : Q) (negative_prompt : string) (w : World) :
  (forall model e,
     String.eqb model "nanobanana" = false ->
     _map_model constants model refresh_token = Raise e \/
     (exists m, _map_model constants model refresh_token = Return m /\
                _get_resolution constants resolution ratio = Raise e) ->
     generate_images constants POLLING_CONFIG generate_draft model prompt
       refresh_token ratio resolution sample_strength negative_prompt w =
     (Raise e, w, [])) /\
  (forall ratio' resolution',
     generate_images constants POLLING_CONFIG generate_draft "nanobanana" prompt
       refresh_token ratio resolution sample_strength negative_prompt w =
     generate_images constants POLLING_CONFIG generate_draft "nanobanana" prompt
       refresh_token ratio' resolution' sample_strength negative_prompt w) /\
  (forall model,
     In receive_call
       (sent_of (generate_images constants POLLING_CONFIG generate_draft model
                   prompt refresh_token ratio resolution sample_strength
                   negative_prompt w)) ->
     exists summary w1 s1 total,
       get_credit (RETRY_CONFIG constants) refresh_token w =
         (Return summary, w1, s1) /\
       JsonText.item summary "totalCredit" = Return total /\
       py_le_zero total = Return true).
Proof.
  split; [|split].
  - intros model e Hm Hbad. unfold generate_images. rewrite Hm.
    unfold bind, lift. destruct Hbad as [-> | (m & -> & ->)]; reflexivity.
  - intros ratio' resolution'. reflexivity.
  - intros model H. unfold generate_images in H.
    apply in_sent_bind in H. destruct H as [H | (m & w1 & s1 & E1 & H)];
      [now autorewrite with silent in H|].
    apply lift_returns in E1. destruct E1 as (_ & -> & _).
    apply in_sent_bind in H. destruct H as [H | (size & w2 & s2 & E2 & H)].
    { exfalso. destruct (String.eqb model "nanobanana");
        [now autorewrite with silent in H | walk H]. }
    assert (Hw : w2 = w).
    { destruct (String.eqb model "nanobanana"); [now inversion E2|].
      unbind E2.
      repeat match goal with
             | L : lift _ _ = (Return _, _, _) |- _ =>
                 apply lift_returns in L; destruct L as (_ & -> & _)
             end.
      now inversion E2. }
    subst w2. destruct size as [[[width height] image_ratio] resolution_type].
    apply in_sent_bind in H. destruct H as [H | (u & w3 & s3 & _ & H)].
    { apply image_credit_sent in H. destruct H as [H | [_ H]];
        [discriminate | exact H]. }
    exfalso.
    apply in_sent_bind in H. destruct H as [H | (response & w4 & s4 & _ & H)];
      [apply gateway_sent in H; discriminate|].
    apply in_sent_bind in H. destruct H as [H | (aigc & w5 & s5 & _ & H)];
      [now autorewrite with silent in H|].
    apply in_sent_bind in H. destruct H as [H | (hid & w6 & s6 & _ & H)];
      [now autorewrite with silent in H|].
    destruct (negb _); [now autorewrite with silent in H|].
    apply in_sent_bind in H. destruct H as [H | (polled & w7 & s7 & _ & H)].
    { apply (VideoFacts.poll_sent (fun c => c <> receive_call)) in H;
        [now apply H|].
      intros w' c Hc. apply poll_history_sent in Hc. subst c. discriminate. }
    apply in_sent_bind in H. destruct H as [H | (items & w8 & s8 & _ & H)];
      [now autorewrite with silent in H|].
    apply in_sent_bind in H. destruct H as [H | (urls & w9 & s9 & _ & H)];
      [now autorewrite with silent in H|].
    destruct urls; now autorewrite with silent in H.
Qed.

End Generate.

End GenerationFacts.
